(** * rewrite_permalinks.py: a shallow embedding and its verified properties

    The script parses an HTML file with BeautifulSoup, rewrites every
    [div.dfn-panel] (permalink anchor and "exported" marker) and writes the
    document back after saving a [.bak] copy.

    Python [str] values are represented by the bytes of their UTF-8
    encoding (a Rocq [string]); every string operation the script uses
    (equality, [startswith], concatenation, the regular expression's
    "any character but newline") commutes with that encoding.  A [str]
    may hold a lone surrogate (the parser makes one of [&#xD800;]); it
    is written as the three bytes the encoding scheme would give it,
    which strict UTF-8 ([Files.utf8_valid]) refuses: such a text cannot
    be encoded when it is written to a file.

    A document is the tree the parser built, each tag with the reference
    by which the script holds it.  The statements about the transform
    assume these references distinct ([NoDup (uids cs)]), as those of
    Python objects are, and are statements about that tree in memory. *)

From Stdlib Require Import String Ascii List Bool Arith Lia.
From stdpp Require Import base option gmap strings list.

Open Scope string_scope.
Open Scope list_scope.

#[local] Set Warnings "-register-all".

(** ** Exceptions and results *)

Inductive exn :=
| AttributeError
| TypeError
| FileNotFoundError
| UnicodeDecodeError
| UnicodeEncodeError
| PermissionError
| ValueError
| ParserError.

Inductive result (A : Type) :=
| Ok (a : A)
| Raise (e : exn).
Arguments Ok {A} a.
Arguments Raise {A} e.

#[global] Instance result_ret : MRet result := fun _ a => Ok a.

#[global] Instance result_bind : MBind result := fun _ _ k r =>
  match r with
  | Ok a => k a
  | Raise e => Raise e
  end.

(** ** Python string helpers *)

Module PyStr.

Definition newline : ascii := "010"%char.

(** [s.startswith(p)] *)
Definition startswith (s p : string) : bool := String.prefix p s.

(** [s[n:]] *)
Fixpoint drop (n : nat) (s : string) : string :=
  match n, s with
  | O, _ => s
  | S n', String _ s' => drop n' s'
  | S _, EmptyString => EmptyString
  end.

(** The longest prefix of [s] without a newline: what a greedy [.+] or
    [.*] consumes (without DOTALL, [.] matches anything but a newline). *)
Fixpoint dot_star (s : string) : string :=
  match s with
  | EmptyString => EmptyString
  | String c s' =>
      if Ascii.eqb c newline then EmptyString else String c (dot_star s')
  end.

(** [p in s] on two strings: substring test. *)
Fixpoint contains (s p : string) : bool :=
  String.prefix p s ||
  match s with
  | EmptyString => false
  | String _ s' => contains s' p
  end.

(** [sep.join(l)] *)
Fixpoint join (sep : string) (l : list string) : string :=
  match l with
  | [] => ""
  | [x] => x
  | x :: l' => x +:+ sep +:+ join sep l'
  end.

(** Truth value of a [str]. *)
Definition truthy (s : string) : bool :=
  match s with EmptyString => false | _ => true end.

(** [c in s] for a single character [c]. *)
Fixpoint mentions (c : ascii) (s : string) : bool :=
  match s with
  | EmptyString => false
  | String x s' => Ascii.eqb x c || mentions c s'
  end.

End PyStr.

(** ** The BeautifulSoup tree

    Tags are Python objects with identity: the script keeps references to
    them (the list of panels, the values of the definition index, the
    anchor [a]) while it mutates the tree.  Each tag therefore carries a
    unique identifier [uid]; a reference is a [uid]. *)

Module Bs4.

(** An attribute value is a [str], or a list of [str] for the
    multi-valued attributes ([class], ...) as the parser builds them. *)
Inductive attr_value :=
| AStr (s : string)
| AList (l : list string).

Inductive string_kind := Text | Comment | CData | Doctype | Declaration.

Inductive node :=
| Tag (uid : nat) (name : string) (attrs : list (string * attr_value))
      (contents : list node)
| NavigableString (k : string_kind) (s : string).

Definition is_tag (n : node) : bool :=
  match n with Tag _ _ _ _ => true | _ => false end.

Definition contents (n : node) : list node :=
  match n with Tag _ _ _ cs => cs | _ => [] end.

Definition attrs (n : node) : list (string * attr_value) :=
  match n with Tag _ _ a _ => a | _ => [] end.

Definition tag_uid (n : node) : option nat :=
  match n with Tag u _ _ _ => Some u | _ => None end.

(** [bool(x)] for a child of a tag: [Tag.__bool__] is always true, a
    [NavigableString] is a [str]. *)
Definition truthy (n : node) : bool :=
  match n with
  | Tag _ _ _ _ => true
  | NavigableString _ s => PyStr.truthy s
  end.

(** *** Attribute dictionaries (insertion-ordered) *)

Fixpoint dict_get (k : string) (d : list (string * attr_value))
  : option attr_value :=
  match d with
  | [] => None
  | (k', v) :: d' => if String.eqb k' k then Some v else dict_get k d'
  end.

(** [d[k] = v]: an existing key keeps its position. *)
Fixpoint dict_set (k : string) (v : attr_value)
  (d : list (string * attr_value)) : list (string * attr_value) :=
  match d with
  | [] => [(k, v)]
  | (k', v') :: d' =>
      if String.eqb k' k then (k', v) :: d' else (k', v') :: dict_set k v d'
  end.

(** [tag.get(k)] *)
Definition get (k : string) (n : node) : option attr_value :=
  dict_get k (attrs n).

(** [tag.has_attr(k)] *)
Definition has_attr (k : string) (n : node) : bool :=
  match get k n with Some _ => true | None => false end.

(** [tag[k] = v] *)
Definition set_attr (k : string) (v : string) (n : node) : node :=
  match n with
  | Tag u nm a cs => Tag u nm (dict_set k (AStr v) a) cs
  | _ => n
  end.

(** *** Searching *)

(** The tag itself followed by [tag.descendants], in document order. *)
Fixpoint self_and_descendants (n : node) : list node :=
  n :: match n with
       | Tag _ _ _ cs => flat_map self_and_descendants cs
       | NavigableString _ _ => []
       end.

(** [tag.descendants], also for the children list of the soup object. *)
Definition descendants_of (cs : list node) : list node :=
  flat_map self_and_descendants cs.

Definition descendants (n : node) : list node :=
  descendants_of (contents n).

Definition name_is (nm : string) (n : node) : bool :=
  match n with
  | Tag _ nm' _ _ => String.eqb nm' nm
  | NavigableString _ _ => false
  end.

(** The [class_=c] filter: a list value matches when one of its tokens
    is [c] or when the tokens joined by a space are [c]; a [str] value
    matches when it is [c]. *)
Definition class_matches (c : string) (n : node) : bool :=
  match get "class" n with
  | Some (AStr s) => String.eqb s c
  | Some (AList l) =>
      existsb (String.eqb c) l || String.eqb (PyStr.join " " l) c
  | None => false
  end.

(** [x.find_all(nm)] and [x.find_all(nm, class_=c)] *)
Definition find_all (p : node -> bool) (cs : list node) : list node :=
  List.filter p (descendants_of cs).

(** [x.find(nm, class_=c)]: the first match or [None]. *)
Definition find (p : node -> bool) (cs : list node) : option node :=
  List.find p (descendants_of cs).

Definition is_named_class (nm c : string) (n : node) : bool :=
  name_is nm n && class_matches c n.

(** *** References *)

(** Identifiers of all tags of a forest, in document order. *)
Definition uids (cs : list node) : list nat :=
  omap tag_uid (descendants_of cs).

(** The tag a reference points to. *)
Definition deref (u : nat) (cs : list node) : option node :=
  List.find (fun n => bool_decide (tag_uid n = Some u)) (descendants_of cs).

(** Replace the tag [u] by the nodes [f tag] in its parent's children. *)
Fixpoint subst (u : nat) (f : node -> list node) (n : node) : list node :=
  match n with
  | Tag v nm a cs =>
      if Nat.eqb v u then f n
      else [Tag v nm a (flat_map (subst u f) cs)]
  | NavigableString _ _ => [n]
  end.

Definition subst_in (u : nat) (f : node -> list node) (cs : list node)
  : list node :=
  flat_map (subst u f) cs.

Definition has_child (u : nat) (n : node) : bool :=
  existsb (fun c => bool_decide (tag_uid c = Some u)) (contents n).

(** [x.parent] for the tag [u] below [root]. *)
Definition parent_of (u : nat) (root : node) : option node :=
  List.find (has_child u) (self_and_descendants root).

(** The node that follows tag [u] among its siblings. *)
Fixpoint next_sibling_in (u : nat) (cs : list node) : option node :=
  match cs with
  | [] => None
  | c :: cs' =>
      if bool_decide (tag_uid c = Some u) then head cs'
      else next_sibling_in u cs'
  end.

End Bs4.

Import Bs4.

(** ** The panel rewriter (process_file, lines 27 to 76) *)

Module Rewriter.

(** [re.match(r'dfn-panel-for-(?:dfn-)?(.+)', pid)], returning group 1.
    The optional group is greedy: [dfn-] is consumed when what follows
    still lets [.+] match one character; otherwise the engine
    backtracks and [.+] starts at the [dfn-] itself. *)
Definition panel_re (pid : string) : option string :=
  if PyStr.startswith pid "dfn-panel-for-" then
    let rest := PyStr.drop 14 pid in
    let with_infix :=
      if PyStr.startswith rest "dfn-"
      then PyStr.dot_star (PyStr.drop 4 rest) else "" in
    if PyStr.truthy with_infix then Some with_infix
    else
      let without := PyStr.dot_star rest in
      if PyStr.truthy without then Some without else None
  else None.

(** ['dfn-' + dfn_suffix if not dfn_suffix.startswith('dfn-') else dfn_suffix] *)
Definition dfn_id_of (dfn_suffix : string) : string :=
  if negb (PyStr.startswith dfn_suffix "dfn-")
  then "dfn-" +:+ dfn_suffix else dfn_suffix.

(** [panel.get('id') or '']; a non-empty list cannot be matched by [re]. *)
Definition panel_pid (panel : node) : result string :=
  match get "id" panel with
  | Some (AStr s) => Ok s
  | Some (AList []) => Ok ""
  | Some (AList (_ :: _)) => Raise TypeError
  | None => Ok ""
  end.

(** What the script can learn from a reference to a [dfn] tag: which
    object it is, and its attributes.  The script never changes the
    attributes of a [dfn], so they are those of the parsed tag. *)
Definition dfn_ref : Type := nat * list (string * attr_value).

Definition ref_of (tag : node) : dfn_ref := (default 0 (tag_uid tag), attrs tag).

(** The dict comprehension of line 28: later tags overwrite earlier
    ones; a tag without a truthy id is skipped; a non-empty list is not
    hashable. *)
Definition dfn_map_add (acc : result (gmap string dfn_ref)) (tag : node)
  : result (gmap string dfn_ref) :=
  m ← acc;
  match get "id" tag with
  | Some (AStr s) =>
      if PyStr.truthy s then Ok (<[s := ref_of tag]> m) else Ok m
  | Some (AList []) => Ok m
  | Some (AList (_ :: _)) => Raise TypeError
  | None => Ok m
  end.

Definition build_dfn_map (soup : list node) : result (gmap string dfn_ref) :=
  foldl dfn_map_add (Ok ∅) (find_all (name_is "dfn") soup).

(** The tag carries the identifier [k]: [tag.get('id') == k]. *)
Definition has_id (k : string) (tag : node) : bool :=
  match get "id" tag with
  | Some (AStr s) => String.eqb s k
  | _ => false
  end.

(** Line 63, on the attributes of a live [dfn] tag. *)
Definition has_export (a : list (string * attr_value)) : bool :=
  (match dict_get "class" a with
   | Some (AList l) => existsb (String.eqb "export") l
   | Some (AStr s) => PyStr.truthy s && PyStr.contains s "export"
   | None => false
   end)
  || (match dict_get "data-export" a with Some _ => true | None => false end).

(** Reading an attribute of a tag destroyed by [decompose()] fails. *)
Definition exported (dead : list nat) (dfn_tag : option dfn_ref)
  : result bool :=
  match dfn_tag with
  | None => Ok false
  | Some (u, a) =>
      if bool_decide (u ∈ dead) then Raise AttributeError
      else Ok (has_export a)
  end.

Definition is_self_link : node -> bool := is_named_class "a" "self-link".
Definition is_marker : node -> bool :=
  is_named_class "span" "marker dfn-exported".
Definition is_panel : node -> bool := is_named_class "div" "dfn-panel".

Definition aria_label (dfn_id : string) : string :=
  "Permalink for definition: " +:+ dfn_id +:+
  ". Activate to close this dialog.".

(** Lines 56 to 58 on the anchor. *)
Definition set_string (s : string) (n : node) : node :=
  match n with
  | Tag u nm a _ => Tag u nm a [NavigableString Text s]
  | _ => n
  end.

Definition update_anchor (dfn_id : string) (a : node) : node :=
  set_attr "aria-label" (aria_label dfn_id)
    (set_string "Permalink" (set_attr "href" ("#" +:+ dfn_id) a)).

(** [soup.new_tag('a', **{'class': 'self-link'})]: the builder splits
    the class value as it does for parsed tags. *)
Definition new_anchor (u : nat) : node :=
  Tag u "a" [("class", AList ["self-link"])] [].

(** Lines 65 to 68. *)
Definition new_marker (u : nat) : node :=
  Tag u "span"
    [("class", AStr "marker dfn-exported");
     ("title", AStr "Definition can be referenced by other specifications")]
    [NavigableString Text "exported"].

(** [tag.insert(0, x)] and [tag.append(x)] *)
Definition insert0 (x : node) (n : node) : node :=
  match n with
  | Tag u nm a cs => Tag u nm a (x :: cs)
  | _ => n
  end.

Definition append (x : node) (n : node) : node :=
  match n with
  | Tag u nm a cs => Tag u nm a (cs ++ [x])
  | _ => n
  end.

Definition uid_of (n : node) : nat := default 0 (tag_uid n).

(** Apply [f] to the descendant [x] of [root], in place. *)
Definition edit (x : nat) (f : node -> list node) (root : node) : node :=
  match root with
  | Tag u nm a cs => Tag u nm a (subst_in x f cs)
  | _ => root
  end.

(** [x.next_sibling] for the descendant [x] of [root]. *)
Definition next_sibling (x : nat) (root : node) : option node :=
  p ← parent_of x root; next_sibling_in x (contents p).

(** [root.div]: the first descendant named [div]. *)
Definition dot_div (root : node) : option node :=
  find (name_is "div") (contents root).

(** What one iteration does to the tree below its panel: every node the
    loop body reads or writes is the panel or one of its descendants
    ([find] searches below the panel, [a] and the marker are
    descendants, [insert_after] edits [a]'s parent). *)
Record effect := {
  e_panel : node;            (* the panel after the iteration *)
  e_orphans : list node;     (* nodes detached by [a.string = ...] *)
  e_dead : list nat;         (* tags destroyed by [decompose()] *)
  e_fresh : nat              (* next unused identifier *)
}.

Definition unchanged (panel : node) (fresh : nat) : effect :=
  {| e_panel := panel; e_orphans := []; e_dead := []; e_fresh := fresh |}.

(** Lines 50 to 54: the anchor reference, the panel and the next unused
    identifier. *)
Definition ensure_anchor (panel : node) (fresh : nat)
  : result (nat * node * nat) :=
  match find is_self_link (contents panel) with
  | Some a => Ok (uid_of a, panel, fresh)
  | None =>
      match dot_div panel with
      | None => Raise AttributeError
      | Some d =>
          Ok (fresh,
              edit (uid_of d) (fun d => [insert0 (new_anchor fresh) d]) panel,
              S fresh)
      end
  end.

(** Line 55; the value is never used. *)
Definition link (p_name dfn_id dfn_suffix : string) : string :=
  if PyStr.truthy dfn_id then p_name +:+ "#" +:+ dfn_id
  else "#" +:+ dfn_suffix.

(** Lines 44 to 47. *)
Definition resolve (dfn_map : gmap string dfn_ref) (dfn_id dfn_suffix : string)
  : option dfn_ref :=
  match dfn_map !! dfn_id with
  | Some t => Some t
  | None => dfn_map !! dfn_suffix
  end.

(** Lines 62 to 76, after the anchor [a] has been updated. *)
Definition sync_marker (is_exported : bool) (a : nat) (panel : node)
  (orphans : list node) (fresh : nat) : result effect :=
  let existing_marker := find is_marker (contents panel) in
  if is_exported then
    match existing_marker with
    | Some _ =>
        Ok {| e_panel := panel; e_orphans := orphans; e_dead := [];
              e_fresh := fresh |}
    | None =>
        let marker := new_marker fresh in
        if from_option truthy false (next_sibling a panel) then
          Ok {| e_panel := edit a (fun n => [n; marker]) panel;
                e_orphans := orphans; e_dead := []; e_fresh := S fresh |}
        else
          match dot_div panel with
          | None => Raise AttributeError
          | Some d =>
              Ok {| e_panel := edit (uid_of d) (fun d => [append marker d]) panel;
                    e_orphans := orphans; e_dead := []; e_fresh := S fresh |}
          end
    end
  else
    match existing_marker with
    | Some m =>
        Ok {| e_panel := edit (uid_of m) (fun _ => []) panel;
              e_orphans := orphans; e_dead := uids [m]; e_fresh := fresh |}
    | None =>
        Ok {| e_panel := panel; e_orphans := orphans; e_dead := [];
              e_fresh := fresh |}
    end.

(** The loop body, lines 35 to 76, for one panel. *)
Definition process_panel (p_name : string) (dfn_map : gmap string dfn_ref)
  (dead : list nat) (panel : node) (fresh : nat) : result effect :=
  pid ← panel_pid panel;
  match panel_re pid with
  | None => Ok (unchanged panel fresh)
  | Some dfn_suffix =>
      let dfn_id := dfn_id_of dfn_suffix in
      let dfn_tag := resolve dfn_map dfn_id dfn_suffix in
      '(a, panel1, fresh1) ← ensure_anchor panel fresh;
      let _link := link p_name dfn_id dfn_suffix in
      let detached := from_option contents [] (deref a (contents panel1)) in
      let panel2 := edit a (fun n => [update_anchor dfn_id n]) panel1 in
      is_exported ← exported dead dfn_tag;
      sync_marker is_exported a panel2 detached fresh1
  end.

(** The objects alive during the loop: the tree of the soup, the
    subtrees detached from it, the tags destroyed, the next unused
    identifier. *)
Record state := {
  soup : list node;
  orphans : list node;
  dead : list nat;
  fresh : nat
}.

(** One iteration of [for panel in panels], [u] being the reference the
    list holds.  A destroyed tag has lost its attributes, so
    [panel.get('id')] fails on it.  A reference taken from the parsed
    tree points into the soup, into a detached subtree or to a destroyed
    tag, so the case where it points nowhere does not arise. *)
Definition step (p_name : string) (dfn_map : gmap string dfn_ref)
  (st : state) (u : nat) : result state :=
  if bool_decide (u ∈ dead st) then Raise AttributeError
  else
    match deref u (soup st ++ orphans st) with
    | None => Ok st
    | Some panel =>
        eff ← process_panel p_name dfn_map (dead st) panel (fresh st);
        Ok {| soup := subst_in u (fun _ => [e_panel eff]) (soup st);
              orphans := subst_in u (fun _ => [e_panel eff]) (orphans st)
                         ++ e_orphans eff;
              dead := dead st ++ e_dead eff;
              fresh := e_fresh eff |}
    end.

Fixpoint run (p_name : string) (dfn_map : gmap string dfn_ref)
  (panels : list nat) (st : state) : result state :=
  match panels with
  | [] => Ok st
  | u :: panels' =>
      st' ← step p_name dfn_map st u; run p_name dfn_map panels' st'
  end.

(** An identifier above all those of the parsed tree. *)
Definition first_fresh (cs : list node) : nat := S (list_max (uids cs)).

(** Lines 27 to 76: from the parsed soup to the soup that is serialised. *)
Definition transform (p_name : string) (cs : list node)
  : result (list node) :=
  dfn_map ← build_dfn_map cs;
  let panels := find_all is_panel cs in
  st ← run p_name dfn_map (map uid_of panels)
         {| soup := cs; orphans := []; dead := []; fresh := first_fresh cs |};
  Ok (soup st).

End Rewriter.

Import Rewriter.

(** ** Files, paths and the command line (lines 23 to 25 and 92 to 104) *)

Module Files.

(** *** pathlib: a path is the text it was built from *)

(** Split at the last occurrence of [c]: what precedes it, and the rest
    starting with [c]. *)
Fixpoint rsplit (c : ascii) (s : string) : option (string * string) :=
  match s with
  | EmptyString => None
  | String x s' =>
      match rsplit c s' with
      | Some (b, a) => Some (String x b, a)
      | None => if Ascii.eqb x c then Some ("", s) else None
      end
  end.

(** [(parent part with its separator, p.name)] *)
Definition split_name (p : string) : string * string :=
  match rsplit "/" p with
  | Some (d, String sep n) => (d +:+ String sep "", n)
  | _ => ("", p)
  end.

Definition name (p : string) : string := snd (split_name p).

(** [(stem, suffix)] of a file name: the suffix starts at the last dot,
    unless that dot is the first or the last character. *)
Definition split_suffix (n : string) : string * string :=
  match rsplit "." n with
  | Some (b, a) =>
      if PyStr.truthy b && Nat.ltb 1 (String.length a) then (b, a) else (n, "")
  | None => (n, "")
  end.

Definition suffix (p : string) : string := snd (split_suffix (name p)).

(** [p.with_suffix(s)] for a suffix [s] that is well formed. *)
Definition with_suffix (p s : string) : result string :=
  let '(d, n) := split_name p in
  if PyStr.truthy n then Ok (d +:+ fst (split_suffix n) +:+ s)
  else Raise ValueError.

(** [Path(f)] on a POSIX system, as the text [str] gives back: repeated
    slashes and [.] components go, as does a trailing slash; exactly
    two leading slashes are kept; the empty path is [.]. *)
Fixpoint split (c : ascii) (s : string) : list string :=
  match s with
  | EmptyString => [""]
  | String x s' =>
      if Ascii.eqb x c then "" :: split c s'
      else match split c s' with
           | h :: t => String x h :: t
           | [] => [String x ""]
           end
  end.

Fixpoint lstrip (c : ascii) (s : string) : string :=
  match s with
  | EmptyString => EmptyString
  | String x s' => if Ascii.eqb x c then lstrip c s' else s
  end.

Definition Path (f : string) : string :=
  let stripped := lstrip "/" f in
  let slashes := (String.length f - String.length stripped)%nat in
  let root :=
    if Nat.eqb slashes 0 then "" else if Nat.eqb slashes 2 then "//" else "/" in
  let parts :=
    List.filter (fun x => PyStr.truthy x && negb (String.eqb x "."))
      (split "/" stripped) in
  let s := root +:+ PyStr.join "/" parts in
  if PyStr.truthy s then s else ".".

(** *** Text files *)

Definition cr : ascii := "013"%char.

(** Reading in text mode with universal newlines: CR LF and a lone CR
    become LF. *)
Fixpoint universal_newlines (s : string) : string :=
  match s with
  | EmptyString => EmptyString
  | String c s' =>
      if Ascii.eqb c cr then
        match s' with
        | String c' s'' =>
            if Ascii.eqb c' PyStr.newline
            then String PyStr.newline (universal_newlines s'')
            else String PyStr.newline (universal_newlines s')
        | EmptyString => String PyStr.newline EmptyString
        end
      else String c (universal_newlines s')
  end.

(** Writing in text mode: every LF becomes [os.linesep]. *)
Fixpoint write_newlines (linesep : string) (s : string) : string :=
  match s with
  | EmptyString => EmptyString
  | String c s' =>
      if Ascii.eqb c PyStr.newline
      then linesep +:+ write_newlines linesep s'
      else String c (write_newlines linesep s')
  end.

(** Strict UTF-8: [need] continuation bytes are still expected, the
    next one within [lo..hi]. *)
Fixpoint utf8_valid_from (need lo hi : nat) (s : string) : bool :=
  (match s with
  | EmptyString => need =? 0
  | String c s' =>
      let b := nat_of_ascii c in
      match need with
      | O =>
          if b <? 128 then utf8_valid_from 0 0 0 s'
          else if (194 <=? b) && (b <=? 223) then utf8_valid_from 1 128 191 s'
          else if b =? 224 then utf8_valid_from 2 160 191 s'
          else if b =? 237 then utf8_valid_from 2 128 159 s'
          else if (225 <=? b) && (b <=? 239) then utf8_valid_from 2 128 191 s'
          else if b =? 240 then utf8_valid_from 3 144 191 s'
          else if (241 <=? b) && (b <=? 243) then utf8_valid_from 3 128 191 s'
          else if b =? 244 then utf8_valid_from 3 128 143 s'
          else false
      | S k => (lo <=? b) && (b <=? hi) && utf8_valid_from k 128 191 s'
      end
  end)%nat.

Definition utf8_valid : string -> bool := utf8_valid_from 0 0 0.

(** What the run does to the world: [EWrite p c], the file [p] was
    opened for writing and now holds [c]; [EPrint l], the line [l] was
    printed. *)
Inductive event :=
| EWrite (path content : string)
| EPrint (line : string).

(** The file system (path to bytes), the paths that refuse writes, and
    what the run has done so far, oldest first. *)
Record world := {
  files : gmap string string;
  read_only : gset string;
  trace : list event
}.

(** [p.read_text(encoding='utf-8')] *)
Definition read_text (p : string) (w : world) : result string :=
  match files w !! p with
  | None => Raise FileNotFoundError
  | Some bytes =>
      if utf8_valid bytes then Ok (universal_newlines bytes)
      else Raise UnicodeDecodeError
  end.

(** [p.write_text(data, encoding='utf-8')]: the file is opened for
    writing, which empties it, and then the text is encoded and written;
    a text that cannot be encoded leaves the file empty. *)
Definition write_text (linesep : string) (p data : string) (w : world)
  : world * result unit :=
  if bool_decide (p ∈ read_only w) then (w, Raise PermissionError)
  else if utf8_valid data then
    let bytes := write_newlines linesep data in
    ({| files := <[p := bytes]> (files w);
        read_only := read_only w;
        trace := trace w ++ [EWrite p bytes] |}, Ok ())
  else
    ({| files := <[p := ""]> (files w);
        read_only := read_only w;
        trace := trace w ++ [EWrite p ""] |}, Raise UnicodeEncodeError).

Definition print (line : string) (w : world) : world :=
  {| files := files w; read_only := read_only w;
     trace := trace w ++ [EPrint line] |}.

Section Process.

(** The collaborators: [BeautifulSoup(html, 'html.parser')],
    [str(soup)] and [os.linesep]. *)
Variable parse : string -> result (list node).
Variable serialize : list node -> string.
Variable linesep : string.

(** [process_file(p)]: the world it leaves and how it ended. *)
Definition process_file (p : string) (w : world) : world * result unit :=
  match read_text p w with
  | Raise e => (w, Raise e)
  | Ok html =>
  match parse html with
  | Raise e => (w, Raise e)
  | Ok soup0 =>
  match transform (name p) soup0 with
  | Raise e => (w, Raise e)
  | Ok soup1 =>
  match with_suffix p (suffix p +:+ ".bak") with
  | Raise e => (w, Raise e)
  | Ok bak =>
  match write_text linesep bak html w with
  | (w1, Raise e) => (w1, Raise e)
  | (w1, Ok _) =>
  match write_text linesep p (serialize soup1) w1 with
  | (w2, Raise e) => (w2, Raise e)
  | (w2, Ok _) =>
      (print ("Processed " +:+ p +:+ " -> backup " +:+ bak) w2, Ok ())
  end end end end end end.

Inductive outcome :=
| Finished
| Exit (code : nat)
| Uncaught (e : exn).

(** [for f in sys.argv[1:]: process_file(Path(f))] *)
Fixpoint process_all (fs : list string) (w : world) : world * outcome :=
  match fs with
  | [] => (w, Finished)
  | f :: fs' =>
      match process_file (Path f) w with
      | (w', Ok _) => process_all fs' w'
      | (w', Raise e) => (w', Uncaught e)
      end
  end.

(** The [__main__] block. *)
Definition main (argv : list string) (w : world) : world * outcome :=
  if Nat.ltb (length argv) 2 then
    (print "Usage: rewrite_permalinks.py file1.html [file2.html ...]" w,
     Exit 2)
  else process_all (tail argv) w.

End Process.

(** The world once the backup of [html] is written, and the world once
    the output [out] is written too and the line printed. *)
Definition backed_up (linesep p html : string) (w : world) : world :=
  {| files := <[p +:+ ".bak" := write_newlines linesep html]> (files w);
     read_only := read_only w;
     trace := trace w ++ [EWrite (p +:+ ".bak") (write_newlines linesep html)] |}.

(** The world once the backup is written and the input path has been
    opened for writing, with nothing written to it. *)
Definition emptied (linesep p html : string) (w : world) : world :=
  {| files := <[p := ""]>
                (<[p +:+ ".bak" := write_newlines linesep html]> (files w));
     read_only := read_only w;
     trace := trace w ++
              [EWrite (p +:+ ".bak") (write_newlines linesep html);
               EWrite p ""] |}.

Definition completed (linesep p html out : string) (w : world) : world :=
  {| files := <[p := write_newlines linesep out]>
                (<[p +:+ ".bak" := write_newlines linesep html]> (files w));
     read_only := read_only w;
     trace := trace w ++
              [EWrite (p +:+ ".bak") (write_newlines linesep html);
               EWrite p (write_newlines linesep out);
               EPrint ("Processed " +:+ p +:+ " -> backup " +:+ p +:+ ".bak")] |}.

(** The lines printed so far, oldest first. *)
Definition prints (tr : list event) : list string :=
  omap (fun e => match e with EPrint l => Some l | EWrite _ _ => None end) tr.

End Files.

Import Files.

(** ** Vocabulary of the properties *)

Module Spec.

(** A predicate that looks at a tag's name and attributes only. *)
Definition on_head (p : node -> bool) : Prop :=
  forall u nm a c1 c2, p (Tag u nm a c1) = p (Tag u nm a c2).

(** A predicate on tags that the update of an anchor does not change. *)
Definition stable (p : node -> bool) : Prop :=
  on_head p
  /\ (forall dfn_id n, p (update_anchor dfn_id n) = p n)
  /\ (forall k s, p (NavigableString k s) = false).

(** The panel's identifier matches the pattern, [dfn_suffix] being the
    text captured by the group. *)
Definition matched (panel : node) (dfn_suffix : string) : Prop :=
  exists pid, panel_pid panel = Ok pid /\ panel_re pid = Some dfn_suffix.

(** The permalink anchors and the exported markers below a tag, in
    document order, and the markers among its children. *)
Definition anchors_of (n : node) : list node :=
  find_all is_self_link (contents n).

Definition markers_of (n : node) : list node :=
  find_all is_marker (contents n).

Definition marker_children (n : node) : list node :=
  List.filter is_marker (contents n).

(** Every reference of the forest is below [F]: [F] and its successors
    are free for new tags. *)
Definition fresh_for (F : nat) (cs : list node) : Prop :=
  forall u, u ∈ uids cs -> u < F.

(** The tag encloses no element, only strings. *)
Definition text_only (n : node) : Prop := uids (contents n) = [].

(** No panel lies inside another panel. *)
Definition flat (cs : list node) : Prop :=
  forall P, P ∈ descendants_of cs -> is_panel P = true ->
    find_all is_panel (contents P) = [].

(** [x.next_sibling] for a tag [u] of the forest [cs], top level
    included. *)
Definition next_sibling_top (u : nat) (cs : list node) : option node :=
  if existsb (fun c => bool_decide (tag_uid c = Some u)) cs
  then next_sibling_in u cs
  else p ← List.find (has_child u) (descendants_of cs);
       next_sibling_in u (contents p).

(** A property of every panel of the document. *)
Definition for_panels (Q : node -> Prop) (cs : list node) : Prop :=
  forall P, P ∈ find_all is_panel cs -> Q P.

(** Panels enclose no definition element. *)
Definition no_dfn_in_panels : list node -> Prop :=
  for_panels (fun P => find_all (name_is "dfn") (contents P) = []).

(** Every panel holds at most one exported marker, and that marker
    encloses no element. *)
Definition tidy_markers : list node -> Prop :=
  for_panels (fun P => length (markers_of P) <= 1
                       /\ Forall text_only (markers_of P)).

(** [flat], as a test. *)
Definition flatb (cs : list node) : bool :=
  forallb (fun P => negb (is_panel P)
                    || match find_all is_panel (contents P) with
                       | [] => true
                       | _ => false
                       end)
    (descendants_of cs).

(** The panel's identifier does not match the pattern. *)
Definition unmatched (panel : node) : Prop :=
  exists pid, panel_pid panel = Ok pid /\ panel_re pid = None.

(** Line 63 for the definition a matched panel resolves to. *)
Definition export_status (dfn_map : gmap string dfn_ref) (dfn_suffix : string)
  : bool :=
  match resolve dfn_map (dfn_id_of dfn_suffix) dfn_suffix with
  | Some (_, a) => has_export a
  | None => false
  end.

(** What an edit of a forest keeps: unique references, new ones taken
    from [F] upwards, no more tags of a kind the rewriter does not
    create. *)
Definition extends (F F' : nat) (cs cs' : list node) : Prop :=
  NoDup (uids cs') /\ fresh_for F' cs' /\ F <= F'
  /\ (forall y, y ∈ uids cs' -> y ∈ uids cs \/ (F <= y < F'))
  /\ (forall p, stable p ->
        (forall x, p (new_anchor x) = false) ->
        (forall x, p (new_marker x) = false) ->
        length (find_all p cs') <= length (find_all p cs)).

(** The files [fs], taken in order, are each processed without an
    exception, the first one in the world [w], each next one in the
    world left by the one before; the last one leaves the world [w']. *)
Inductive processed (parse : string -> result (list node))
    (serialize : list node -> string) (linesep : string)
  : list string -> world -> world -> Prop :=
| processed_nil (w : world) : processed parse serialize linesep [] w w
| processed_cons (f : string) (fs : list string) (w w1 w2 : world) :
    process_file parse serialize linesep (Path f) w = (w1, Ok ()) ->
    processed parse serialize linesep fs w1 w2 ->
    processed parse serialize linesep (f :: fs) w w2.

(** What lies outside the panels: the tree with every panel emptied. *)
Fixpoint outside (n : node) : node :=
  match n with
  | Tag u nm a cc => Tag u nm a (if is_panel n then [] else List.map outside cc)
  | NavigableString _ _ => n
  end.

(** A panel the loop body can work on: its identifier is a string or
    absent, a [div] lies below it, and its first permalink anchor, if
    any, encloses no element. *)
Definition workable (P : node) : Prop :=
  (exists pid, panel_pid P = Ok pid)
  /\ is_Some (dot_div P)
  /\ (forall a0, find is_self_link (contents P) = Some a0 -> text_only a0).

End Spec.

Import Spec.

(** ** The loop seen along the tree

    When no panel lies inside another one, the iterations of the loop
    touch disjoint subtrees, and the loop is a walk through the tree in
    document order that rewrites each panel where it stands.  [Walk] is
    that presentation; [run_walk] below proves that the loop computes
    the same state. *)

Module Walk.

(** The part of the state that is threaded through the walk. *)
Record aux := {
  x_orphans : list node;
  x_dead : list nat;
  x_fresh : nat
}.

Definition aux_of (st : state) : aux :=
  {| x_orphans := orphans st; x_dead := dead st; x_fresh := fresh st |}.

Definition state_of (cs : list node) (x : aux) : state :=
  {| soup := cs; orphans := x_orphans x; dead := x_dead x;
     fresh := x_fresh x |}.

(** One iteration, at the panel itself. *)
Definition visit_panel (p_name : string) (dfn_map : gmap string dfn_ref)
  (panel : node) (x : aux) : result (node * aux) :=
  if bool_decide (uid_of panel ∈ x_dead x) then Raise AttributeError
  else
    eff ← process_panel p_name dfn_map (x_dead x) panel (x_fresh x);
    Ok (e_panel eff,
        {| x_orphans :=
             subst_in (uid_of panel) (fun _ => [e_panel eff]) (x_orphans x)
             ++ e_orphans eff;
           x_dead := x_dead x ++ e_dead eff;
           x_fresh := e_fresh eff |}).

Section WalkList.

Variable walk : node -> aux -> result (node * aux).

Fixpoint walk_list (l : list node) (x : aux) : result (list node * aux) :=
  match l with
  | [] => Ok ([], x)
  | c :: l' =>
      r1 ← walk c x;
      r2 ← walk_list l' (snd r1);
      Ok (fst r1 :: fst r2, snd r2)
  end.

End WalkList.

Fixpoint walk (p_name : string) (dfn_map : gmap string dfn_ref)
  (n : node) (x : aux) {struct n} : result (node * aux) :=
  match n with
  | Tag u nm a cc =>
      if is_panel n then visit_panel p_name dfn_map n x
      else
        r ← walk_list (walk p_name dfn_map) cc x;
        Ok (Tag u nm a (fst r), snd r)
  | NavigableString _ _ => Ok (n, x)
  end.

Definition walk_forest (p_name : string) (dfn_map : gmap string dfn_ref)
  : list node -> aux -> result (list node * aux) :=
  walk_list (walk p_name dfn_map).

(** A context [g] around the part of the soup in which the panels of
    [us] lie: it hides none of them and editing them goes through it. *)
Definition transparent (g : list node -> list node) (us : list nat) : Prop :=
  forall u, u ∈ us ->
    (forall S O, deref u (g S ++ O) = deref u (S ++ O))
    /\ (forall f S, subst_in u f (g S) = g (subst_in u f S)).

Definition in_context (g : list node -> list node) (st : state) : state :=
  {| soup := g (soup st); orphans := orphans st; dead := dead st;
     fresh := fresh st |}.

(** The references held by the list [panels] of line 31. *)
Definition panel_uids (cs : list node) : list nat :=
  List.map uid_of (find_all is_panel cs).

End Walk.

Import Walk.

(** ** Concrete documents and worlds used below *)

Module Examples.

Definition panel_attrs (pid : string) : list (string * attr_value) :=
  [("class", AList ["dfn-panel"]); ("id", AStr pid)].

Definition marker_attrs : list (string * attr_value) :=
  [("class", AList ["marker"; "dfn-exported"])].

Definition self_link_attrs : list (string * attr_value) :=
  [("class", AList ["self-link"])].

(** [<div class="dfn-panel" id="dfn-panel-for-dfn-x"></div>] *)
Definition bare_panel : list node :=
  [Tag 1 "div" (panel_attrs "dfn-panel-for-dfn-x") []].

(** A file with one CR LF line ending. *)
Definition crlf_html : string :=
  "<p>x</p>" +:+ String cr (String PyStr.newline "").

Definition lf_html : string := "<p>x</p>" +:+ String PyStr.newline "".

Definition crlf_world : world :=
  {| files := {[ "name.html" := crlf_html ]}; read_only := ∅; trace := [] |}.

Definition bare_panel_world : world :=
  {| files := {[ "Overview.html" :=
                 "<div class=dfn-panel id=dfn-panel-for-dfn-x></div>" ]};
     read_only := ∅; trace := [] |}.

(** [<dfn id=""></dfn>] *)
Definition dfn_empty_id : list node := [Tag 1 "dfn" [("id", AStr "")] []].

(** Two definitions with the same id, the second one exported. *)
Definition dfn_twice : list node :=
  [Tag 1 "dfn" [("id", AStr "dfn-x")] [];
   Tag 2 "dfn" [("id", AStr "dfn-x"); ("class", AList ["export"])] []].

(** A panel whose identifier does not match, around one that does:
    [<div class="dfn-panel" id="random-widget"><div class="dfn-panel"
    id="dfn-panel-for-dfn-x"><div></div></div></div>] *)
Definition inner_panel : node :=
  Tag 2 "div" (panel_attrs "dfn-panel-for-dfn-x") [Tag 3 "div" [] []].

Definition outer_panel : node :=
  Tag 1 "div" (panel_attrs "random-widget") [inner_panel].

Definition nested_panels : list node := [outer_panel].

(** A panel whose identifier does not match, next to one that does. *)
Definition widget : node :=
  Tag 1 "div" (panel_attrs "random-widget")
    [Tag 4 "a" self_link_attrs [NavigableString Text "old"]].

Definition side_by_side : list node := [widget; inner_panel].

(** Scenario 1 of the specification: an exported definition and its
    panel, which has neither anchor nor marker. *)
Definition dfn_claims (cls : list string) : node :=
  Tag 1 "dfn" [("id", AStr "dfn-claims"); ("class", AList cls)]
    [NavigableString Text "claims"].

Definition scenario1 : list node :=
  [dfn_claims ["export"];
   Tag 2 "div" (panel_attrs "dfn-panel-for-dfn-claims") [Tag 3 "div" [] []]].

Definition scenario1_panel : node :=
  Tag 2 "div" (panel_attrs "dfn-panel-for-dfn-claims") [Tag 3 "div" [] []].

(** A definition that is not exported, and its panel with two stale
    markers. *)
Definition two_markers_panel : node :=
  Tag 2 "div" (panel_attrs "dfn-panel-for-dfn-claims")
    [Tag 3 "a" self_link_attrs [NavigableString Text "Permalink"];
     Tag 4 "span" marker_attrs [NavigableString Text "exported"];
     Tag 5 "span" marker_attrs [NavigableString Text "exported"]].

Definition two_markers : list node := [dfn_claims []; two_markers_panel].

(** A panel with two permalink anchors. *)
Definition two_anchors_panel : node :=
  Tag 2 "div" (panel_attrs "dfn-panel-for-dfn-claims")
    [Tag 3 "a" self_link_attrs [NavigableString Text "Permalink"];
     Tag 4 "a" self_link_attrs [NavigableString Text "Permalink"]].

Definition two_anchors : list node := [dfn_claims []; two_anchors_panel].

(** The panel of scenario 1 once its anchor (reference 4) is there, and
    what lines 62 to 76 make of it. *)
Definition scenario1_anchored : list node :=
  [Tag 3 "div" [] [update_anchor "dfn-claims" (new_anchor 4)]].

Definition scenario1_marked : effect :=
  {| e_panel :=
       Tag 2 "div" (panel_attrs "dfn-panel-for-dfn-claims")
         [Tag 3 "div" []
            [update_anchor "dfn-claims" (new_anchor 4); new_marker 5]];
     e_orphans := []; e_dead := []; e_fresh := 6 |}.

(** Two matched panels without definitions, the inner one with two
    stale markers among its children. *)
Definition inner_two_markers : node :=
  Tag 3 "div" (panel_attrs "dfn-panel-for-dfn-p")
    [Tag 4 "a" self_link_attrs [NavigableString Text "Permalink"];
     Tag 5 "span" marker_attrs [NavigableString Text "exported"];
     Tag 6 "span" marker_attrs [NavigableString Text "exported"]].

Definition nested_two_markers : list node :=
  [Tag 1 "div" (panel_attrs "dfn-panel-for-dfn-r")
     [Tag 2 "a" self_link_attrs [NavigableString Text "Permalink"];
      inner_two_markers]].

(** Scenario 1 after the transform. *)
Definition scenario1_done : list node :=
  [dfn_claims ["export"];
   Tag 2 "div" (panel_attrs "dfn-panel-for-dfn-claims")
     [Tag 3 "div" []
        [update_anchor "dfn-claims" (new_anchor 4); new_marker 5]]].

(** An exported definition enclosed in the anchor of its own panel. *)
Definition dfn_in_anchor : list node :=
  [Tag 1 "div" (panel_attrs "dfn-panel-for-dfn-claims")
     [Tag 2 "div" []
        [Tag 3 "a" self_link_attrs
           [Tag 4 "dfn" [("id", AStr "dfn-claims"); ("class", AList ["export"])]
              []]]]].

(** A stale marker that encloses the anchor of its panel. *)
Definition anchor_in_marker_panel : node :=
  Tag 1 "div" (panel_attrs "dfn-panel-for-dfn-claims")
    [Tag 2 "span" marker_attrs [Tag 3 "a" self_link_attrs []];
     Tag 4 "div" [] []].

Definition anchor_in_marker : list node := [anchor_in_marker_panel].

(** An exported definition [dfn-r]; its panel, without an anchor of its
    own, around the panel of a definition that does not exist. *)
Definition exported_around_stale_panel : node :=
  Tag 2 "div" (panel_attrs "dfn-panel-for-dfn-r")
    [Tag 3 "div" (panel_attrs "dfn-panel-for-dfn-p") [Tag 4 "div" [] []]].

Definition exported_around_stale : list node :=
  [Tag 1 "dfn" [("id", AStr "dfn-r"); ("class", AList ["export"])] [];
   exported_around_stale_panel].

Definition dfn_claims_index : gmap string dfn_ref :=
  {[ "dfn-claims" := (1, [("id", AStr "dfn-claims"); ("class", AList ["export"])]) ]}.

Definition dfn_twice_index : gmap string dfn_ref :=
  {[ "dfn-x" := (2, [("id", AStr "dfn-x"); ("class", AList ["export"])]) ]}.

(** A definition that is not exported; its panel with a stale marker
    next to the anchor inside the inner [div], and two more stale
    markers among the panel's children; and the document after the
    loop. *)
Definition deep_marker_panel : node :=
  Tag 2 "div" (panel_attrs "dfn-panel-for-dfn-claims")
    [Tag 3 "div" []
       [Tag 4 "a" self_link_attrs [NavigableString Text "Permalink"];
        Tag 5 "span" marker_attrs [NavigableString Text "exported"]];
     Tag 6 "span" marker_attrs [NavigableString Text "exported"];
     Tag 7 "span" marker_attrs [NavigableString Text "exported"]].

Definition deep_marker : list node := [dfn_claims []; deep_marker_panel].

Definition deep_marker_done : list node :=
  [dfn_claims [];
   Tag 2 "div" (panel_attrs "dfn-panel-for-dfn-claims")
     [Tag 3 "div" []
        [update_anchor "dfn-claims"
           (Tag 4 "a" self_link_attrs [NavigableString Text "Permalink"])];
      Tag 6 "span" marker_attrs [NavigableString Text "exported"];
      Tag 7 "span" marker_attrs [NavigableString Text "exported"]]].

(** Panels without a definition: one with a stale marker inside its
    anchor and one after it; one whose first stale marker encloses
    another one. *)
Definition marker_in_anchor_panel : node :=
  Tag 1 "div" (panel_attrs "dfn-panel-for-dfn-claims")
    [Tag 2 "a" self_link_attrs
       [Tag 3 "span" marker_attrs [NavigableString Text "exported"]];
     Tag 4 "span" marker_attrs [NavigableString Text "exported"]].

Definition marker_in_marker_panel : node :=
  Tag 1 "div" (panel_attrs "dfn-panel-for-dfn-claims")
    [Tag 2 "a" self_link_attrs [NavigableString Text "Permalink"];
     Tag 3 "span" marker_attrs
       [Tag 4 "span" marker_attrs [NavigableString Text "exported"]];
     Tag 5 "span" marker_attrs [NavigableString Text "exported"]].


(** A file with LF line endings only. *)
Definition lf_world : world :=
  {| files := {[ "name.html" := lf_html ]}; read_only := ∅; trace := [] |}.

(** Panels whose identifiers do not match, one inside the other. *)
Definition nested_widgets : list node :=
  [Tag 1 "div" (panel_attrs "random-widget")
     [Tag 2 "div" (panel_attrs "dfn-panel-for-")
        [Tag 3 "span" marker_attrs []]]].

End Examples.

(** * Properties *)

(** ** The command line *)

Section MainProofs.

Variable parse : string -> result (list node).
Variable serialize : list node -> string.
Variable linesep : string.

Local Abbreviation process_all := (Files.process_all parse serialize linesep).
Local Abbreviation process_file := (Files.process_file parse serialize linesep).
Local Abbreviation main := (Files.main parse serialize linesep).

Local Abbreviation processed := (Spec.processed parse serialize linesep).
Local Abbreviation usage :=
  "Usage: rewrite_permalinks.py file1.html [file2.html ...]".

Lemma process_all_app (fs1 fs2 : list string) (w : world) :
  process_all (fs1 ++ fs2) w =
  match process_all fs1 w with
  | (w1, Finished) => process_all fs2 w1
  | r => r
  end.
Proof.
  revert w. induction fs1 as [|f fs1 IH]; intros w; simpl.
  - reflexivity.
  - simpl.
    destruct (Files.process_file parse serialize linesep (Path f) w)
      as [w1 [[]|e]].
    + apply IH.
    + reflexivity.
Qed.

Lemma process_all_processed (fs : list string) (w w' : world) :
  processed fs w w' -> process_all fs w = (w', Finished).
Proof.
  induction 1 as [w|f fs w w1 w2 Hf _ IH]; [reflexivity|].
  cbn [Files.process_all]. by rewrite Hf.
Qed.

Lemma process_all_cases (fs : list string) (w : world) :
  (exists w', processed fs w w' /\ process_all fs w = (w', Finished))
  \/ (exists before f later w1 w2 e,
        fs = before ++ f :: later
        /\ processed before w w1
        /\ process_file (Path f) w1 = (w2, Raise e)
        /\ process_all fs w = (w2, Uncaught e)).
Proof.
  revert w. induction fs as [|f fs IH]; intros w.
  - left. exists w. split; [constructor|reflexivity].
  - cbn [Files.process_all].
    destruct (Files.process_file parse serialize linesep (Path f) w)
      as [w1 [[]|e]] eqn:Hf.
    + destruct (IH w1) as [(w' & Hp & Hr)
        |(before & g & later & w2 & w3 & e & -> & Hp & Hg & Hr)].
      * left. exists w'. split; [by econstructor|done].
      * right. exists (f :: before), g, later, w2, w3, e.
        split; [reflexivity|]. split; [by econstructor|]. by split.
    + right. exists [], f, fs, w, w1, e.
      split; [reflexivity|]. split; [constructor|]. by split.
Qed.

(** C9. With fewer than two entries in [sys.argv] the program prints the
    usage line and exits with code 2, and that line is all it does: no
    file changes, nothing else is recorded. With file arguments:
    if each file, taken in argument order and started in the world the
    previous one left, is processed without an exception, the run
    finishes in the world the last one leaves; if the files [before]
    are processed so and the next one, [f], raises, the run ends with
    that exception in the world [f] left, whatever files follow [f];
    and every run with file arguments is one of these two. *)
Theorem C9_main_usage_order_abort :
  (forall argv w, length argv < 2 ->
     main argv w = (print usage w, Exit 2)
     /\ files (fst (main argv w)) = files w
     /\ trace (fst (main argv w)) = trace w ++ [EPrint usage])
  /\ (forall prog fs w w', fs <> [] ->
       processed fs w w' -> main (prog :: fs) w = (w', Finished))
  /\ (forall prog before f later w w1 w2 e,
       processed before w w1 ->
       process_file (Path f) w1 = (w2, Raise e) ->
       main (prog :: before ++ f :: later) w = (w2, Uncaught e))
  /\ (forall prog fs w, fs <> [] ->
       (exists w', processed fs w w' /\ main (prog :: fs) w = (w', Finished))
       \/ (exists before f later w1 w2 e,
             fs = before ++ f :: later
             /\ processed before w w1
             /\ process_file (Path f) w1 = (w2, Raise e)
             /\ main (prog :: fs) w = (w2, Uncaught e))).
Proof.
  assert (Hmain : forall prog fs w, fs <> [] ->
            main (prog :: fs) w = process_all fs w).
  { intros prog [|f fs] w Hne; [done|]. reflexivity. }
  split; [|split; [|split]].
  - intros argv w Hl. unfold Files.main.
    destruct (Nat.ltb_spec (length argv) 2) as [_|Hge]; [|lia].
    by split.
  - intros prog fs w w' Hne Hp. rewrite Hmain by done.
    by apply process_all_processed.
  - intros prog before f later w w1 w2 e Hp Hf.
    rewrite Hmain by (by destruct before).
    rewrite process_all_app, (process_all_processed _ _ _ Hp).
    cbn [Files.process_all]. by rewrite Hf.
  - intros prog fs w Hne. rewrite Hmain by done. apply process_all_cases.
Qed.

End MainProofs.

Lemma C9_main_usage_order_abort_witness :
  Files.main (fun _ => Ok []) (fun _ => "") (String PyStr.newline "")
    ["rewrite_permalinks.py"; "./name.html"; "absent.html"; "name.html"]
    Examples.lf_world
  = (fst (Files.process_file (fun _ => Ok []) (fun _ => "")
            (String PyStr.newline "") "name.html" Examples.lf_world),
     Uncaught FileNotFoundError).
Proof.
  refine (proj1 (proj2 (proj2 (C9_main_usage_order_abort (fun _ => Ok [])
                                 (fun _ => "") (String PyStr.newline ""))))
            "rewrite_permalinks.py" ["./name.html"] "absent.html" ["name.html"]
            Examples.lf_world _ _ FileNotFoundError _ _).
  - eapply processed_cons; [|apply processed_nil]. vm_compute. reflexivity.
  - vm_compute. reflexivity.
Defined.


(** ** Failures of the loop body *)

(** C7. A matched panel with neither a permalink anchor nor a [div] below
    it makes the loop body fail: [panel.div] is [None] and
    [panel.div.insert] raises AttributeError, for a document that was
    read and parsed without error; nothing is written. *)
Theorem C7_bare_panel_raises :
  (forall p_name, transform p_name Examples.bare_panel = Raise AttributeError)
  /\ (forall serialize linesep,
        process_file (fun _ => Ok Examples.bare_panel) serialize linesep
          "Overview.html" Examples.bare_panel_world
        = (Examples.bare_panel_world, Raise AttributeError)).
Proof.
  split.
  - intros p_name. reflexivity.
  - intros serialize linesep. unfold process_file, read_text.
    unfold Examples.bare_panel_world at 1. cbn [files].
    rewrite lookup_singleton_eq. reflexivity.
Qed.

(** ** The backup *)

(** C5. On a system whose line separator is LF, the backup of a file with
    a CR LF line ending does not hold the original bytes: the text was
    read with universal newlines, so the backup has LF instead. *)
Theorem C5_backup_loses_carriage_returns :
  (forall parse serialize,
      files (fst (process_file parse serialize (String PyStr.newline "")
                    "name.html" Examples.crlf_world))
        !! "name.html.bak" <> Some Examples.crlf_html)
  /\ (forall serialize,
      files (fst (process_file (fun _ => Ok []) serialize (String PyStr.newline "")
                    "name.html" Examples.crlf_world))
        !! "name.html.bak" = Some Examples.lf_html).
Proof.
  split.
  - intros parse serialize. unfold process_file, read_text.
    unfold Examples.crlf_world at 1. cbn [files].
    rewrite lookup_singleton_eq.
    change (utf8_valid Examples.crlf_html) with true. cbv iota.
    destruct (parse _) as [soup0|e]; [|by cbn].
    destruct (transform _ soup0) as [soup1|e]; [|by cbn].
    change (with_suffix "name.html" (suffix "name.html" +:+ ".bak"))
      with (Ok (A:=string) "name.html.bak").
    cbv iota. unfold write_text.
    rewrite bool_decide_eq_false_2 by (cbn; set_solver).
    change (utf8_valid (universal_newlines Examples.crlf_html)) with true.
    cbv iota. rewrite bool_decide_eq_false_2 by (cbn; set_solver).
    assert (Hne : forall b : string,
              Some (write_newlines (String PyStr.newline "")
                      (universal_newlines Examples.crlf_html)) <> Some b
              \/ b <> Examples.crlf_html).
    { intros b. destruct (decide (b = Examples.crlf_html)) as [->|]; [|by right].
      left. intros H.
      apply (f_equal (fun o => match o with
                               | Some x => String.length x
                               | None => 0
                               end)) in H.
      vm_compute in H. discriminate. }
    destruct (utf8_valid (serialize soup1)); cbn [fst files print read_only];
      (rewrite lookup_insert_ne by done); rewrite lookup_insert_eq;
      intros H; by destruct (Hne Examples.crlf_html).
  - intros serialize. unfold process_file, read_text.
    unfold Examples.crlf_world at 1. cbn [files].
    rewrite lookup_singleton_eq.
    change (utf8_valid Examples.crlf_html) with true. cbv iota.
    change (transform (name "name.html") []) with (Ok (A:=list node) []).
    change (with_suffix "name.html" (suffix "name.html" +:+ ".bak"))
      with (Ok (A:=string) "name.html.bak").
    cbv iota. unfold write_text.
    rewrite bool_decide_eq_false_2 by (cbn; set_solver).
    change (utf8_valid (universal_newlines Examples.crlf_html)) with true.
    cbv iota. rewrite bool_decide_eq_false_2 by (cbn; set_solver).
    destruct (utf8_valid (serialize [])); cbn [fst files print read_only];
      (rewrite lookup_insert_ne by done); rewrite lookup_insert_eq;
      f_equal.
Qed.


(** ** The definition index *)

Lemma foldl_dfn_map_add_raise (l : list node) (e : exn) :
  foldl dfn_map_add (Raise e) l = Raise e.
Proof. induction l as [|t l IH]; simpl; auto. Qed.

Lemma foldl_dfn_map_add_lookup (l : list node) :
  forall (acc m : gmap string dfn_ref),
    foldl dfn_map_add (Ok acc) l = Ok m ->
    forall k, m !! k =
      if PyStr.truthy k then
        match last (List.filter (has_id k) l) with
        | Some t => Some (ref_of t)
        | None => acc !! k
        end
      else acc !! k.
Proof.
  induction l as [|t l IH]; intros acc m Hf k; cbn [foldl] in Hf.
  - injection Hf as <-. simpl. by destruct (PyStr.truthy k).
  - assert (Hstep : forall acc',
        dfn_map_add (Ok acc) t = Ok acc' ->
        (acc' !! k = if PyStr.truthy k && has_id k t
                     then Some (ref_of t) else acc !! k)).
    { intros acc'. unfold dfn_map_add, has_id. cbn.
      destruct (get "id" t) as [[s|[|x xs]]|] eqn:Hid;
        try (intros [= <-]; by rewrite ?andb_false_r); try discriminate.
      destruct (PyStr.truthy s) eqn:Hs; intros [= <-].
      - destruct (String.eqb_spec s k) as [->|Hne].
        + rewrite Hs. cbn. apply lookup_insert_eq.
        + rewrite andb_false_r. by apply lookup_insert_ne.
      - destruct (String.eqb_spec s k) as [->|Hne].
        + by rewrite Hs.
        + by rewrite andb_false_r. }
    destruct (dfn_map_add (Ok acc) t) as [acc'|e] eqn:Hadd.
    2:{ rewrite foldl_dfn_map_add_raise in Hf. discriminate. }
    rewrite (IH _ _ Hf k). specialize (Hstep acc' eq_refl).
    simpl. destruct (PyStr.truthy k) eqn:Hk; cbn in Hstep.
    + destruct (has_id k t) eqn:Ht.
      * simpl. destruct (List.filter (has_id k) l) as [|t' l'] eqn:Hfl.
        -- by rewrite Hstep.
        -- rewrite (last_cons t (t' :: l')), !(last_cons t' l').
           by destruct (last l').
      * by rewrite Hstep.
    + exact Hstep.
Qed.

(** C8 (as amended). When the index can be built, its keys are exactly
    the non-empty identifiers present on [dfn] elements, and each key is
    mapped to the last [dfn] element, in document order, that carries it. *)
Theorem C8_dfn_map_keys_and_last_wins (soup : list node)
    (m : gmap string dfn_ref) :
  build_dfn_map soup = Ok m ->
  forall k, m !! k =
    if PyStr.truthy k
    then ref_of <$> last (List.filter (has_id k) (find_all (name_is "dfn") soup))
    else None.
Proof.
  intros Hb k. unfold build_dfn_map in Hb.
  rewrite (foldl_dfn_map_add_lookup _ _ _ Hb k).
  destruct (PyStr.truthy k); [|apply lookup_empty].
  destruct (last _); [done|apply lookup_empty].
Qed.

Lemma C8_dfn_map_keys_and_last_wins_witness :
  build_dfn_map Examples.dfn_twice = Ok Examples.dfn_twice_index
  /\ Examples.dfn_twice_index !! "dfn-x" =
     if PyStr.truthy "dfn-x"
     then ref_of <$> last (List.filter (has_id "dfn-x")
                             (find_all (name_is "dfn") Examples.dfn_twice))
     else None.
Proof.
  assert (Hb : build_dfn_map Examples.dfn_twice = Ok Examples.dfn_twice_index).
  { vm_compute. reflexivity. }
  split; [exact Hb|].
  exact (C8_dfn_map_keys_and_last_wins _ _ Hb "dfn-x").
Defined.

(** C8 as stated fails: the empty identifier is present on a [dfn]
    element of this document and is not a key of its index. *)
Lemma C8_empty_id_is_not_a_key :
  exists m, build_dfn_map Examples.dfn_empty_id = Ok m
    /\ ~ (forall k, is_Some (m !! k) <->
            exists t, In t (find_all (name_is "dfn") Examples.dfn_empty_id)
                      /\ get "id" t = Some (AStr k)).
Proof.
  exists ∅. split; [reflexivity|].
  intros H. destruct (H "") as [_ Hk].
  destruct Hk as [x Hx].
  - exists (Tag 1 "dfn" [("id", AStr "")] []). split; [by left|reflexivity].
  - by rewrite lookup_empty in Hx.
Qed.

(** ** The tree: searching and editing by reference *)

Section ListFacts.

Context {A : Type}.

Lemma list_find_app (p : A -> bool) (l1 l2 : list A) :
  List.find p (l1 ++ l2) =
  match List.find p l1 with Some x => Some x | None => List.find p l2 end.
Proof.
  induction l1 as [|x l1 IH]; cbn; [reflexivity|].
  destruct (p x); [reflexivity|exact IH].
Qed.

Lemma list_find_none_filter (p : A -> bool) (l : list A) :
  List.find p l = None <-> List.filter p l = [].
Proof.
  induction l as [|x l IH]; cbn; [done|].
  destruct (p x); [split; discriminate|exact IH].
Qed.

Lemma list_find_head_filter (p : A -> bool) (l : list A) :
  List.find p l = head (List.filter p l).
Proof.
  induction l as [|x l IH]; cbn; [done|].
  destruct (p x); [reflexivity|exact IH].
Qed.

Lemma list_find_map (p : A -> bool) (g : A -> A) (l : list A) :
  (forall x, p (g x) = p x) ->
  List.find p (List.map g l) = g <$> List.find p l.
Proof.
  intros Hp. induction l as [|x l IH]; cbn; [done|].
  rewrite Hp. destruct (p x); [reflexivity|exact IH].
Qed.

Lemma list_filter_map (p : A -> bool) (g : A -> A) (l : list A) :
  (forall x, p (g x) = p x) ->
  List.filter p (List.map g l) = List.map g (List.filter p l).
Proof.
  intros Hp. induction l as [|x l IH]; cbn; [done|].
  rewrite Hp. destruct (p x); cbn; by rewrite IH.
Qed.

End ListFacts.

Ltac norm_app :=
  repeat first [rewrite <- app_assoc | rewrite <- app_comm_cons].

Section TreeFacts.

(** Induction on a forest: on the children of its first tag and on the
    rest. *)
Lemma forest_ind (P : list node -> Prop) :
  P [] ->
  (forall k s rest, P rest -> P (NavigableString k s :: rest)) ->
  (forall u nm a cc rest, P cc -> P rest -> P (Tag u nm a cc :: rest)) ->
  forall cs, P cs.
Proof.
  intros Hnil Hstr Htag.
  refine (fix go_forest (cs : list node) : P cs :=
            match cs with
            | [] => Hnil
            | c :: rest => _
            end).
  pose proof (go_forest rest) as Hrest.
  revert Hrest. generalize rest. clear rest.
  refine ((fix go_node (n : node) : forall rest, P rest -> P (n :: rest) :=
             match n with
             | Tag u nm a cc => fun rest Hrest => Htag u nm a cc rest _ Hrest
             | NavigableString k s => fun rest Hrest => Hstr k s rest Hrest
             end) c).
  clear Hrest rest.
  induction cc as [|c' cc' IH]; [exact Hnil|].
  exact (go_node c' cc' IH).
Qed.

Lemma descendants_of_app (l1 l2 : list node) :
  descendants_of (l1 ++ l2) = descendants_of l1 ++ descendants_of l2.
Proof. unfold descendants_of. apply flat_map_app. Qed.

Lemma descendants_of_tag u nm a cc rest :
  descendants_of (Tag u nm a cc :: rest)
  = Tag u nm a cc :: descendants_of cc ++ descendants_of rest.
Proof. reflexivity. Qed.

Lemma descendants_of_string k s rest :
  descendants_of (NavigableString k s :: rest)
  = NavigableString k s :: descendants_of rest.
Proof. reflexivity. Qed.

Lemma uids_app (l1 l2 : list node) : uids (l1 ++ l2) = uids l1 ++ uids l2.
Proof. unfold uids. rewrite descendants_of_app. apply omap_app. Qed.

Lemma uids_tag u nm a cc rest :
  uids (Tag u nm a cc :: rest) = u :: uids cc ++ uids rest.
Proof.
  unfold uids. rewrite descendants_of_tag. cbn. by rewrite omap_app.
Qed.

Lemma uids_string k s rest : uids (NavigableString k s :: rest) = uids rest.
Proof. reflexivity. Qed.

Lemma subst_in_app u f (l1 l2 : list node) :
  subst_in u f (l1 ++ l2) = subst_in u f l1 ++ subst_in u f l2.
Proof. unfold subst_in. apply flat_map_app. Qed.

Lemma subst_in_tag_ne u f v nm a cc rest :
  v <> u ->
  subst_in u f (Tag v nm a cc :: rest)
  = Tag v nm a (subst_in u f cc) :: subst_in u f rest.
Proof.
  intros Hne. unfold subst_in. cbn.
  destruct (Nat.eqb_spec v u); [contradiction|reflexivity].
Qed.

Lemma subst_in_tag_eq u f nm a cc rest :
  subst_in u f (Tag u nm a cc :: rest) = f (Tag u nm a cc) ++ subst_in u f rest.
Proof. unfold subst_in. cbn. by rewrite Nat.eqb_refl. Qed.

(** Editing a tag that is not there changes nothing. *)
Lemma subst_in_notin u f (cs : list node) :
  u ∉ uids cs -> subst_in u f cs = cs.
Proof.
  induction cs as [|k s rest IH|v nm a cc rest IHcc IH] using forest_ind;
    intros Hn.
  - reflexivity.
  - unfold subst_in in *. cbn. f_equal. apply IH. exact Hn.
  - rewrite uids_tag in Hn.
    apply not_elem_of_cons in Hn as [Hv Hn].
    apply not_elem_of_app in Hn as [Hcc Hrest].
    rewrite subst_in_tag_ne by congruence.
    by rewrite IHcc, IH.
Qed.

Lemma edit_notin u f (n : node) : u ∉ uids (contents n) -> edit u f n = n.
Proof.
  destruct n as [v nm a cc|k s]; [|reflexivity].
  intros Hn. cbn in *. by rewrite subst_in_notin.
Qed.

Lemma deref_app u (l1 l2 : list node) :
  deref u (l1 ++ l2) =
  match deref u l1 with Some t => Some t | None => deref u l2 end.
Proof. unfold deref. rewrite descendants_of_app. apply list_find_app. Qed.

Lemma deref_notin u (cs : list node) : u ∉ uids cs -> deref u cs = None.
Proof.
  unfold deref, uids. intros Hn.
  induction (descendants_of cs) as [|n l IH]; [reflexivity|].
  cbn in *. destruct n as [v nm a cc|k s]; cbn in *.
  - apply not_elem_of_cons in Hn as [Hv Hn].
    rewrite bool_decide_eq_false_2 by congruence. by apply IH.
  - by apply IH.
Qed.

Lemma deref_tag_eq u nm a cc rest :
  deref u (Tag u nm a cc :: rest) = Some (Tag u nm a cc).
Proof. unfold deref. cbn. by rewrite bool_decide_eq_true_2. Qed.

Lemma deref_tag_ne u v nm a cc rest :
  v <> u ->
  deref u (Tag v nm a cc :: rest) = deref u (cc ++ rest).
Proof.
  intros Hne. unfold deref. rewrite descendants_of_tag, descendants_of_app.
  cbn. rewrite bool_decide_eq_false_2 by congruence. reflexivity.
Qed.

Lemma deref_uid u (cs : list node) t : deref u cs = Some t -> tag_uid t = Some u.
Proof.
  unfold deref. intros H. apply find_some in H as [_ H].
  by apply bool_decide_eq_true in H.
Qed.

Lemma deref_in u (cs : list node) t : deref u cs = Some t -> u ∈ uids cs.
Proof.
  intros H. destruct (decide (u ∈ uids cs)) as [|Hn]; [done|].
  by rewrite deref_notin in H.
Qed.

Lemma uids_contents_subset (cs : list node) :
  forall n, n ∈ descendants_of cs -> uids (contents n) ⊆ uids cs.
Proof.
  induction cs as [|k s rest IH|v nm a cc rest IHcc IH] using forest_ind;
    intros n Hn.
  - by apply elem_of_nil in Hn.
  - rewrite descendants_of_string in Hn. rewrite uids_string.
    apply elem_of_cons in Hn as [->|Hn]; [cbn; set_solver|by apply IH].
  - rewrite descendants_of_tag in Hn. rewrite uids_tag.
    apply elem_of_cons in Hn as [->|Hn]; [cbn; set_solver|].
    apply elem_of_app in Hn as [Hn|Hn].
    + specialize (IHcc n Hn). intros y Hy. apply elem_of_cons. right.
      apply elem_of_app. left. by apply IHcc.
    + specialize (IH n Hn). intros y Hy. apply elem_of_cons. right.
      apply elem_of_app. right. by apply IH.
Qed.

Lemma map_edit_notin u f (cs : list node) :
  u ∉ uids cs ->
  List.map (edit u f) (descendants_of cs) = descendants_of cs.
Proof.
  intros Hn. rewrite <- (map_id (descendants_of cs)) at 2.
  apply map_ext_in. intros n Hin. apply edit_notin.
  intros Hu. apply Hn. eapply uids_contents_subset; [|exact Hu].
  by apply list_elem_of_In.
Qed.

Lemma edit_tag u f v nm a cc :
  edit u f (Tag v nm a cc) = Tag v nm a (subst_in u f cc).
Proof. reflexivity. Qed.

(** The document order of a forest in which the tag [u] is replaced:
    what precedes the tag (its ancestors have new contents), the
    replacement, what follows. *)
Lemma subst_in_split u (cs : list node) :
  forall t, NoDup (uids cs) -> deref u cs = Some t ->
  exists pre post,
    descendants_of cs = pre ++ t :: descendants_of (contents t) ++ post
    /\ (u ∉ omap tag_uid pre)
    /\ (forall n, n ∈ post -> u ∉ uids (contents n))
    /\ (forall f, descendants_of (subst_in u f cs)
                 = List.map (edit u f) pre ++ descendants_of (f t) ++ post).
Proof.
  induction cs as [|k s rest IH|v nm a cc rest IHcc IH] using forest_ind;
    intros t Hnd Hd.
  - discriminate.
  - rewrite uids_string in Hnd.
    change (deref u rest = Some t) in Hd.
    destruct (IH t Hnd Hd) as (pre & post & Hsp & Hpre & Hpost & Hsub).
    exists (NavigableString k s :: pre), post. split; [|split; [|split]].
    + rewrite descendants_of_string, Hsp. reflexivity.
    + exact Hpre.
    + exact Hpost.
    + intros f. change (subst_in u f (NavigableString k s :: rest))
        with (NavigableString k s :: subst_in u f rest).
      rewrite descendants_of_string, Hsub. reflexivity.
  - rewrite uids_tag in Hnd. apply NoDup_cons in Hnd as [Hv Hnd].
    apply NoDup_app in Hnd as (Hndcc & Hdisj & Hndrest).
    assert (Hrest : u ∉ uids rest ->
              forall n, n ∈ descendants_of rest -> u ∉ uids (contents n)).
    { intros Hn n Hin Hu. apply Hn. by eapply uids_contents_subset. }
    destruct (decide (v = u)) as [->|Hne].
    + rewrite deref_tag_eq in Hd. injection Hd as <-.
      assert (Hur : u ∉ uids rest).
      { intros Hin. apply Hv. apply elem_of_app. by right. }
      exists [], (descendants_of rest). split; [|split; [|split]].
      * reflexivity.
      * cbn. apply not_elem_of_nil.
      * by apply Hrest.
      * intros f. rewrite subst_in_tag_eq, descendants_of_app.
        by rewrite (subst_in_notin u f rest).
    + rewrite deref_tag_ne, deref_app in Hd by done.
      destruct (deref u cc) as [t'|] eqn:Hdcc.
      * injection Hd as ->.
        destruct (IHcc t Hndcc eq_refl)
          as (pre & post & Hsp & Hpre & Hpost & Hsub).
        assert (Hur : u ∉ uids rest).
        { intros Hin. eapply Hdisj; [|exact Hin]. by eapply deref_in. }
        exists (Tag v nm a cc :: pre), (post ++ descendants_of rest).
        split; [|split; [|split]].
        -- rewrite descendants_of_tag, Hsp.
           cbn. norm_app. reflexivity.
        -- cbn. apply not_elem_of_cons. split; [congruence|exact Hpre].
        -- intros n Hin. apply elem_of_app in Hin as [Hin|Hin];
             [by apply Hpost|by apply Hrest].
        -- intros f. rewrite subst_in_tag_ne by done.
           rewrite descendants_of_tag, Hsub.
           rewrite (subst_in_notin u f rest) by done.
           cbn. norm_app. reflexivity.
      * destruct (IH t Hndrest Hd) as (pre & post & Hsp & Hpre & Hpost & Hsub).
        assert (Hucc : u ∉ uids cc).
        { intros Hin. eapply Hdisj; [exact Hin|]. by eapply deref_in. }
        exists (Tag v nm a cc :: descendants_of cc ++ pre), post.
        split; [|split; [|split]].
        -- rewrite descendants_of_tag, Hsp.
           cbn. norm_app. reflexivity.
        -- cbn. apply not_elem_of_cons. split; [congruence|].
           rewrite omap_app. apply not_elem_of_app. split; [exact Hucc|exact Hpre].
        -- exact Hpost.
        -- intros f. rewrite subst_in_tag_ne by done.
           rewrite descendants_of_tag, Hsub.
           rewrite (subst_in_notin u f cc) by done.
           cbn. rewrite List.map_app, map_edit_notin by done.
           rewrite (subst_in_notin u f cc) by done.
           norm_app. reflexivity.
Qed.

Lemma on_head_edit p u f n : on_head p -> p (edit u f n) = p n.
Proof. intros Hp. destruct n; [apply Hp|reflexivity]. Qed.

Lemma tag_uid_edit u f n : tag_uid (edit u f n) = tag_uid n.
Proof. by destruct n. Qed.

Lemma omap_tag_uid_map_edit u f (l : list node) :
  omap tag_uid (List.map (edit u f) l) = omap tag_uid l.
Proof.
  induction l as [|n l IH]; [done|].
  cbn. rewrite tag_uid_edit, IH. reflexivity.
Qed.

Lemma find_by_uid (l : list node) t u :
  NoDup (omap tag_uid l) -> t ∈ l -> tag_uid t = Some u ->
  List.find (fun n => bool_decide (tag_uid n = Some u)) l = Some t.
Proof.
  induction l as [|n l IH]; intros Hnd Hin Hu.
  - by apply elem_of_nil in Hin.
  - cbn. destruct (decide (tag_uid n = Some u)) as [Hn|Hn].
    + rewrite bool_decide_eq_true_2 by done. f_equal.
      apply elem_of_cons in Hin as [->|Hin]; [done|].
      cbn in Hnd. rewrite Hn in Hnd. apply NoDup_cons in Hnd as [Hnin _].
      exfalso. apply Hnin. apply list_elem_of_omap. by exists t.
    + rewrite bool_decide_eq_false_2 by done.
      apply elem_of_cons in Hin as [->|Hin]; [congruence|].
      apply IH; [|done..].
      cbn in Hnd. destruct (tag_uid n); [by apply NoDup_cons in Hnd as [_ ?]|done].
Qed.

Lemma find_elem_of (p : node -> bool) (cs : list node) t :
  find p cs = Some t -> t ∈ descendants_of cs /\ p t = true.
Proof.
  unfold find. intros H. apply find_some in H as [Hin Hp].
  split; [by apply list_elem_of_In|done].
Qed.

(** The first match of a search, seen as a reference, and the document
    order around it. *)
Lemma find_split (p : node -> bool) (cs : list node) t u :
  NoDup (uids cs) -> find p cs = Some t -> tag_uid t = Some u ->
  exists pre post,
    descendants_of cs = pre ++ t :: descendants_of (contents t) ++ post
    /\ List.find p pre = None
    /\ (u ∉ omap tag_uid pre)
    /\ deref u cs = Some t
    /\ (forall n, n ∈ post -> u ∉ uids (contents n))
    /\ (forall f, descendants_of (subst_in u f cs)
                 = List.map (edit u f) pre ++ descendants_of (f t) ++ post).
Proof.
  intros Hnd Hf Hu.
  destruct (find_elem_of _ _ _ Hf) as [Hin Hp].
  assert (Hd : deref u cs = Some t) by (by apply find_by_uid).
  destruct (subst_in_split u cs t Hnd Hd)
    as (pre & post & Hsp & Hpre & Hpost & Hsub).
  exists pre, post. repeat split; try done.
  unfold find in Hf. rewrite Hsp, list_find_app in Hf.
  destruct (List.find p pre) as [x|] eqn:Hx; [|done].
  injection Hf as ->. apply find_some in Hx as [Hx _].
  exfalso. apply Hpre. apply list_elem_of_omap. exists t.
  split; [by apply list_elem_of_In|done].
Qed.

Lemma uids_subst_in u f (cs : list node) t :
  NoDup (uids cs) -> deref u cs = Some t ->
  exists l1 l2, uids cs = l1 ++ u :: uids (contents t) ++ l2
    /\ uids (subst_in u f cs) = l1 ++ uids (f t) ++ l2.
Proof.
  intros Hnd Hd.
  destruct (subst_in_split u cs t Hnd Hd)
    as (pre & post & Hsp & Hpre & _ & Hsub).
  exists (omap tag_uid pre), (omap tag_uid post). unfold uids. split.
  - rewrite Hsp, omap_app. cbn. rewrite (deref_uid _ _ _ Hd), omap_app.
    reflexivity.
  - rewrite Hsub, !omap_app, omap_tag_uid_map_edit. reflexivity.
Qed.

Lemma find_all_app p (l1 l2 : list node) :
  find_all p (l1 ++ l2) = find_all p l1 ++ find_all p l2.
Proof. unfold find_all. rewrite descendants_of_app. apply List.filter_app. Qed.

(** Counting matches after an edit: those of the replacement stand for
    those of the replaced subtree. *)
Lemma count_subst_in (p : node -> bool) u f (cs : list node) t :
  on_head p -> NoDup (uids cs) -> deref u cs = Some t ->
  length (find_all p (subst_in u f cs)) + length (find_all p [t])
  = length (find_all p cs) + length (find_all p (f t)).
Proof.
  intros Hp Hnd Hd.
  destruct (subst_in_split u cs t Hnd Hd)
    as (pre & post & Hsp & Hpre & _ & Hsub).
  unfold find_all. rewrite Hsub, Hsp.
  change (descendants_of [t]) with (self_and_descendants t ++ []).
  rewrite app_nil_r.
  change (pre ++ t :: descendants_of (contents t) ++ post)
    with (pre ++ (t :: descendants_of (contents t)) ++ post).
  replace (t :: descendants_of (contents t)) with (self_and_descendants t)
    by (by destruct t).
  rewrite !List.filter_app, !length_app, list_filter_map
    by (intros x; by apply on_head_edit).
  rewrite length_map. lia.
Qed.

(** A node that stays in the tree when the tag [u] is replaced. *)
Lemma elem_of_subst_in u f (cs : list node) t n :
  NoDup (uids cs) -> deref u cs = Some t ->
  n ∈ descendants_of cs -> n ∉ self_and_descendants t ->
  edit u f n ∈ descendants_of (subst_in u f cs).
Proof.
  intros Hnd Hd Hin Hnot.
  destruct (subst_in_split u cs t Hnd Hd)
    as (pre & post & Hsp & Hpre & Hpost & Hsub).
  rewrite Hsub. rewrite Hsp in Hin.
  apply elem_of_app in Hin as [Hin|Hin].
  - apply elem_of_app. left. apply list_elem_of_In, in_map.
    by apply list_elem_of_In.
  - apply elem_of_cons in Hin as [->|Hin].
    { exfalso. apply Hnot. destruct t; apply elem_of_cons; by left. }
    apply elem_of_app in Hin as [Hin|Hin].
    { exfalso. apply Hnot. destruct t; [|by apply elem_of_nil in Hin].
      apply elem_of_cons. by right. }
    apply elem_of_app. right. apply elem_of_app. right.
    rewrite edit_notin; [done|by apply Hpost].
Qed.

Lemma uids_single (t : node) :
  uids [t] = match tag_uid t with
             | Some u => u :: uids (contents t)
             | None => []
             end.
Proof.
  destruct t as [u nm a cc|k s]; [|reflexivity].
  rewrite uids_tag. cbn. by rewrite app_nil_r.
Qed.

Lemma deref_uids u (cs : list node) t :
  NoDup (uids cs) -> deref u cs = Some t ->
  NoDup (uids [t]) /\ uids [t] ⊆ uids cs.
Proof.
  intros Hnd Hd.
  destruct (uids_subst_in u (fun _ => []) cs t Hnd Hd) as (l1 & l2 & Hu & _).
  rewrite uids_single, (deref_uid _ _ _ Hd), Hu. split.
  - rewrite Hu in Hnd. apply NoDup_app in Hnd as (_ & _ & Hnd).
    change (u :: uids (contents t) ++ l2)
      with ((u :: uids (contents t)) ++ l2) in Hnd.
    by apply NoDup_app in Hnd as (Hnd & _ & _).
  - intros x Hx. apply elem_of_app. right.
    change (x ∈ (u :: uids (contents t)) ++ l2). apply elem_of_app. by left.
Qed.

(** References stay unique when the replacement brings its own or
    unused ones. *)
Lemma NoDup_subst_in u f (cs : list node) t :
  NoDup (uids cs) -> deref u cs = Some t ->
  NoDup (uids (f t)) ->
  (forall x, x ∈ uids (f t) -> x ∈ uids [t] \/ x ∉ uids cs) ->
  NoDup (uids (subst_in u f cs)).
Proof.
  intros Hnd Hd Hnew Hfrom.
  destruct (uids_subst_in u f cs t Hnd Hd) as (l1 & l2 & Hu & ->).
  rewrite uids_single, (deref_uid _ _ _ Hd) in Hfrom.
  rewrite Hu in Hnd, Hfrom.
  apply NoDup_app in Hnd as (Hl1 & Hd1 & Hnd).
  change (u :: uids (contents t) ++ l2)
    with ((u :: uids (contents t)) ++ l2) in Hnd, Hd1.
  apply NoDup_app in Hnd as (Ht & Hd2 & Hl2).
  apply NoDup_app. split; [done|]. split.
  - intros x Hx1 Hx. apply elem_of_app in Hx as [Hx|Hx].
    + destruct (Hfrom x Hx) as [Hin|Hout].
      * apply (Hd1 x Hx1). apply elem_of_app. by left.
      * apply Hout. apply elem_of_app. by left.
    + apply (Hd1 x Hx1). apply elem_of_app. by right.
  - apply NoDup_app. split; [done|]. split; [|done].
    intros x Hx Hx2. destruct (Hfrom x Hx) as [Hin|Hout].
    + by apply (Hd2 x Hin).
    + apply Hout. apply elem_of_app. right.
      change (x ∈ (u :: uids (contents t)) ++ l2). apply elem_of_app. by right.
Qed.

Lemma elem_of_uids_subst_in u f (cs : list node) t x :
  NoDup (uids cs) -> deref u cs = Some t ->
  x ∈ uids (subst_in u f cs) -> x ∈ uids cs \/ x ∈ uids (f t).
Proof.
  intros Hnd Hd Hx.
  destruct (uids_subst_in u f cs t Hnd Hd) as (l1 & l2 & Hu & Hu').
  rewrite Hu' in Hx. rewrite Hu.
  apply elem_of_app in Hx as [Hx|Hx]; [left; set_solver|].
  apply elem_of_app in Hx as [Hx|Hx]; [by right|left].
  apply elem_of_app. right. apply elem_of_cons. right.
  apply elem_of_app. by right.
Qed.

Lemma fresh_for_subst_in u f (cs : list node) t F F' :
  NoDup (uids cs) -> deref u cs = Some t ->
  fresh_for F cs -> F <= F' ->
  (forall x, x ∈ uids (f t) -> x < F') ->
  fresh_for F' (subst_in u f cs).
Proof.
  intros Hnd Hd HF Hle Hnew x Hx.
  destruct (elem_of_uids_subst_in u f cs t x Hnd Hd Hx) as [Hin|Hin].
  - specialize (HF x Hin). lia.
  - by apply Hnew.
Qed.

Lemma self_and_descendants_eq (t : node) :
  self_and_descendants t = t :: descendants_of (contents t).
Proof. by destruct t. Qed.

(** The first match of a search survives an edit elsewhere that brings
    no match. *)
Lemma find_subst_in_keep p u f (cs : list node) t x :
  on_head p -> NoDup (uids cs) -> deref u cs = Some t ->
  find p cs = Some x -> uids (contents x) = [] ->
  x ∉ self_and_descendants t ->
  find p (f t) = None ->
  find p (subst_in u f cs) = Some x.
Proof.
  intros Hp Hnd Hd Hf Hx Hout Hnew.
  destruct (subst_in_split u cs t Hnd Hd)
    as (pre & post & Hsp & Hpre & Hpost & Hsub).
  unfold find in *. rewrite Hsub. rewrite Hsp in Hf.
  rewrite list_find_app in Hf.
  rewrite list_find_app, list_find_map by (intros y; by apply on_head_edit).
  destruct (List.find p pre) as [y|] eqn:Hy.
  - injection Hf as ->. cbn. f_equal. apply edit_notin. rewrite Hx.
    apply not_elem_of_nil.
  - cbn [fmap option_fmap option_map]. rewrite list_find_app, Hnew.
    change (t :: descendants_of (contents t) ++ post)
      with ((t :: descendants_of (contents t)) ++ post) in Hf.
    rewrite list_find_app in Hf.
    destruct (List.find p (t :: descendants_of (contents t))) as [y|] eqn:Hy';
      [|done].
    injection Hf as ->. exfalso. apply Hout.
    rewrite self_and_descendants_eq. apply list_elem_of_In.
    by apply find_some in Hy' as [? _].
Qed.

(** The first match of a search when something is appended to a tag. *)
Lemma find_subst_in_append p u m (cs : list node) t x :
  on_head p -> NoDup (uids cs) -> deref u cs = Some t ->
  find p cs = Some x -> uids (contents x) = [] -> x <> t ->
  p m = false -> find p (contents m) = None ->
  find p (subst_in u (fun d => [append m d]) cs) = Some x.
Proof.
  intros Hp Hnd Hd Hf Hx Hne Hm Hmc.
  destruct (subst_in_split u cs t Hnd Hd)
    as (pre & post & Hsp & Hpre & Hpost & Hsub).
  unfold find in *. rewrite Hsub. rewrite Hsp in Hf.
  rewrite list_find_app in Hf.
  rewrite list_find_app, list_find_map by (intros y; by apply on_head_edit).
  destruct (List.find p pre) as [y|] eqn:Hy.
  - injection Hf as ->. cbn. f_equal. apply edit_notin. rewrite Hx.
    apply not_elem_of_nil.
  - cbn [fmap option_fmap option_map].
    pose proof (deref_uid _ _ _ Hd) as Hu.
    destruct t as [v nm a cc|]; [|discriminate].
    cbn [append contents] in *. rewrite descendants_of_tag.
    change (descendants_of []) with (@nil node). rewrite app_nil_r.
    rewrite descendants_of_app.
    cbn [List.find] in Hf. rewrite <- app_comm_cons. cbn [List.find].
    rewrite (Hp v nm a (cc ++ [m]) cc).
    destruct (p (Tag v nm a cc)); [by injection Hf as <-|].
    rewrite list_find_app in Hf. rewrite <- app_assoc, list_find_app.
    destruct (List.find p (descendants_of cc)); [done|].
    rewrite list_find_app.
    replace (List.find p (descendants_of [m])) with (@None node); [done|].
    symmetry. rewrite <- (app_nil_r [m]).
    change (descendants_of ([m] ++ [])) with (self_and_descendants m ++ []).
    rewrite app_nil_r, self_and_descendants_eq. cbn [List.find].
    by rewrite Hm.
Qed.

Lemma descendants_of_contents_subset (cs : list node) t :
  t ∈ descendants_of cs -> descendants_of (contents t) ⊆ descendants_of cs.
Proof.
  induction cs as [|k s rest IH|v nm a cc rest IHcc IH] using forest_ind;
    intros Hin.
  - by apply elem_of_nil in Hin.
  - rewrite descendants_of_string in *.
    apply elem_of_cons in Hin as [->|Hin].
    + intros x Hx. by apply elem_of_nil in Hx.
    + intros x Hx. apply elem_of_cons. right. by apply IH.
  - rewrite descendants_of_tag in *.
    apply elem_of_cons in Hin as [->|Hin].
    + intros x Hx. apply elem_of_cons. right. apply elem_of_app. by left.
    + intros x Hx. apply elem_of_cons. right. apply elem_of_app.
      apply elem_of_app in Hin as [Hin|Hin]; [left; by apply IHcc|right; by apply IH].
Qed.

Lemma find_all_contents_subset p (cs : list node) t :
  t ∈ descendants_of cs -> find_all p (contents t) ⊆ find_all p cs.
Proof.
  intros Hin x Hx. unfold find_all in *.
  apply list_elem_of_In, filter_In in Hx as [Hx Hp].
  apply list_elem_of_In, filter_In. split; [|done].
  apply list_elem_of_In. eapply descendants_of_contents_subset; [done|].
  by apply list_elem_of_In.
Qed.

Lemma deref_elem_of u (cs : list node) t :
  deref u cs = Some t -> t ∈ descendants_of cs.
Proof.
  unfold deref. intros H. apply find_some in H as [H _].
  by apply list_elem_of_In.
Qed.

(** Matches that enclose no element stay as they are when another tag
    is edited. *)
Lemma Forall_text_only_subst_in p u f (cs : list node) t :
  on_head p -> NoDup (uids cs) -> deref u cs = Some t ->
  Forall text_only (find_all p cs) ->
  Forall text_only (find_all p (f t)) ->
  Forall text_only (find_all p (subst_in u f cs)).
Proof.
  intros Hp Hnd Hd Hall Hnew.
  destruct (subst_in_split u cs t Hnd Hd)
    as (pre & post & Hsp & Hpre & Hpost & Hsub).
  unfold find_all in *. rewrite Hsub. rewrite Hsp in Hall.
  rewrite !List.filter_app in *.
  apply Forall_app in Hall as [Hall1 Hall2].
  change (t :: descendants_of (contents t) ++ post)
    with ((t :: descendants_of (contents t)) ++ post) in Hall2.
  rewrite List.filter_app in Hall2.
  apply Forall_app in Hall2 as [_ Hall3].
  apply Forall_app. split; [|apply Forall_app; by split].
  rewrite list_filter_map by (intros y; by apply on_head_edit).
  apply Forall_forall. intros x Hx.
  apply list_elem_of_In, in_map_iff in Hx as (y & <- & Hy).
  rewrite Forall_forall in Hall1.
  specialize (Hall1 y ltac:(by apply list_elem_of_In)).
  rewrite edit_notin; [done|]. unfold text_only in Hall1. rewrite Hall1.
  apply not_elem_of_nil.
Qed.

(** Replacing a tag by itself changes nothing. *)
Lemma subst_in_same u f (cs : list node) :
  forall t, NoDup (uids cs) -> deref u cs = Some t -> f t = [t] ->
  subst_in u f cs = cs.
Proof.
  induction cs as [|k s rest IH|v nm a cc rest IHcc IH] using forest_ind;
    intros t Hnd Hd Hf.
  - reflexivity.
  - change (subst_in u f (NavigableString k s :: rest))
      with (NavigableString k s :: subst_in u f rest).
    f_equal. by apply (IH t).
  - rewrite uids_tag in Hnd. apply NoDup_cons in Hnd as [Hv Hnd].
    apply NoDup_app in Hnd as (Hndcc & Hdisj & Hndrest).
    destruct (decide (v = u)) as [->|Hne].
    + rewrite deref_tag_eq in Hd. injection Hd as <-.
      rewrite subst_in_tag_eq, Hf, subst_in_notin; [reflexivity|].
      intros Hin. apply Hv. apply elem_of_app. by right.
    + rewrite subst_in_tag_ne by done.
      rewrite deref_tag_ne, deref_app in Hd by done.
      destruct (deref u cc) as [t'|] eqn:Hdcc.
      * injection Hd as ->. rewrite (IHcc t) by done.
        rewrite subst_in_notin; [reflexivity|].
        intros Hin. eapply Hdisj; [|exact Hin]. by eapply deref_in.
      * rewrite (IH t) by done.
        rewrite subst_in_notin; [reflexivity|].
        intros Hin. eapply Hdisj; [exact Hin|]. by eapply deref_in.
Qed.

End TreeFacts.

(** ** The loop body, phase by phase *)

Section PanelFacts.

Lemma on_head_is_named_class nm c : on_head (is_named_class nm c).
Proof. intros u n a c1 c2. reflexivity. Qed.

Lemma on_head_name_is nm : on_head (name_is nm).
Proof. intros u n a c1 c2. reflexivity. Qed.

Lemma dict_get_set_ne k k' v d :
  k <> k' -> dict_get k' (dict_set k v d) = dict_get k' d.
Proof.
  intros Hne. induction d as [|[k0 v0] d IH]; cbn.
  - destruct (String.eqb_spec k k'); [contradiction|reflexivity].
  - destruct (String.eqb_spec k0 k) as [->|Hk0]; cbn.
    + destruct (String.eqb_spec k k'); [contradiction|reflexivity].
    + destruct (String.eqb_spec k0 k'); [reflexivity|exact IH].
Qed.

Lemma dict_get_set_eq k v d : dict_get k (dict_set k v d) = Some v.
Proof.
  induction d as [|[k0 v0] d IH]; cbn.
  - by rewrite String.eqb_refl.
  - destruct (String.eqb_spec k0 k) as [->|Hk0]; cbn.
    + by rewrite String.eqb_refl.
    + destruct (String.eqb_spec k0 k); [contradiction|exact IH].
Qed.

Lemma dict_set_same k v d : dict_get k d = Some v -> dict_set k v d = d.
Proof.
  induction d as [|[k0 v0] d IH]; cbn; [discriminate|].
  destruct (String.eqb_spec k0 k) as [->|Hk0].
  - by intros [= ->].
  - intros H. by rewrite IH.
Qed.

(** What [update_anchor] leaves alone and what it sets. *)
Lemma update_anchor_tag dfn_id u nm a cc :
  update_anchor dfn_id (Tag u nm a cc)
  = Tag u nm
      (dict_set "aria-label" (AStr (aria_label dfn_id))
         (dict_set "href" (AStr ("#" +:+ dfn_id)) a))
      [NavigableString Text "Permalink"].
Proof. reflexivity. Qed.

Lemma update_anchor_class dfn_id n :
  get "class" (update_anchor dfn_id n) = get "class" n.
Proof.
  destruct n as [u nm a cc|k s]; [|reflexivity].
  rewrite update_anchor_tag. unfold get. cbn [attrs].
  by rewrite !dict_get_set_ne.
Qed.

Lemma update_anchor_named_class nm c dfn_id n :
  is_named_class nm c (update_anchor dfn_id n) = is_named_class nm c n.
Proof.
  unfold is_named_class, class_matches. rewrite update_anchor_class.
  by destruct n.
Qed.

Lemma update_anchor_is_marker dfn_id n :
  is_marker (update_anchor dfn_id n) = is_marker n.
Proof. apply update_anchor_named_class. Qed.

Lemma update_anchor_is_self_link dfn_id n :
  is_self_link (update_anchor dfn_id n) = is_self_link n.
Proof. apply update_anchor_named_class. Qed.

Lemma update_anchor_uid dfn_id n : tag_uid (update_anchor dfn_id n) = tag_uid n.
Proof. by destruct n. Qed.

Lemma update_anchor_href dfn_id n :
  is_tag n = true ->
  get "href" (update_anchor dfn_id n) = Some (AStr ("#" +:+ dfn_id)).
Proof.
  destruct n as [u nm a cc|k s]; [intros _|discriminate].
  rewrite update_anchor_tag. unfold get. cbn [attrs].
  rewrite dict_get_set_ne by done. apply dict_get_set_eq.
Qed.

Lemma update_anchor_aria dfn_id n :
  is_tag n = true ->
  get "aria-label" (update_anchor dfn_id n) = Some (AStr (aria_label dfn_id)).
Proof.
  destruct n as [u nm a cc|k s]; [intros _|discriminate].
  rewrite update_anchor_tag. unfold get. cbn [attrs].
  apply dict_get_set_eq.
Qed.

Lemma update_anchor_contents dfn_id n :
  is_tag n = true ->
  contents (update_anchor dfn_id n) = [NavigableString Text "Permalink"].
Proof. destruct n; [reflexivity|discriminate]. Qed.

Lemma update_anchor_idem dfn_id n :
  update_anchor dfn_id (update_anchor dfn_id n) = update_anchor dfn_id n.
Proof.
  destruct n as [u nm a cc|k s]; [|reflexivity].
  rewrite !update_anchor_tag. f_equal.
  rewrite (dict_set_same "href" _
             (dict_set "aria-label" _ (dict_set "href" _ a))).
  - apply dict_set_same, dict_get_set_eq.
  - rewrite dict_get_set_ne by done. apply dict_get_set_eq.
Qed.

Lemma is_named_class_tag nm c n : is_named_class nm c n = true -> is_tag n = true.
Proof. destruct n; [done|discriminate]. Qed.

Lemma self_link_not_marker n : is_self_link n = true -> is_marker n = false.
Proof.
  unfold is_self_link, is_marker, is_named_class.
  destruct n as [u nm a cc|k s]; [|done]. cbn.
  destruct (String.eqb_spec nm "a") as [->|]; [reflexivity|done].
Qed.

Lemma self_link_not_named nm n :
  nm <> "a" -> is_self_link n = true -> name_is nm n = false.
Proof.
  unfold is_self_link, is_named_class.
  destruct n as [u nm' a cc|k s]; [|done]. cbn. intros Hne.
  destruct (String.eqb_spec nm' "a") as [->|]; [|done].
  intros _. by apply String.eqb_neq.
Qed.

Lemma find_tag_uid nm c (cs : list node) t :
  find (is_named_class nm c) cs = Some t -> tag_uid t = Some (uid_of t).
Proof.
  intros H. apply find_elem_of in H as [_ H].
  destruct t; [reflexivity|discriminate].
Qed.

Lemma find_name_uid nm (cs : list node) t :
  find (name_is nm) cs = Some t -> tag_uid t = Some (uid_of t).
Proof.
  intros H. apply find_elem_of in H as [_ H].
  destruct t; [reflexivity|discriminate].
Qed.

Lemma uids_insert0_anchor F d :
  is_tag d = true ->
  uids [insert0 (new_anchor F) d] = uid_of d :: F :: uids (contents d).
Proof.
  destruct d as [u nm a cc|k s]; [intros _|discriminate].
  cbn [insert0]. rewrite uids_tag. unfold new_anchor. rewrite uids_tag.
  cbn. by rewrite !app_nil_r.
Qed.

(** Lines 50 to 54: either the first anchor of the panel is taken, or a
    new one is put first in the panel's first [div]. *)
Lemma ensure_anchor_spec pu pnm pa (cs : list node) F a P1 F1 :
  NoDup (uids cs) -> fresh_for F cs ->
  ensure_anchor (Tag pu pnm pa cs) F = Ok (a, P1, F1) ->
  exists cs1 a0,
    P1 = Tag pu pnm pa cs1
    /\ find is_self_link cs1 = Some a0 /\ tag_uid a0 = Some a
    /\ NoDup (uids cs1) /\ fresh_for F1 cs1 /\ F <= F1
    /\ ((find is_self_link cs = Some a0 /\ cs1 = cs /\ F1 = F)
        \/ (find is_self_link cs = None /\ a0 = new_anchor F /\ F1 = S F
            /\ exists d, find (name_is "div") cs = Some d
                 /\ deref (uid_of d) cs = Some d
                 /\ cs1 = subst_in (uid_of d)
                            (fun d => [insert0 (new_anchor F) d]) cs)).
Proof.
  intros Hnd HF. unfold ensure_anchor, dot_div. cbn [contents].
  destruct (find is_self_link cs) as [a0|] eqn:Ha.
  - intros [= <- <- <-]. exists cs, a0.
    pose proof (find_tag_uid _ _ _ _ Ha) as Hu.
    repeat split; try done. by left.
  - destruct (find (name_is "div") cs) as [d|] eqn:Hdiv; [|discriminate].
    intros [= <- <- <-].
    pose proof (find_name_uid _ _ _ Hdiv) as Hud.
    destruct (find_split _ _ _ _ Hnd Hdiv Hud)
      as (pre & post & Hsp & Hpre & Hupre & Hd & Hpost & Hsub).
    assert (Hdt : is_tag d = true) by (by destruct d).
    set (f := fun d : node => [insert0 (new_anchor F) d]).
    assert (HFnot : F ∉ uids cs).
    { intros Hin. specialize (HF F Hin). lia. }
    exists (subst_in (uid_of d) f cs), (new_anchor F).
    split; [reflexivity|]. split; [|split; [reflexivity|]].
    { (* the new anchor is the first anchor *)
      unfold find. rewrite Hsub. unfold find in Ha. rewrite Hsp in Ha.
      rewrite list_find_app in Ha.
      destruct (List.find is_self_link pre) eqn:Hp1; [discriminate|].
      rewrite list_find_app, list_find_map, Hp1
        by (intros x; apply on_head_edit, on_head_is_named_class).
      cbn [fmap option_fmap option_map]. subst f. cbv beta.
      destruct d as [ud nmd ad cd|]; [|discriminate].
      cbn [insert0]. rewrite descendants_of_tag.
      cbn [List.find app].
      cbn in Ha.
      destruct (is_self_link (Tag ud nmd ad cd)) eqn:Hsl; [discriminate|].
      replace (is_self_link (Tag ud nmd ad (new_anchor F :: cd)))
        with false by (rewrite <- Hsl; apply on_head_is_named_class).
      reflexivity. }
    split; [|split; [|split; [lia|]]].
    + apply (NoDup_subst_in _ _ _ d Hnd Hd).
      * subst f. cbv beta. rewrite uids_insert0_anchor by done.
        destruct (deref_uids _ _ _ Hnd Hd) as [Hnd' Hsub'].
        rewrite uids_single, Hud in Hnd', Hsub'.
        apply NoDup_cons in Hnd' as [Hd1 Hd2].
        apply NoDup_cons. split.
        -- intros Hin. apply elem_of_cons in Hin as [Heq|Hin]; [|done].
           apply HFnot. rewrite <- Heq. by eapply deref_in.
        -- apply NoDup_cons. split; [|done].
           intros Hin. apply HFnot, Hsub'. by right.
      * subst f. cbv beta. intros x Hx.
        rewrite uids_insert0_anchor in Hx by done.
        rewrite uids_single, Hud.
        apply elem_of_cons in Hx as [->|Hx]; [left; by left|].
        apply elem_of_cons in Hx as [->|Hx]; [by right|].
        left. by right.
    + apply (fresh_for_subst_in _ _ _ d F (S F) Hnd Hd HF); [lia|].
      subst f. cbv beta. intros x Hx.
      rewrite uids_insert0_anchor in Hx by done.
      destruct (deref_uids _ _ _ Hnd Hd) as [_ Hsub'].
      apply elem_of_cons in Hx as [->|Hx].
      { assert (uid_of d < F); [|lia]. apply HF, Hsub'.
        rewrite uids_single, Hud. by left. }
      apply elem_of_cons in Hx as [->|Hx]; [lia|].
      assert (x < F); [|lia]. apply HF, Hsub'.
      rewrite uids_single, Hud. by right.
    + right. repeat split; try done. by exists d.
Qed.

(** Lines 56 to 58: the anchor is updated in place and stays the first
    anchor of the panel. *)
Lemma update_anchor_spec (cs1 : list node) a a0 dfn_id :
  NoDup (uids cs1) ->
  find is_self_link cs1 = Some a0 -> tag_uid a0 = Some a ->
  let cs2 := subst_in a (fun n => [update_anchor dfn_id n]) cs1 in
  let a' := update_anchor dfn_id a0 in
  deref a cs1 = Some a0
  /\ find is_self_link cs2 = Some a'
  /\ deref a cs2 = Some a'
  /\ NoDup (uids cs2)
  /\ (forall x, x ∈ uids cs2 -> x ∈ uids cs1).
Proof.
  intros Hnd Hf Hu cs2 a'.
  destruct (find_split _ _ _ _ Hnd Hf Hu)
    as (pre & post & Hsp & Hpre & Hupre & Hd & Hpost & Hsub).
  destruct (find_elem_of _ _ _ Hf) as [_ Hsl].
  assert (Ht : is_tag a0 = true) by (by destruct a0).
  assert (Hua' : uids [a'] = [a]).
  { subst a'. destruct a0 as [u nm at0 cc|]; [|discriminate].
    injection Hu as ->. reflexivity. }
  assert (Hnd2 : NoDup (uids cs2)).
  { apply (NoDup_subst_in _ _ _ a0 Hnd Hd); cbv beta; fold a'.
    - rewrite Hua'. apply NoDup_singleton.
    - intros x. rewrite Hua'. intros ->%list_elem_of_singleton.
      left. rewrite uids_single, Hu. by left. }
  assert (Hf2 : find is_self_link cs2 = Some a').
  { unfold find, cs2. rewrite Hsub, list_find_app, list_find_map, Hpre
      by (intros x; apply on_head_edit, on_head_is_named_class).
    cbn [fmap option_fmap option_map]. fold a'.
    destruct a' as [u' nm' at' cc'|] eqn:Ea'.
    - rewrite descendants_of_tag. cbn [List.find app].
      rewrite <- Ea'. subst a'.
      by rewrite update_anchor_is_self_link, Hsl.
    - subst a'. by destruct a0. }
  repeat split; try done.
  - apply find_by_uid; [done| |].
    + by apply (find_elem_of _ _ _ Hf2).
    + subst a'. by rewrite update_anchor_uid.
  - intros x Hx.
    destruct (elem_of_uids_subst_in _ _ _ _ _ Hnd Hd Hx) as [Hin|Hin]; [done|].
    cbv beta in Hin. fold a' in Hin. rewrite Hua' in Hin.
    apply list_elem_of_singleton in Hin as ->. by eapply deref_in.
Qed.

(** The five ways through lines 62 to 76. *)
Lemma sync_marker_spec b a pu pnm pa (cs2 : list node) O F1 eff :
  sync_marker b a (Tag pu pnm pa cs2) O F1 = Ok eff ->
  exists cs3, e_panel eff = Tag pu pnm pa cs3 /\ e_orphans eff = O /\
    ((b = true /\ (exists m, find is_marker cs2 = Some m) /\ cs3 = cs2
        /\ e_fresh eff = F1 /\ e_dead eff = [])
     \/ (b = true /\ find is_marker cs2 = None
         /\ from_option truthy false (next_sibling a (Tag pu pnm pa cs2)) = true
         /\ cs3 = subst_in a (fun n => [n; new_marker F1]) cs2
         /\ e_fresh eff = S F1 /\ e_dead eff = [])
     \/ (b = true /\ find is_marker cs2 = None
         /\ from_option truthy false (next_sibling a (Tag pu pnm pa cs2)) = false
         /\ e_fresh eff = S F1 /\ e_dead eff = []
         /\ exists d, find (name_is "div") cs2 = Some d
              /\ cs3 = subst_in (uid_of d) (fun d => [append (new_marker F1) d]) cs2)
     \/ (b = false /\ e_fresh eff = F1
         /\ exists m, find is_marker cs2 = Some m
              /\ cs3 = subst_in (uid_of m) (fun _ => []) cs2
              /\ e_dead eff = uids [m])
     \/ (b = false /\ find is_marker cs2 = None /\ cs3 = cs2
         /\ e_fresh eff = F1 /\ e_dead eff = [])).
Proof.
  unfold sync_marker, dot_div. cbn [contents].
  destruct b.
  - destruct (find is_marker cs2) as [m|] eqn:Hm.
    + intros [= <-]. exists cs2. cbn. repeat split. left. eauto 10.
    + destruct (from_option truthy false _) eqn:Hns.
      * intros [= <-]. eexists. cbn. repeat split.
        right. left. repeat split; done.
      * destruct (find (name_is "div") cs2) as [d|] eqn:Hd; [|discriminate].
        intros [= <-]. eexists. cbn. repeat split.
        right. right. left. repeat split; try done. by exists d.
  - destruct (find is_marker cs2) as [m|] eqn:Hm.
    + intros [= <-]. eexists. cbn. repeat split.
      right. right. right. left. repeat split; try done. by exists m.
    + intros [= <-]. exists cs2. cbn. repeat split.
      right. right. right. right. repeat split; done.
Qed.

(** The iteration for a matched panel, cut into its three phases. *)
Lemma process_panel_matched pn dm dead pu pnm pa (cs : list node) F eff sfx :
  matched (Tag pu pnm pa cs) sfx ->
  process_panel pn dm dead (Tag pu pnm pa cs) F = Ok eff ->
  exists a P1 F1 b,
    ensure_anchor (Tag pu pnm pa cs) F = Ok (a, P1, F1)
    /\ exported dead (resolve dm (dfn_id_of sfx) sfx) = Ok b
    /\ sync_marker b a
         (edit a (fun n => [update_anchor (dfn_id_of sfx) n]) P1)
         (from_option contents [] (deref a (contents P1))) F1 = Ok eff.
Proof.
  intros (pid & Hpid & Hre). unfold process_panel.
  rewrite Hpid. cbn. rewrite Hre.
  destruct (ensure_anchor _ F) as [[[a P1] F1]|e]; [|discriminate].
  cbn. destruct (exported dead _) as [b|e]; [|discriminate].
  cbn. intros H. by exists a, P1, F1, b.
Qed.

Lemma process_panel_unmatched pn dm dead P F pid :
  panel_pid P = Ok pid -> panel_re pid = None ->
  process_panel pn dm dead P F = Ok (unchanged P F).
Proof. intros Hpid Hre. unfold process_panel. rewrite Hpid. cbn. by rewrite Hre. Qed.

Lemma find_all_cons p (x : node) (l : list node) :
  find_all p (x :: l) = find_all p [x] ++ find_all p l.
Proof. apply (find_all_app p [x] l). Qed.

Lemma find_all_tag p u nm a (cc : list node) :
  find_all p [Tag u nm a cc]
  = (if p (Tag u nm a cc) then [Tag u nm a cc] else []) ++ find_all p cc.
Proof.
  unfold find_all. rewrite descendants_of_tag.
  change (descendants_of []) with (@nil node). rewrite app_nil_r.
  cbn [List.filter]. by destruct (p _).
Qed.

Lemma count_insert0 p x d :
  on_head p -> is_tag d = true ->
  length (find_all p [insert0 x d])
  = length (find_all p [x]) + length (find_all p [d]).
Proof.
  intros Hp Hd. destruct d as [u nm a cc|]; [|discriminate].
  cbn [insert0]. rewrite !find_all_tag, (find_all_cons p x cc).
  rewrite (Hp u nm a (x :: cc) cc). rewrite !length_app.
  destruct (p (Tag u nm a cc)); cbn [length]; lia.
Qed.

Lemma count_append p x d :
  on_head p -> is_tag d = true ->
  length (find_all p [append x d])
  = length (find_all p [x]) + length (find_all p [d]).
Proof.
  intros Hp Hd. destruct d as [u nm a cc|]; [|discriminate].
  cbn [append]. rewrite !find_all_tag, find_all_app.
  rewrite (Hp u nm a (cc ++ [x]) cc). rewrite !length_app.
  destruct (p (Tag u nm a cc)); cbn [length]; lia.
Qed.

Lemma find_all_new_anchor p F :
  find_all p [new_anchor F] = if p (new_anchor F) then [new_anchor F] else [].
Proof. unfold new_anchor. rewrite find_all_tag. by rewrite app_nil_r. Qed.

Lemma find_all_new_marker_marker F :
  find_all is_marker [new_marker F] = [new_marker F].
Proof. reflexivity. Qed.

Lemma find_all_updated_anchor p dfn_id a0 :
  is_tag a0 = true ->
  p (NavigableString Text "Permalink") = false ->
  find_all p [update_anchor dfn_id a0]
  = if p (update_anchor dfn_id a0) then [update_anchor dfn_id a0] else [].
Proof.
  intros Ht Hs. destruct a0 as [u nm a cc|]; [|discriminate].
  rewrite update_anchor_tag, find_all_tag.
  unfold find_all. cbn [descendants_of flat_map self_and_descendants app List.filter].
  rewrite Hs. by rewrite app_nil_r.
Qed.

Lemma find_some_count p (cs : list node) t :
  find p cs = Some t -> 1 <= length (find_all p cs).
Proof.
  unfold find, find_all. rewrite list_find_head_filter.
  destruct (List.filter p _); [discriminate|cbn; lia].
Qed.

Lemma find_none_count p (cs : list node) :
  find p cs = None -> length (find_all p cs) = 0.
Proof.
  unfold find, find_all. intros H%list_find_none_filter. by rewrite H.
Qed.

Lemma stable_is_named_class nm c : stable (is_named_class nm c).
Proof.
  split; [apply on_head_is_named_class|]. split; [|done].
  intros. apply update_anchor_named_class.
Qed.

Lemma stable_name_is nm : stable (name_is nm).
Proof.
  split; [apply on_head_name_is|]. split; [|done].
  intros dfn_id [u n a cc|k s]; reflexivity.
Qed.

Lemma find_all_single_le (p : node -> bool) (t : node) :
  (if p t then 1 else 0) <= length (find_all p [t]).
Proof.
  destruct t as [u nm a cc|k s].
  - rewrite find_all_tag, length_app. destruct (p _); cbn; lia.
  - unfold find_all. cbn. destruct (p _); cbn; lia.
Qed.

(** The panel after the first two phases: its first anchor is the
    updated one; nothing the update does not create has been added. *)
Lemma after_anchor pu pnm pa (cs : list node) F a P1 F1 dfn_id :
  NoDup (uids cs) -> fresh_for F cs ->
  ensure_anchor (Tag pu pnm pa cs) F = Ok (a, P1, F1) ->
  exists cs2 a0,
    edit a (fun n => [update_anchor dfn_id n]) P1 = Tag pu pnm pa cs2
    /\ NoDup (uids cs2) /\ fresh_for F1 cs2 /\ F <= F1
    /\ is_self_link a0 = true /\ tag_uid a0 = Some a
    /\ find is_self_link cs2 = Some (update_anchor dfn_id a0)
    /\ deref a cs2 = Some (update_anchor dfn_id a0)
    /\ (forall x, x ∈ uids cs2 -> x ∈ uids cs \/ (F <= x < F1))
    /\ (forall p, stable p -> p (new_anchor F) = false ->
          length (find_all p cs2) <= length (find_all p cs))
    /\ (length (find_all is_self_link cs) <= 1 ->
          length (find_all is_self_link cs2) = 1).
Proof.
  intros Hnd HF He.
  destruct (ensure_anchor_spec _ _ _ _ _ _ _ _ Hnd HF He)
    as (cs1 & a0 & -> & Hf1 & Hu & Hnd1 & HF1 & Hle & Hcase).
  destruct (update_anchor_spec cs1 a a0 dfn_id Hnd1 Hf1 Hu)
    as (Hd1 & Hf2 & Hd2 & Hnd2 & Hsub2).
  destruct (find_elem_of _ _ _ Hf1) as [_ Hsl].
  assert (Ht : is_tag a0 = true) by (by destruct a0).
  assert (Hcount : forall p, stable p ->
            length (find_all p (subst_in a (fun n => [update_anchor dfn_id n]) cs1))
            + length (find_all p [a0])
            = length (find_all p cs1) + (if p a0 then 1 else 0)).
  { intros p (Hp1 & Hp2 & Hp3).
    pose proof (count_subst_in p a (fun n => [update_anchor dfn_id n]) cs1 a0
                  Hp1 Hnd1 Hd1) as Hc.
    cbv beta in Hc. rewrite find_all_updated_anchor, Hp2 in Hc by done.
    destruct (p a0); cbn [length] in Hc; lia. }
  assert (Hcount1 : forall p, stable p ->
            length (find_all p cs1)
            = length (find_all p cs)
              + (if decide (F1 = F) then 0
                 else if p (new_anchor F) then 1 else 0)).
  { intros p (Hp1 & Hp2 & Hp3).
    destruct Hcase as [(_ & -> & ->)|(_ & _ & -> & d & Hdiv & Hdd & ->)].
    - rewrite decide_True by done. lia.
    - rewrite decide_False by lia.
      pose proof (count_subst_in p (uid_of d)
                    (fun d => [insert0 (new_anchor F) d]) cs d Hp1 Hnd Hdd) as Hc.
      cbv beta in Hc.
      rewrite count_insert0 in Hc
        by (try done; by destruct (find_elem_of _ _ _ Hdiv) as [_ ?], d).
      rewrite find_all_new_anchor in Hc.
      destruct (p (new_anchor F)); cbn [length] in Hc; lia. }
  eexists _, a0. split; [reflexivity|]. repeat split; try done.
  - intros x Hx. by apply HF1, Hsub2.
  - intros x Hx. apply Hsub2 in Hx.
    destruct Hcase as [(_ & -> & ->)|(_ & _ & -> & d & Hdiv & Hdd & ->)];
      [by left|].
    apply (elem_of_uids_subst_in _ _ _ _ _ Hnd Hdd) in Hx as [Hx|Hx];
      [by left|].
    cbv beta in Hx. rewrite uids_insert0_anchor in Hx
      by (by destruct (find_elem_of _ _ _ Hdiv) as [_ ?], d).
    destruct (deref_uids _ _ _ Hnd Hdd) as [_ Hsub'].
    rewrite uids_single, (find_name_uid _ _ _ Hdiv) in Hsub'.
    apply elem_of_cons in Hx as [->|Hx]; [left; apply Hsub'; by left|].
    apply elem_of_cons in Hx as [->|Hx]; [right; lia|].
    left. apply Hsub'. by right.
  - intros p Hp Hnew. specialize (Hcount p Hp). specialize (Hcount1 p Hp).
    rewrite Hnew in Hcount1.
    pose proof (find_all_single_le p a0).
    destruct (decide (F1 = F)), (p a0); lia.
  - intros Hone.
    pose proof (Hcount is_self_link (stable_is_named_class _ _)) as Hc.
    pose proof (Hcount1 is_self_link (stable_is_named_class _ _)) as Hc1.
    rewrite Hsl in Hc. pose proof (find_all_single_le is_self_link a0) as Hle0.
    rewrite Hsl in Hle0.
    pose proof (find_some_count _ _ _ Hf2) as Hge.
    destruct Hcase as [(Hfa & -> & ->)|(Hfa & _ & -> & d & Hdiv & Hdd & ->)].
    + rewrite decide_True in Hc1 by done. lia.
    + rewrite decide_False in Hc1 by lia.
      apply find_none_count in Hfa.
      change (is_self_link (new_anchor F)) with true in Hc1.
      cbv iota in Hc1. lia.
Qed.

Lemma uids_new_marker F : uids [new_marker F] = [F].
Proof. reflexivity. Qed.

Lemma uids_append_marker F d :
  is_tag d = true ->
  uids [append (new_marker F) d] = uid_of d :: uids (contents d) ++ [F].
Proof.
  destruct d as [u nm a cc|k s]; [intros _|discriminate].
  cbn [append]. rewrite uids_tag, uids_app, uids_new_marker.
  cbn. by rewrite !app_nil_r.
Qed.

Lemma find_deref p (cs : list node) t :
  NoDup (uids cs) -> find p cs = Some t -> tag_uid t = Some (uid_of t) ->
  deref (uid_of t) cs = Some t.
Proof.
  intros Hnd Hf Hu.
  by destruct (find_split _ _ _ _ Hnd Hf Hu) as (_ & _ & _ & _ & _ & Hd & _).
Qed.

(** The number of markers below a matched panel after its iteration. *)
Lemma process_panel_marker_count pn dm dead pu pnm pa (cs : list node)
    F eff sfx b :
  NoDup (uids cs) -> fresh_for F cs ->
  matched (Tag pu pnm pa cs) sfx ->
  process_panel pn dm dead (Tag pu pnm pa cs) F = Ok eff ->
  exported dead (resolve dm (dfn_id_of sfx) sfx) = Ok b ->
  length (markers_of (Tag pu pnm pa cs)) <= 1 ->
  length (markers_of (e_panel eff)) = if b then 1 else 0.
Proof.
  intros Hnd HF Hm Hp Hb Hone.
  destruct (process_panel_matched _ _ _ _ _ _ _ _ _ _ Hm Hp)
    as (a & P1 & F1 & b' & He & Hb' & Hs).
  rewrite Hb in Hb'. injection Hb' as <-.
  destruct (after_anchor _ _ _ _ _ _ _ _ (dfn_id_of sfx) Hnd HF He)
    as (cs2 & a0 & HP2 & Hnd2 & HF2 & Hle & Hsl & Hu & Hf2 & Hd2 & _ & Hc2 & _).
  specialize (Hc2 is_marker (stable_is_named_class _ _) eq_refl).
  rewrite HP2 in Hs.
  destruct (sync_marker_spec _ _ _ _ _ _ _ _ _ Hs) as (cs3 & -> & _ & Hcase).
  unfold markers_of in *. cbn [contents] in *.
  assert (Hoh : on_head is_marker) by apply on_head_is_named_class.
  destruct Hcase as
    [(-> & [m Hm2] & -> & _)
    |[(-> & Hm2 & Hns & -> & _)
    |[(-> & Hm2 & Hns & _ & _ & d & Hdiv & ->)
    |[(-> & _ & m & Hm2 & -> & _)
    |(-> & Hm2 & -> & _)]]]].
  - apply find_some_count in Hm2. lia.
  - apply find_none_count in Hm2.
    pose proof (count_subst_in is_marker a (fun n => [n; new_marker F1])
                  cs2 _ Hoh Hnd2 Hd2) as Hc.
    cbv beta in Hc.
    rewrite (find_all_cons is_marker (update_anchor _ a0) [new_marker F1]),
      length_app, find_all_new_marker_marker in Hc.
    cbn [length] in Hc. lia.
  - apply find_none_count in Hm2.
    pose proof (find_deref _ _ _ Hnd2 Hdiv (find_name_uid _ _ _ Hdiv)) as Hdd.
    pose proof (count_subst_in is_marker (uid_of d)
                  (fun d => [append (new_marker F1) d]) cs2 d Hoh Hnd2 Hdd) as Hc.
    cbv beta in Hc.
    rewrite count_append, find_all_new_marker_marker in Hc
      by (try done; by destruct (find_elem_of _ _ _ Hdiv) as [_ ?], d).
    cbn [length] in Hc. lia.
  - pose proof (find_deref _ _ _ Hnd2 Hm2 (find_tag_uid _ _ _ _ Hm2)) as Hdm.
    pose proof (count_subst_in is_marker (uid_of m) (fun _ => []) cs2 m
                  Hoh Hnd2 Hdm) as Hc.
    cbv beta in Hc. change (find_all is_marker []) with (@nil node) in Hc.
    cbn [length] in Hc.
    assert (1 <= length (find_all is_marker [m])).
    { destruct (find_elem_of _ _ _ Hm2) as [_ Hmm].
      destruct m as [um nmm am cm|]; [|discriminate].
      rewrite find_all_tag, Hmm, length_app. cbn. lia. }
    lia.
  - by apply find_none_count in Hm2.
Qed.

(** Markers that enclose no element are still so after the first two
    phases. *)
Lemma after_anchor_text_only pu pnm pa (cs : list node) F a P1 F1 dfn_id cs2 :
  NoDup (uids cs) -> fresh_for F cs ->
  ensure_anchor (Tag pu pnm pa cs) F = Ok (a, P1, F1) ->
  edit a (fun n => [update_anchor dfn_id n]) P1 = Tag pu pnm pa cs2 ->
  Forall text_only (find_all is_marker cs) ->
  Forall text_only (find_all is_marker cs2).
Proof.
  intros Hnd HF He HP2 Hall.
  destruct (ensure_anchor_spec _ _ _ _ _ _ _ _ Hnd HF He)
    as (cs1 & a0 & -> & Hf1 & Hu & Hnd1 & HF1 & Hle & Hcase).
  destruct (update_anchor_spec cs1 a a0 dfn_id Hnd1 Hf1 Hu)
    as (Hd1 & Hf2 & Hd2 & Hnd2 & Hsub2).
  destruct (find_elem_of _ _ _ Hf1) as [_ Hsl].
  cbn [edit] in HP2. injection HP2 as <-.
  assert (Hoh : on_head is_marker) by apply on_head_is_named_class.
  apply (Forall_text_only_subst_in _ _ _ _ a0 Hoh Hnd1 Hd1).
  - destruct Hcase as [(_ & -> & _)|(_ & _ & _ & d & Hdiv & Hdd & ->)];
      [done|].
    apply (Forall_text_only_subst_in _ _ _ _ d Hoh Hnd Hdd Hall).
    destruct (find_elem_of _ _ _ Hdiv) as [_ Hdn].
    destruct d as [ud nmd ad cd|]; [|discriminate].
    cbn [insert0]. rewrite find_all_tag.
    replace (is_marker (Tag ud nmd ad (new_anchor F :: cd))) with false.
    2:{ symmetry. unfold is_marker, is_named_class. cbn in Hdn |- *.
        apply String.eqb_eq in Hdn as ->. reflexivity. }
    cbn [app]. rewrite (find_all_cons is_marker (new_anchor F) cd).
    cbn [app]. apply Forall_forall. intros x Hx.
    rewrite Forall_forall in Hall. apply Hall.
    eapply (find_all_contents_subset _ _ (Tag ud nmd ad cd));
      [by eapply deref_elem_of|done].
  - cbv beta. rewrite find_all_updated_anchor by (try done; by destruct a0).
    rewrite update_anchor_is_marker, (self_link_not_marker _ Hsl).
    apply Forall_nil_2.
Qed.

(** The panel after the third phase. *)
Lemma after_sync b a pu pnm pa (cs2 : list node) O F1 eff a' :
  NoDup (uids cs2) -> fresh_for F1 cs2 ->
  deref a cs2 = Some a' -> find is_self_link cs2 = Some a' ->
  uids (contents a') = [] ->
  sync_marker b a (Tag pu pnm pa cs2) O F1 = Ok eff ->
  exists cs3,
    e_panel eff = Tag pu pnm pa cs3
    /\ NoDup (uids cs3) /\ fresh_for (e_fresh eff) cs3 /\ F1 <= e_fresh eff
    /\ (forall x, x ∈ uids cs3 -> x ∈ uids cs2 \/ (F1 <= x < e_fresh eff))
    /\ (forall p, on_head p -> p (new_marker F1) = false ->
          (forall k s, p (NavigableString k s) = false) ->
          length (find_all p cs3) <= length (find_all p cs2))
    /\ ((forall m, b = false -> find is_marker cs2 = Some m -> text_only m) ->
        find is_self_link cs3 = Some a'
        /\ length (find_all is_self_link cs3)
           = length (find_all is_self_link cs2)).
Proof.
  intros Hnd HF Hda Hfa Hta Hs.
  destruct (sync_marker_spec _ _ _ _ _ _ _ _ _ Hs) as (cs3 & HP & _ & Hcase).
  exists cs3. split; [exact HP|].
  pose proof (deref_uid _ _ _ Hda) as Hua.
  destruct (find_elem_of _ _ _ Hfa) as [_ Hsl].
  assert (Hoh : on_head is_self_link) by apply on_head_is_named_class.
  assert (HaF : a < F1) by (apply HF; by eapply deref_in).
  assert (Hsame : NoDup (uids cs2) /\ fresh_for F1 cs2 /\ F1 <= F1
     /\ (forall x, x ∈ uids cs2 -> x ∈ uids cs2 \/ (F1 <= x < F1))
     /\ (forall p, on_head p -> p (new_marker F1) = false ->
          (forall k s, p (NavigableString k s) = false) ->
          length (find_all p cs2) <= length (find_all p cs2))
     /\ ((forall m, b = false -> find is_marker cs2 = Some m -> text_only m) ->
        find is_self_link cs2 = Some a'
        /\ length (find_all is_self_link cs2)
           = length (find_all is_self_link cs2))).
  { repeat split; try done; auto. }
  destruct Hcase as
    [(-> & _ & -> & -> & _)
    |[(-> & Hm2 & Hns & -> & -> & _)
    |[(-> & Hm2 & Hns & -> & _ & d & Hdiv & ->)
    |[(-> & -> & m & Hm2 & -> & _)
    |(-> & Hm2 & -> & -> & _)]]]]; try exact Hsame.
  - (* the marker is inserted after the anchor *)
    clear Hsame. set (f := fun n : node => [n; new_marker F1]).
    assert (Hfa' : uids (f a') = [a; F1]).
    { subst f. cbv beta.
      destruct a' as [u nm at0 cc|]; [|discriminate].
      cbn [tag_uid] in Hua. injection Hua as ->.
      rewrite uids_tag. cbn [contents] in Hta. rewrite Hta. reflexivity. }
    split; [|split; [|split; [lia|split; [|split]]]].
    + apply (NoDup_subst_in _ _ _ a' Hnd Hda).
      * rewrite Hfa'. apply NoDup_cons. split; [|apply NoDup_singleton].
        intros Hx. apply list_elem_of_singleton in Hx. lia.
      * intros x. rewrite Hfa', uids_single, Hua. intros Hx.
        apply elem_of_cons in Hx as [->|Hx]; [left; by left|].
        apply list_elem_of_singleton in Hx as ->.
        right. intros Hin. specialize (HF _ Hin). lia.
    + apply (fresh_for_subst_in _ _ _ a' F1 (S F1) Hnd Hda HF); [lia|].
      intros x. rewrite Hfa'. intros Hx.
      apply elem_of_cons in Hx as [->|Hx]; [lia|].
      apply list_elem_of_singleton in Hx as ->. lia.
    + intros x Hx.
      apply (elem_of_uids_subst_in _ _ _ _ _ Hnd Hda) in Hx as [Hx|Hx];
        [by left|].
      rewrite Hfa' in Hx.
      apply elem_of_cons in Hx as [->|Hx]; [left; by eapply deref_in|].
      apply list_elem_of_singleton in Hx as ->. right; lia.
    + intros p Hp Hnew Hstr.
      pose proof (count_subst_in p a f cs2 a' Hp Hnd Hda) as Hc.
      subst f. cbv beta in Hc.
      rewrite (find_all_cons p a' [new_marker F1]), length_app in Hc.
      replace (length (find_all p [new_marker F1])) with 0 in Hc; [lia|].
      unfold new_marker in *. rewrite find_all_tag, Hnew.
      unfold find_all. cbn. by rewrite Hstr.
    + intros _. split.
      * destruct (find_split _ _ _ _ Hnd Hfa Hua)
          as (pre & post & Hsp & Hpre & _ & _ & _ & Hsub).
        unfold find. rewrite Hsub, list_find_app, list_find_map, Hpre
          by (intros y; by apply on_head_edit).
        cbn [fmap option_fmap option_map]. subst f. cbv beta.
        change (descendants_of [a'; new_marker F1])
          with (self_and_descendants a' ++ descendants_of [new_marker F1]).
        rewrite self_and_descendants_eq. cbn [app List.find].
        by rewrite Hsl.
      * pose proof (count_subst_in is_self_link a f cs2 a' Hoh Hnd Hda) as Hc.
        subst f. cbv beta in Hc.
        rewrite (find_all_cons is_self_link a' [new_marker F1]), length_app
          in Hc.
        change (find_all is_self_link [new_marker F1]) with (@nil node) in Hc.
        cbn [length] in Hc. lia.
  - (* the marker is appended to the first div *)
    clear Hsame.
    pose proof (find_name_uid _ _ _ Hdiv) as Hud.
    pose proof (find_deref _ _ _ Hnd Hdiv Hud) as Hdd.
    assert (Hdt : is_tag d = true) by (by destruct d).
    destruct (deref_uids _ _ _ Hnd Hdd) as [Hndd Hsubd].
    rewrite uids_single, Hud in Hndd, Hsubd.
    set (f := fun d : node => [append (new_marker F1) d]).
    assert (HF1not : F1 ∉ uids cs2).
    { intros Hin. specialize (HF _ Hin). lia. }
    split; [|split; [|split; [lia|split; [|split]]]].
    + apply (NoDup_subst_in _ _ _ d Hnd Hdd).
      * subst f. cbv beta. rewrite uids_append_marker by done.
        rewrite app_comm_cons. apply NoDup_app. split; [done|].
        split; [|apply NoDup_singleton].
        intros x Hx Hx'. apply list_elem_of_singleton in Hx' as ->.
        by apply HF1not, Hsubd.
      * subst f. cbv beta. intros x. rewrite uids_append_marker by done.
        rewrite app_comm_cons, uids_single, Hud. intros Hx.
        apply elem_of_app in Hx as [Hx|Hx]; [by left|].
        apply list_elem_of_singleton in Hx as ->. by right.
    + apply (fresh_for_subst_in _ _ _ d F1 (S F1) Hnd Hdd HF); [lia|].
      subst f. cbv beta. intros x. rewrite uids_append_marker by done.
      rewrite app_comm_cons. intros Hx.
      apply elem_of_app in Hx as [Hx|Hx].
      * assert (x < F1); [|lia]. by apply HF, Hsubd.
      * apply list_elem_of_singleton in Hx as ->. lia.
    + intros x Hx.
      apply (elem_of_uids_subst_in _ _ _ _ _ Hnd Hdd) in Hx as [Hx|Hx];
        [by left|].
      subst f. cbv beta in Hx. rewrite uids_append_marker in Hx by done.
      rewrite app_comm_cons in Hx.
      apply elem_of_app in Hx as [Hx|Hx]; [left; by apply Hsubd|].
      apply list_elem_of_singleton in Hx as ->. right; lia.
    + intros p Hp Hnew Hstr.
      pose proof (count_subst_in p (uid_of d) f cs2 d Hp Hnd Hdd) as Hc.
      subst f. cbv beta in Hc. rewrite count_append in Hc by done.
      replace (length (find_all p [new_marker F1])) with 0 in Hc; [lia|].
      unfold new_marker in *. rewrite find_all_tag, Hnew.
      unfold find_all. cbn. by rewrite Hstr.
    + intros _. split.
      * apply (find_subst_in_append _ _ _ _ d); try done.
        intros ->. destruct (find_elem_of _ _ _ Hdiv) as [_ Hdn].
        by rewrite (self_link_not_named "div" _ ltac:(done) Hsl) in Hdn.
      * pose proof (count_subst_in is_self_link (uid_of d) f cs2 d
                      Hoh Hnd Hdd) as Hc.
        subst f. cbv beta in Hc. rewrite count_append in Hc by done.
        change (find_all is_self_link [new_marker F1]) with (@nil node) in Hc.
        cbn [length] in Hc. lia.
  - (* the first marker is removed *)
    clear Hsame.
    pose proof (find_tag_uid _ _ _ _ Hm2) as Hum.
    pose proof (find_deref _ _ _ Hnd Hm2 Hum) as Hdm.
    destruct (find_elem_of _ _ _ Hm2) as [_ Hmm].
    split; [|split; [|split; [lia|split; [|split]]]].
    + apply (NoDup_subst_in _ _ _ m Hnd Hdm); [apply NoDup_nil_2|].
      intros x Hx. by apply elem_of_nil in Hx.
    + apply (fresh_for_subst_in _ _ _ m F1 F1 Hnd Hdm HF); [lia|].
      intros x Hx. by apply elem_of_nil in Hx.
    + intros x Hx.
      apply (elem_of_uids_subst_in _ _ _ _ _ Hnd Hdm) in Hx as [Hx|Hx];
        [by left|by apply elem_of_nil in Hx].
    + intros p Hp _ _.
      pose proof (count_subst_in p (uid_of m) (fun _ => []) cs2 m
                    Hp Hnd Hdm) as Hc.
      cbv beta in Hc. change (find_all p []) with (@nil node) in Hc.
      cbn [length] in Hc. lia.
    + intros Htext. specialize (Htext m eq_refl Hm2).
      assert (Hnone : find_all is_self_link [m] = []).
      { destruct m as [um nmm am cm|]; [|discriminate].
        unfold text_only in Htext. cbn [contents] in Htext.
        rewrite find_all_tag.
        assert (Hnsl : is_self_link (Tag um nmm am cm) = false).
        { destruct (is_self_link (Tag um nmm am cm)) eqn:E; [|done].
          by rewrite (self_link_not_marker _ E) in Hmm. }
        rewrite Hnsl. cbn [app].
        unfold find_all. apply list_find_none_filter.
        destruct (List.find is_self_link (descendants_of cm)) as [y|] eqn:Hy;
          [|done].
        apply find_some in Hy as [Hy1 Hy2].
        assert (Hyt : exists uy, tag_uid y = Some uy) by (destruct y; eauto; done).
        destruct Hyt as [uy Huy].
        assert (uy ∈ uids cm).
        { apply list_elem_of_omap. exists y. split; [|done].
          by apply list_elem_of_In. }
        rewrite Htext in H. by apply elem_of_nil in H. }
      split.
      * apply (find_subst_in_keep _ _ _ _ m); try done.
        intros Hin. rewrite self_and_descendants_eq in Hin.
        assert (Hin' : a' ∈ find_all is_self_link [m]).
        { unfold find_all. apply list_elem_of_In, filter_In. split; [|done].
          apply list_elem_of_In.
          change (descendants_of [m]) with (self_and_descendants m ++ []).
          by rewrite app_nil_r, self_and_descendants_eq. }
        rewrite Hnone in Hin'. by apply elem_of_nil in Hin'.
      * pose proof (count_subst_in is_self_link (uid_of m) (fun _ => []) cs2 m
                      Hoh Hnd Hdm) as Hc.
        cbv beta in Hc. rewrite Hnone in Hc.
        change (find_all is_self_link []) with (@nil node) in Hc.
        cbn [length] in Hc. lia.
Qed.

(** The iteration for a matched panel, summed up. *)
Lemma process_panel_summary pn dm dead pu pnm pa (cs : list node) F eff sfx :
  NoDup (uids cs) -> fresh_for F cs ->
  matched (Tag pu pnm pa cs) sfx ->
  process_panel pn dm dead (Tag pu pnm pa cs) F = Ok eff ->
  exists cs3 a0 b,
    e_panel eff = Tag pu pnm pa cs3
    /\ exported dead (resolve dm (dfn_id_of sfx) sfx) = Ok b
    /\ NoDup (uids cs3) /\ fresh_for (e_fresh eff) cs3 /\ F <= e_fresh eff
    /\ (forall x, x ∈ uids cs3 -> x ∈ uids cs \/ (F <= x < e_fresh eff))
    /\ (forall p, stable p ->
          (forall x, p (new_anchor x) = false) ->
          (forall x, p (new_marker x) = false) ->
          length (find_all p cs3) <= length (find_all p cs))
    /\ is_self_link a0 = true
    /\ (Forall text_only (find_all is_marker cs) ->
        find is_self_link cs3 = Some (update_anchor (dfn_id_of sfx) a0)
        /\ (length (find_all is_self_link cs) <= 1 ->
            length (find_all is_self_link cs3) = 1)).
Proof.
  intros Hnd HF Hm Hp.
  destruct (process_panel_matched _ _ _ _ _ _ _ _ _ _ Hm Hp)
    as (a & P1 & F1 & b & He & Hb & Hs).
  destruct (after_anchor _ _ _ _ _ _ _ _ (dfn_id_of sfx) Hnd HF He)
    as (cs2 & a0 & HP2 & Hnd2 & HF2 & Hle & Hsl & Hu & Hf2 & Hd2
        & Hb2 & Hc2 & Hone2).
  pose proof (after_anchor_text_only _ _ _ _ _ _ _ _ _ _ Hnd HF He HP2) as Htxt.
  rewrite HP2 in Hs.
  assert (Hta : uids (contents (update_anchor (dfn_id_of sfx) a0)) = []).
  { rewrite update_anchor_contents; [reflexivity|by destruct a0]. }
  destruct (after_sync _ _ _ _ _ _ _ _ _ _ Hnd2 HF2 Hd2 Hf2 Hta Hs)
    as (cs3 & HP3 & Hnd3 & HF3 & Hle3 & Hb3 & Hc3 & Hsl3).
  exists cs3, a0, b. repeat split; try done.
  - lia.
  - intros x Hx. destruct (Hb3 x Hx) as [Hx2|Hx2]; [|right; lia].
    destruct (Hb2 x Hx2) as [?|?]; [by left|right; lia].
  - intros p Hst Hna Hnm. etransitivity.
    + apply Hc3; [apply Hst|apply Hnm|apply Hst].
    + by apply Hc2.
  - apply Hsl3. intros m _ Hfm. specialize (Htxt H).
    rewrite Forall_forall in Htxt. apply Htxt.
    unfold find_all. apply list_elem_of_In, filter_In.
    destruct (find_elem_of _ _ _ Hfm) as [Hin Hmm].
    split; [by apply list_elem_of_In|done].
  - intros Hone.
    destruct Hsl3 as [_ Hcount].
    { intros m _ Hfm. specialize (Htxt H).
      rewrite Forall_forall in Htxt. apply Htxt.
      unfold find_all. apply list_elem_of_In, filter_In.
      destruct (find_elem_of _ _ _ Hfm) as [Hin Hmm].
      split; [by apply list_elem_of_In|done]. }
    rewrite Hcount. by apply Hone2.
Qed.

Lemma process_panel_cases pn dm dead P F eff :
  process_panel pn dm dead P F = Ok eff ->
  (exists sfx, matched P sfx) \/ (unmatched P /\ eff = unchanged P F).
Proof.
  unfold process_panel, matched, unmatched.
  destruct (panel_pid P) as [pid|e] eqn:Hpid; [|discriminate]. cbn.
  destruct (panel_re pid) as [sfx|] eqn:Hre.
  - intros _. left. by exists sfx, pid.
  - intros [= <-]. right. split; [by exists pid|done].
Qed.

(** What any iteration keeps: the panel's own name and attributes, the
    uniqueness of references, and the number of tags of a kind it does
    not create. *)
Lemma process_panel_bounds pn dm dead pu pnm pa (cs : list node) F eff :
  NoDup (uids cs) -> fresh_for F cs ->
  process_panel pn dm dead (Tag pu pnm pa cs) F = Ok eff ->
  exists cs3,
    e_panel eff = Tag pu pnm pa cs3
    /\ NoDup (uids cs3) /\ fresh_for (e_fresh eff) cs3 /\ F <= e_fresh eff
    /\ (forall x, x ∈ uids cs3 -> x ∈ uids cs \/ (F <= x < e_fresh eff))
    /\ (forall p, stable p ->
          (forall x, p (new_anchor x) = false) ->
          (forall x, p (new_marker x) = false) ->
          length (find_all p cs3) <= length (find_all p cs)).
Proof.
  intros Hnd HF Hp.
  destruct (process_panel_cases _ _ _ _ _ _ Hp) as [[sfx Hm]|[_ ->]].
  - destruct (process_panel_summary _ _ _ _ _ _ _ _ _ _ Hnd HF Hm Hp)
      as (cs3 & a0 & b & ? & ? & ? & ? & ? & ? & ? & _).
    by exists cs3.
  - exists cs. cbn. repeat split; try done. intros x Hx. by left.
Qed.

Lemma exported_nil dead r b : exported dead r = Ok b -> exported [] r = Ok b.
Proof.
  unfold exported. destruct r as [[u a]|]; [|done].
  destruct (bool_decide (u ∈ dead)); [discriminate|].
  intros H. by rewrite bool_decide_eq_false_2 by apply not_elem_of_nil.
Qed.

Lemma count_zero_find p (cs : list node) :
  length (find_all p cs) = 0 -> find p cs = None.
Proof.
  unfold find, find_all. intros H. apply list_find_none_filter.
  by destruct (List.filter p (descendants_of cs)).
Qed.

Lemma count_pos_find p (cs : list node) :
  1 <= length (find_all p cs) -> exists m, find p cs = Some m.
Proof.
  unfold find, find_all. rewrite list_find_head_filter.
  destruct (List.filter p (descendants_of cs)) as [|m l]; cbn; [lia|].
  intros _. by exists m.
Qed.

(** A second iteration on a panel that has had its own finds the anchor
    and the marker as the first one left them and changes nothing,
    provided the panel came with at most one marker, enclosing no
    element. *)
Lemma process_panel_stable pn dm dead pu pnm pa (cs : list node) F eff :
  NoDup (uids cs) -> fresh_for F cs ->
  process_panel pn dm dead (Tag pu pnm pa cs) F = Ok eff ->
  length (markers_of (Tag pu pnm pa cs)) <= 1 ->
  Forall text_only (markers_of (Tag pu pnm pa cs)) ->
  forall F2, exists O2,
    process_panel pn dm [] (e_panel eff) F2
    = Ok {| e_panel := e_panel eff; e_orphans := O2; e_dead := [];
            e_fresh := F2 |}.
Proof.
  intros Hnd HF Hp Hone Htxt F2.
  destruct (process_panel_cases _ _ _ _ _ _ Hp)
    as [[sfx Hm]|[(pid & Hpid & Hre) ->]].
  2:{ exists []. cbn [unchanged e_panel].
      by rewrite (process_panel_unmatched _ _ _ _ _ _ Hpid Hre). }
  destruct (process_panel_summary _ _ _ _ _ _ _ _ _ _ Hnd HF Hm Hp)
    as (cs3 & a0 & b & HP3 & Hb & Hnd3 & _ & _ & _ & _ & Hsl & Hfind).
  destruct (Hfind Htxt) as [Hf3 _].
  pose proof (process_panel_marker_count _ _ _ _ _ _ _ _ _ _ _
                Hnd HF Hm Hp Hb Hone) as Hcount.
  rewrite HP3 in *. unfold markers_of in Hcount. cbn [contents] in Hcount.
  set (a' := update_anchor (dfn_id_of sfx) a0) in *.
  pose proof (find_tag_uid _ _ _ _ Hf3) as Hua.
  pose proof (find_deref _ _ _ Hnd3 Hf3 Hua) as Hda.
  destruct Hm as (pid & Hpid & Hre).
  exists (contents a').
  unfold process_panel.
  change (panel_pid (Tag pu pnm pa cs3)) with (panel_pid (Tag pu pnm pa cs)).
  rewrite Hpid. cbn [mbind result_bind]. rewrite Hre.
  unfold ensure_anchor. cbn [contents]. rewrite Hf3.
  unfold mbind at 1, result_bind at 1. cbv beta iota.
  cbn [contents]. rewrite Hda. cbn [from_option].
  rewrite (exported_nil _ _ _ Hb). cbn [mbind result_bind edit].
  rewrite (subst_in_same _ _ _ a' Hnd3 Hda)
    by (subst a'; by rewrite update_anchor_idem).
  unfold sync_marker. cbn [contents].
  destruct b.
  - destruct (count_pos_find is_marker cs3 ltac:(lia)) as [m ->]. reflexivity.
  - by rewrite (count_zero_find is_marker cs3 Hcount).
Qed.

End PanelFacts.

(** ** The loop *)

Section LoopFacts.

Variable p_name : string.
Variable dfn_map : gmap string dfn_ref.

Local Abbreviation run := (Rewriter.run p_name dfn_map).
Local Abbreviation step := (Rewriter.step p_name dfn_map).

Lemma run_app (us1 us2 : list nat) (st : state) :
  run (us1 ++ us2) st = (st' ← run us1 st; run us2 st').
Proof.
  revert st. induction us1 as [|u us1 IH]; intros st; [reflexivity|].
  cbn.
  destruct (Rewriter.step p_name dfn_map st u) as [st1|e]; [|reflexivity].
  cbn. apply IH.
Qed.

Lemma step_in_context g u (st : state) :
  transparent g [u] ->
  step (in_context g st) u = (st' ← step st u; Ok (in_context g st')).
Proof.
  intros Hg. destruct (Hg u ltac:(by left)) as [Hd Hs].
  unfold Rewriter.step, in_context. cbn [soup orphans dead fresh].
  destruct (bool_decide (u ∈ dead st)); [reflexivity|].
  rewrite Hd. destruct (deref u (soup st ++ orphans st)) as [panel|];
    [|by destruct st].
  destruct (process_panel _ _ _ _ _) as [eff|e]; [|reflexivity].
  cbn. by rewrite Hs.
Qed.

Lemma run_in_context g (us : list nat) (st : state) :
  transparent g us ->
  run us (in_context g st) = (st' ← run us st; Ok (in_context g st')).
Proof.
  revert st. induction us as [|u us IH]; intros st Hg; [reflexivity|].
  cbn [Rewriter.run].
  rewrite step_in_context
    by (intros v Hv; apply list_elem_of_singleton in Hv as ->; apply Hg; by left).
  destruct (step st u) as [st1|e]; [|reflexivity].
  cbn. apply IH. intros v Hv. apply Hg. by right.
Qed.

Lemma transparent_app_r (l2 : list node) (us : list nat) :
  (forall u, u ∈ us -> u ∉ uids l2) ->
  transparent (fun S => S ++ l2) us.
Proof.
  intros Hn u Hu. specialize (Hn u Hu). split.
  - intros S O. rewrite <- app_assoc, !deref_app.
    by rewrite (deref_notin u l2).
  - intros f S. by rewrite subst_in_app, (subst_in_notin u f l2).
Qed.

Lemma transparent_app_l (l1 : list node) (us : list nat) :
  (forall u, u ∈ us -> u ∉ uids l1) ->
  transparent (fun S => l1 ++ S) us.
Proof.
  intros Hn u Hu. specialize (Hn u Hu). split.
  - intros S O. rewrite <- app_assoc, deref_app.
    by rewrite (deref_notin u l1).
  - intros f S. by rewrite subst_in_app, (subst_in_notin u f l1).
Qed.

Lemma transparent_tag v nm a (us : list nat) :
  v ∉ us ->
  transparent (fun S => [Tag v nm a S]) us.
Proof.
  intros Hn u Hu. assert (v <> u) by (intros ->; done). split.
  - intros S O. by rewrite <- app_comm_cons, deref_tag_ne.
  - intros f S. by rewrite subst_in_tag_ne.
Qed.

End LoopFacts.

(** ** Edits that extend a forest *)

Section ExtendsFacts.

Lemma fresh_for_app F (l1 l2 : list node) :
  fresh_for F (l1 ++ l2) <-> fresh_for F l1 /\ fresh_for F l2.
Proof.
  unfold fresh_for. rewrite uids_app. split.
  - intros H. split; intros u Hu; apply H; apply elem_of_app; auto.
  - intros [H1 H2] u Hu. apply elem_of_app in Hu as [Hu|Hu]; auto.
Qed.

Lemma fresh_for_le F F' (cs : list node) :
  F <= F' -> fresh_for F cs -> fresh_for F' cs.
Proof. intros Hle H u Hu. specialize (H u Hu). lia. Qed.

Lemma fresh_for_tag F v nm a (cc : list node) :
  fresh_for F [Tag v nm a cc] <-> v < F /\ fresh_for F cc.
Proof.
  unfold fresh_for. rewrite uids_tag. cbn. rewrite app_nil_r. split.
  - intros H. split; [apply H; by left|]. intros u Hu. apply H. by right.
  - intros [Hv H] u Hu. apply elem_of_cons in Hu as [->|Hu]; auto.
Qed.

Lemma extends_refl F (cs : list node) :
  NoDup (uids cs) -> fresh_for F cs -> extends F F cs cs.
Proof. intros Hnd HF. repeat split; try done. intros y Hy. by left. Qed.

Lemma extends_app F F1 F2 (l1 l1' l2 l2' : list node) :
  NoDup (uids (l1 ++ l2)) -> fresh_for F (l1 ++ l2) ->
  extends F F1 l1 l1' -> extends F1 F2 l2 l2' ->
  extends F F2 (l1 ++ l2) (l1' ++ l2').
Proof.
  intros Hnd HF (Hnd1 & HF1 & Hle1 & Hb1 & Hc1) (Hnd2 & HF2 & Hle2 & Hb2 & Hc2).
  rewrite uids_app in Hnd. apply NoDup_app in Hnd as (_ & Hdisj & _).
  apply fresh_for_app in HF as [HFa HFb].
  split; [|split; [|split; [lia|split]]].
  - rewrite uids_app. apply NoDup_app. split; [done|]. split; [|done].
    intros y Hy1 Hy2.
    destruct (Hb1 y Hy1) as [Hin1|Hr1], (Hb2 y Hy2) as [Hin2|Hr2].
    + by apply (Hdisj y).
    + specialize (HFa y Hin1). lia.
    + specialize (HFb y Hin2). lia.
    + lia.
  - apply fresh_for_app. split; [|done]. by eapply fresh_for_le.
  - intros y. rewrite !uids_app. intros Hy.
    apply elem_of_app in Hy as [Hy|Hy].
    + destruct (Hb1 y Hy); [left; apply elem_of_app; by left|right; lia].
    + destruct (Hb2 y Hy); [left; apply elem_of_app; by right|right; lia].
  - intros p Hp Ha Hm. rewrite !find_all_app, !length_app.
    specialize (Hc1 p Hp Ha Hm). specialize (Hc2 p Hp Ha Hm). lia.
Qed.

Lemma extends_tag F F' v nm a (cc cc' : list node) :
  NoDup (uids [Tag v nm a cc]) -> fresh_for F [Tag v nm a cc] ->
  extends F F' cc cc' ->
  extends F F' [Tag v nm a cc] [Tag v nm a cc'].
Proof.
  intros Hnd HF (Hnd1 & HF1 & Hle1 & Hb1 & Hc1).
  rewrite uids_tag in Hnd. cbn in Hnd. rewrite app_nil_r in Hnd.
  apply NoDup_cons in Hnd as [Hv Hnd].
  apply fresh_for_tag in HF as [HvF HFc].
  split; [|split; [|split; [lia|split]]].
  - rewrite uids_tag. cbn. rewrite app_nil_r. apply NoDup_cons. split; [|done].
    intros Hin. destruct (Hb1 v Hin); [done|lia].
  - apply fresh_for_tag. split; [lia|done].
  - intros y. rewrite !uids_tag. cbn. rewrite !app_nil_r. intros Hy.
    apply elem_of_cons in Hy as [->|Hy]; [left; by left|].
    destruct (Hb1 y Hy); [left; by right|by right].
  - intros p Hp Ha Hm. rewrite !find_all_tag, !length_app.
    destruct Hp as (Hp1 & Hp2 & Hp3).
    rewrite (Hp1 v nm a cc' cc).
    specialize (Hc1 p (conj Hp1 (conj Hp2 Hp3)) Ha Hm).
    destruct (p (Tag v nm a cc)); cbn [length]; lia.
Qed.

End ExtendsFacts.

(** ** The walk *)

Section WalkFacts.

Variable p_name : string.
Variable dfn_map : gmap string dfn_ref.

Local Abbreviation walk := (Walk.walk p_name dfn_map).
Local Abbreviation walk_forest := (Walk.walk_forest p_name dfn_map).
Local Abbreviation visit_panel := (Walk.visit_panel p_name dfn_map).

Lemma walk_forest_nil x : walk_forest [] x = Ok ([], x).
Proof. reflexivity. Qed.

Lemma walk_forest_cons c l x :
  walk_forest (c :: l) x =
  (r1 ← walk c x; r2 ← walk_forest l (snd r1); Ok (fst r1 :: fst r2, snd r2)).
Proof. reflexivity. Qed.

Lemma walk_string k s x : walk (NavigableString k s) x = Ok (NavigableString k s, x).
Proof. reflexivity. Qed.

Lemma walk_tag u nm a cc x :
  walk (Tag u nm a cc) x =
  if is_panel (Tag u nm a cc) then visit_panel (Tag u nm a cc) x
  else (r ← walk_forest cc x; Ok (Tag u nm a (fst r), snd r)).
Proof. reflexivity. Qed.

Lemma visit_panel_inv P x P' x' :
  visit_panel P x = Ok (P', x') ->
  (uid_of P ∉ x_dead x)
  /\ exists eff,
      process_panel p_name dfn_map (x_dead x) P (x_fresh x) = Ok eff
      /\ P' = e_panel eff
      /\ x' = {| x_orphans :=
                   subst_in (uid_of P) (fun _ => [e_panel eff]) (x_orphans x)
                   ++ e_orphans eff;
                 x_dead := x_dead x ++ e_dead eff;
                 x_fresh := e_fresh eff |}.
Proof.
  unfold Walk.visit_panel.
  destruct (bool_decide (uid_of P ∈ x_dead x)) eqn:Hd; [discriminate|].
  apply bool_decide_eq_false in Hd.
  destruct (process_panel _ _ _ _ _) as [eff|e]; [|discriminate].
  cbn. intros [= <- <-]. split; [done|]. by exists eff.
Qed.

Lemma visit_panel_extends pu pnm pa cs x P' x' :
  NoDup (uids [Tag pu pnm pa cs]) -> fresh_for (x_fresh x) [Tag pu pnm pa cs] ->
  visit_panel (Tag pu pnm pa cs) x = Ok (P', x') ->
  extends (x_fresh x) (x_fresh x') [Tag pu pnm pa cs] [P'].
Proof.
  intros Hnd HF Hv.
  destruct (visit_panel_inv _ _ _ _ Hv) as (_ & eff & Hp & -> & ->).
  pose proof Hnd as Hnd'. rewrite uids_tag in Hnd'. cbn in Hnd'.
  rewrite app_nil_r in Hnd'. apply NoDup_cons in Hnd' as [_ Hndc].
  pose proof HF as HF'. apply fresh_for_tag in HF' as [_ HFc].
  destruct (process_panel_bounds _ _ _ _ _ _ _ _ _ Hndc HFc Hp)
    as (cs3 & -> & Hext).
  cbn [x_fresh]. by apply extends_tag.
Qed.

Lemma walk_extends (cs : list node) :
  forall x cs' x',
    NoDup (uids cs) -> fresh_for (x_fresh x) cs ->
    walk_forest cs x = Ok (cs', x') ->
    extends (x_fresh x) (x_fresh x') cs cs'.
Proof.
  induction cs as [|k s rest IH|v nm a cc rest IHcc IH] using forest_ind;
    intros x cs' x' Hnd HF Hw.
  - injection Hw as <- <-. by apply extends_refl.
  - rewrite walk_forest_cons, walk_string in Hw. cbn in Hw.
    destruct (walk_forest rest x) as [[rest' x1]|e] eqn:Hr; [|discriminate].
    cbn in Hw. injection Hw as <- <-.
    rewrite uids_string in Hnd.
    assert (HFr : fresh_for (x_fresh x) rest) by exact HF.
    destruct (IH _ _ _ Hnd HFr Hr) as (H1 & H2 & H3 & H4 & H5).
    split; [|split; [|split; [|split]]]; try done.
    intros p Hp Ha Hm. specialize (H5 p Hp Ha Hm).
    rewrite (find_all_cons p (NavigableString k s) rest'),
      (find_all_cons p (NavigableString k s) rest), !length_app. lia.
  - rewrite walk_forest_cons in Hw.
    destruct (walk (Tag v nm a cc) x) as [[c' x1]|e] eqn:Hc; [|discriminate].
    cbn in Hw.
    destruct (walk_forest rest x1) as [[rest' x2]|e] eqn:Hr; [|discriminate].
    cbn in Hw. injection Hw as <- <-.
    change (Tag v nm a cc :: rest) with ([Tag v nm a cc] ++ rest) in *.
    pose proof Hnd as Hnd0. rewrite uids_app in Hnd0.
    apply NoDup_app in Hnd0 as (Hnd1 & _ & Hnd2).
    pose proof HF as HF0. apply fresh_for_app in HF0 as [HF1 HF2].
    assert (Hext1 : extends (x_fresh x) (x_fresh x1) [Tag v nm a cc] [c']).
    { rewrite walk_tag in Hc. destruct (is_panel (Tag v nm a cc)).
      - by apply visit_panel_extends.
      - destruct (walk_forest cc x) as [[cc' x1']|e] eqn:Hcc; [|discriminate].
        cbn in Hc. injection Hc as <- <-.
        apply extends_tag; [done..|].
        apply IHcc; [|by apply fresh_for_tag in HF1 as [_ ?]|done].
        rewrite uids_tag in Hnd1. cbn in Hnd1. rewrite app_nil_r in Hnd1.
        by apply NoDup_cons in Hnd1 as [_ ?]. }
    change (c' :: rest') with ([c'] ++ rest').
    apply (extends_app _ (x_fresh x1)); try done.
    apply IH; [done| |done].
    eapply fresh_for_le; [|done]. by destruct Hext1 as (_ & _ & ? & _).
Qed.

End WalkFacts.

(** ** The loop is the walk *)

Section RunWalk.

Variable p_name : string.
Variable dfn_map : gmap string dfn_ref.

Lemma flat_app (l1 l2 : list node) : flat (l1 ++ l2) <-> flat l1 /\ flat l2.
Proof.
  unfold flat. rewrite descendants_of_app. split.
  - intros H. split; intros P HP; apply H; apply elem_of_app; auto.
  - intros [H1 H2] P HP. apply elem_of_app in HP as [HP|HP]; auto.
Qed.

Lemma flat_tag v nm a (cc : list node) :
  flat [Tag v nm a cc] ->
  flat cc /\ (is_panel (Tag v nm a cc) = true -> find_all is_panel cc = []).
Proof.
  unfold flat. rewrite descendants_of_tag.
  change (descendants_of []) with (@nil node). rewrite app_nil_r.
  intros H. split.
  - intros P HP. apply H. by right.
  - intros Hp. apply (H (Tag v nm a cc)); [by left|done].
Qed.

Lemma panel_uids_app (l1 l2 : list node) :
  panel_uids (l1 ++ l2) = panel_uids l1 ++ panel_uids l2.
Proof. unfold panel_uids. by rewrite find_all_app, List.map_app. Qed.

Lemma panel_uids_tag v nm a (cc : list node) :
  panel_uids [Tag v nm a cc]
  = (if is_panel (Tag v nm a cc) then [v] else []) ++ panel_uids cc.
Proof.
  unfold panel_uids. rewrite find_all_tag, List.map_app.
  by destruct (is_panel _).
Qed.

Lemma panel_uids_subset (cs : list node) : panel_uids cs ⊆ uids cs.
Proof.
  unfold panel_uids, find_all, uids. intros u Hu.
  apply list_elem_of_In, in_map_iff in Hu as (P & <- & HP).
  apply filter_In in HP as [Hin Hp].
  apply list_elem_of_omap. exists P. split; [by apply list_elem_of_In|].
  destruct P; [reflexivity|discriminate].
Qed.

Lemma state_of_in_context g cs x :
  state_of (g cs) x = in_context g (state_of cs x).
Proof. reflexivity. Qed.

Lemma step_visit v nm a (cc rest : list node) x :
  v ∉ uids rest ->
  step p_name dfn_map (state_of (Tag v nm a cc :: rest) x) v
  = (r ← visit_panel p_name dfn_map (Tag v nm a cc) x;
     Ok (state_of (fst r :: rest) (snd r))).
Proof.
  intros Hv. unfold step, visit_panel.
  cbn [state_of dead soup orphans fresh].
  change (uid_of (Tag v nm a cc)) with v.
  destruct (bool_decide (v ∈ x_dead x)); [reflexivity|].
  rewrite <- app_comm_cons, deref_tag_eq.
  destruct (process_panel p_name dfn_map (x_dead x) (Tag v nm a cc)
              (x_fresh x)) as [eff|e]; [|reflexivity].
  cbn [mbind result_bind fst snd].
  change (Tag v nm a cc :: rest) with ([Tag v nm a cc] ++ rest).
  rewrite subst_in_app, subst_in_tag_eq, (subst_in_notin v _ rest) by done.
  reflexivity.
Qed.

Lemma run_walk (cs : list node) :
  forall x,
    NoDup (uids cs) -> fresh_for (x_fresh x) cs -> flat cs ->
    run p_name dfn_map (panel_uids cs) (state_of cs x)
    = (r ← walk_forest p_name dfn_map cs x; Ok (state_of (fst r) (snd r))).
Proof.
  induction cs as [|k s rest IH|v nm a cc rest IHcc IH] using forest_ind;
    intros x Hnd HF Hflat.
  - reflexivity.
  - change (NavigableString k s :: rest) with ([NavigableString k s] ++ rest)
      in *.
    apply flat_app in Hflat as [_ Hflat].
    rewrite panel_uids_app. change (panel_uids [NavigableString k s]) with (@nil nat).
    cbn [app].
    change (state_of _ x)
      with (in_context (fun S => [NavigableString k s] ++ S) (state_of rest x)).
    rewrite run_in_context.
    2:{ apply transparent_app_l. intros u _ Hu. by apply elem_of_nil in Hu. }
    rewrite IH by done.
    cbn [app]. rewrite walk_forest_cons, walk_string. cbn.
    by destruct (walk_forest p_name dfn_map rest x) as [[rest' x1]|e].
  - change (Tag v nm a cc :: rest) with ([Tag v nm a cc] ++ rest) in *.
    pose proof Hnd as Hnd0. rewrite uids_app in Hnd0.
    apply NoDup_app in Hnd0 as (Hnd1 & Hdisj & Hnd2).
    pose proof HF as HF0. apply fresh_for_app in HF0 as [HF1 HF2].
    apply flat_app in Hflat as [Hflat1 Hflat2].
    apply flat_tag in Hflat1 as [Hflatc Hnone].
    pose proof Hnd1 as Hnd1'. rewrite uids_tag in Hnd1'. cbn in Hnd1'.
    rewrite app_nil_r in Hnd1'. apply NoDup_cons in Hnd1' as [Hvcc Hndc].
    pose proof HF1 as HF1'. apply fresh_for_tag in HF1' as [HvF HFc].
    assert (Hvrest : v ∉ uids rest).
    { apply Hdisj. rewrite uids_tag. by left. }
    assert (Hnext : forall c' x1,
      walk p_name dfn_map (Tag v nm a cc) x = Ok (c', x1) ->
      run p_name dfn_map (panel_uids rest) (state_of (c' :: rest) x1)
      = (r ← walk_forest p_name dfn_map rest x1;
         Ok (state_of (c' :: fst r) (snd r)))).
    { intros c' x1 Hc.
      assert (Hw : walk_forest p_name dfn_map [Tag v nm a cc] x = Ok ([c'], x1)).
      { rewrite walk_forest_cons, Hc. reflexivity. }
      destruct (walk_extends _ _ _ _ _ _ Hnd1 HF1 Hw) as (_ & _ & Hle & Hb & _).
      change (state_of _ x1)
        with (in_context (fun S => [c'] ++ S) (state_of rest x1)).
      rewrite run_in_context.
      2:{ apply transparent_app_l. intros u Hu Hu'.
          apply panel_uids_subset in Hu.
          destruct (Hb u Hu') as [Hin|Hr].
          - by apply (Hdisj u).
          - specialize (HF2 u Hu). lia. }
      rewrite IH; [|done|by eapply fresh_for_le|done].
      by destruct (walk_forest p_name dfn_map rest x1) as [[rest' x2]|e]. }
    rewrite panel_uids_app, panel_uids_tag.
    change ([Tag v nm a cc] ++ rest) with (Tag v nm a cc :: rest).
    rewrite walk_forest_cons. rewrite walk_tag in *.
    destruct (is_panel (Tag v nm a cc)) eqn:Hp.
    + (* a panel: one iteration, at the panel *)
      specialize (Hnone eq_refl). unfold panel_uids at 1. rewrite Hnone.
      cbn [List.map app Rewriter.run].
      rewrite step_visit by done.
      destruct (visit_panel p_name dfn_map (Tag v nm a cc) x)
        as [[P' x1]|e] eqn:Hv; [|reflexivity].
      cbn [mbind result_bind fst snd].
      rewrite (Hnext _ _ eq_refl).
      by destruct (walk_forest p_name dfn_map rest _) as [[rest' x2]|e].
    + (* not a panel: the panels below it, then the rest *)
      cbn [app]. rewrite run_app.
      change (state_of _ x)
        with (in_context (fun S => S ++ rest)
                (in_context (fun S => [Tag v nm a S]) (state_of cc x))).
      rewrite run_in_context.
      2:{ apply transparent_app_r. intros u Hu. apply Hdisj.
          rewrite uids_tag. apply elem_of_cons. right.
          apply elem_of_app. left. by apply panel_uids_subset. }
      rewrite run_in_context.
      2:{ apply transparent_tag. intros Hu. apply Hvcc.
          by apply panel_uids_subset. }
      rewrite IHcc by done.
      destruct (walk_forest p_name dfn_map cc x) as [[cc' x1]|e] eqn:Hcc;
        [|reflexivity].
      cbn [mbind result_bind fst snd] in *.
      change (in_context (fun S => S ++ rest)
                (in_context (fun S => [Tag v nm a S]) (state_of cc' x1)))
        with (state_of (Tag v nm a cc' :: rest) x1).
      rewrite (Hnext _ _ eq_refl).
      by destruct (walk_forest p_name dfn_map rest x1) as [[rest' x2]|e].
Qed.

End RunWalk.

(** ** The transform, panel by panel *)

Section TransformFacts.

Variable p_name : string.

Lemma fresh_for_first_fresh (cs : list node) : fresh_for (first_fresh cs) cs.
Proof.
  unfold fresh_for, first_fresh. intros u Hu.
  assert (H : Forall (fun k => k <= list_max (uids cs)) (uids cs)).
  { by apply list_max_le. }
  rewrite Forall_forall in H. specialize (H u Hu). lia.
Qed.

Lemma NoDup_uids_elem_of (cs : list node) t :
  NoDup (uids cs) -> t ∈ descendants_of cs -> NoDup (uids [t]).
Proof.
  intros Hnd Hin. destruct t as [u nm a cc|k s]; [|apply NoDup_nil_2].
  assert (Hd : deref u cs = Some (Tag u nm a cc)) by (by apply find_by_uid).
  by destruct (deref_uids _ _ _ Hnd Hd).
Qed.

Lemma transform_walk (cs : list node) :
  NoDup (uids cs) -> flat cs ->
  transform p_name cs
  = (dm ← build_dfn_map cs;
     r ← walk_forest p_name dm cs
           {| x_orphans := []; x_dead := []; x_fresh := first_fresh cs |};
     Ok (fst r)).
Proof.
  intros Hnd Hflat. unfold transform.
  destruct (build_dfn_map cs) as [dm|e]; [|reflexivity].
  cbn [mbind result_bind].
  pose proof (run_walk p_name dm cs
                {| x_orphans := []; x_dead := []; x_fresh := first_fresh cs |}
                Hnd (fresh_for_first_fresh cs) Hflat) as H.
  unfold panel_uids, state_of in H. cbn [x_orphans x_dead x_fresh] in H.
  rewrite H.
  by destruct (walk_forest p_name dm cs _) as [[cs' x']|e].
Qed.

(** After the walk, every panel of the document is the result of its
    own iteration. *)
Lemma walk_deref dm (cs : list node) :
  forall x cs' x',
    NoDup (uids cs) -> fresh_for (x_fresh x) cs -> flat cs ->
    walk_forest p_name dm cs x = Ok (cs', x') ->
    forall P, P ∈ find_all is_panel cs ->
      exists x0 P' x1,
        visit_panel p_name dm P x0 = Ok (P', x1)
        /\ fresh_for (x_fresh x0) [P]
        /\ deref (uid_of P) cs' = Some P'.
Proof.
  induction cs as [|k s rest IH|v nm a cc rest IHcc IH] using forest_ind;
    intros x cs' x' Hnd HF Hflat Hw P HP.
  - by apply elem_of_nil in HP.
  - rewrite walk_forest_cons, walk_string in Hw. cbn in Hw.
    destruct (walk_forest p_name dm rest x) as [[rest' x1]|e] eqn:Hr;
      [|discriminate].
    cbn in Hw. injection Hw as <- <-.
    change (NavigableString k s :: rest) with ([NavigableString k s] ++ rest)
      in Hflat.
    apply flat_app in Hflat as [_ Hflat].
    destruct (IH _ _ _ Hnd HF Hflat Hr P HP) as (x0 & P' & x1' & ? & ? & Hd).
    exists x0, P', x1'. by repeat split.
  - rewrite walk_forest_cons in Hw.
    destruct (walk p_name dm (Tag v nm a cc) x) as [[c' x1]|e] eqn:Hc;
      [|discriminate].
    cbn in Hw.
    destruct (walk_forest p_name dm rest x1) as [[rest' x2]|e] eqn:Hr;
      [|discriminate].
    cbn in Hw. injection Hw as <- <-.
    change (Tag v nm a cc :: rest) with ([Tag v nm a cc] ++ rest) in *.
    pose proof Hnd as Hnd0. rewrite uids_app in Hnd0.
    apply NoDup_app in Hnd0 as (Hnd1 & Hdisj & Hnd2).
    pose proof HF as HF0. apply fresh_for_app in HF0 as [HF1 HF2].
    apply flat_app in Hflat as [Hflat1 Hflat2].
    apply flat_tag in Hflat1 as [Hflatc Hnone].
    pose proof Hnd1 as Hnd1'. rewrite uids_tag in Hnd1'. cbn in Hnd1'.
    rewrite app_nil_r in Hnd1'. apply NoDup_cons in Hnd1' as [Hvcc Hndc].
    pose proof HF1 as HF1'. apply fresh_for_tag in HF1' as [HvF HFc].
    assert (Hw1 : walk_forest p_name dm [Tag v nm a cc] x = Ok ([c'], x1)).
    { rewrite walk_forest_cons, Hc. reflexivity. }
    destruct (walk_extends _ _ _ _ _ _ Hnd1 HF1 Hw1) as (_ & _ & Hle & Hb & _).
    rewrite find_all_app in HP. apply elem_of_app in HP as [HP|HP].
    + rewrite find_all_tag in HP. rewrite walk_tag in Hc.
      destruct (is_panel (Tag v nm a cc)) eqn:Hp.
      * rewrite (Hnone eq_refl), app_nil_r in HP.
        apply list_elem_of_singleton in HP as ->.
        exists x, c', x1. split; [done|]. split; [done|].
        destruct (visit_panel_inv _ _ _ _ _ _ Hc) as (_ & eff & Hpp & -> & _).
        destruct (process_panel_bounds _ _ _ _ _ _ _ _ _ Hndc HFc Hpp)
          as (cs3 & -> & _).
        apply deref_tag_eq.
      * cbn [app] in HP.
        destruct (walk_forest p_name dm cc x) as [[cc' x1']|e] eqn:Hcc;
          [|discriminate].
        cbn in Hc. injection Hc as <- <-.
        destruct (IHcc _ _ _ Hndc HFc Hflatc Hcc P HP)
          as (x0 & P' & x3 & ? & ? & Hd).
        exists x0, P', x3. split; [done|]. split; [done|].
        assert (Hu : uid_of P ∈ uids cc).
        { apply panel_uids_subset. unfold panel_uids.
          apply list_elem_of_In, in_map. by apply list_elem_of_In. }
        cbn [app]. rewrite deref_tag_ne by (intros ->; done).
        by rewrite deref_app, Hd.
    + destruct (IH _ _ _ Hnd2 (fresh_for_le _ _ _ Hle HF2) Hflat2 Hr P HP)
        as (x0 & P' & x1' & ? & ? & Hd).
      exists x0, P', x1'. split; [done|]. split; [done|].
      assert (Hu : uid_of P ∈ uids rest).
      { apply panel_uids_subset. unfold panel_uids.
        apply list_elem_of_In, in_map. by apply list_elem_of_In. }
      change (c' :: rest') with ([c'] ++ rest').
      rewrite deref_app, deref_notin; [done|].
      intros Hin. destruct (Hb _ Hin) as [Hin'|Hr'].
      * by apply (Hdisj (uid_of P)).
      * specialize (HF2 _ Hu). lia.
Qed.

End TransformFacts.

(** ** Panels that are skipped *)

Lemma flatb_flat (cs : list node) : flatb cs = true -> flat cs.
Proof.
  unfold flatb, flat. rewrite forallb_forall. intros H P HP Hp.
  specialize (H P ltac:(by apply list_elem_of_In)). rewrite Hp in H.
  cbn in H. by destruct (find_all is_panel (contents P)).
Qed.

Lemma is_panel_elem_of (cs : list node) P :
  P ∈ find_all is_panel cs ->
  P ∈ descendants_of cs
  /\ exists pu pnm pa pcs, P = Tag pu pnm pa pcs /\ is_panel P = true.
Proof.
  unfold find_all. intros H. apply list_elem_of_In, filter_In in H as [Hin Hp].
  split; [by apply list_elem_of_In|].
  destruct P as [pu pnm pa pcs|]; [|discriminate]. by exists pu, pnm, pa, pcs.
Qed.

(** C4 (as amended). In a document where no panel lies inside another
    panel, a panel whose identifier does not match the pattern is, after
    the transform, the very subtree it was. *)
Theorem C4_unmatched_panel_unchanged (p_name : string) (cs cs' : list node)
    (P : node) :
  NoDup (uids cs) -> flat cs ->
  transform p_name cs = Ok cs' ->
  P ∈ find_all is_panel cs -> unmatched P ->
  deref (uid_of P) cs' = Some P /\ deref (uid_of P) cs = Some P.
Proof.
  intros Hnd Hflat Ht HP (pid & Hpid & Hre).
  destruct (is_panel_elem_of _ _ HP) as (Hin & pu & pnm & pa & pcs & -> & Hp).
  split; [|by apply find_by_uid].
  rewrite transform_walk in Ht by done.
  destruct (build_dfn_map cs) as [dm|e]; [|discriminate].
  cbn [mbind result_bind] in Ht.
  destruct (walk_forest p_name dm cs _) as [[cs1 x1]|e] eqn:Hw; [|discriminate].
  cbn in Ht. injection Ht as <-.
  destruct (walk_deref p_name dm cs
              {| x_orphans := []; x_dead := []; x_fresh := first_fresh cs |}
              _ _ Hnd (fresh_for_first_fresh cs) Hflat Hw _ HP)
    as (x0 & P' & x2 & Hv & _ & Hd).
  destruct (visit_panel_inv _ _ _ _ _ _ Hv) as (_ & eff & Hpp & -> & _).
  rewrite (process_panel_unmatched _ _ _ _ _ _ Hpid Hre) in Hpp.
  injection Hpp as <-. exact Hd.
Qed.

Lemma C4_unmatched_panel_unchanged_witness :
  transform "Overview.html" Examples.side_by_side
    = Ok [Examples.widget;
          Tag 2 "div" (Examples.panel_attrs "dfn-panel-for-dfn-x")
            [Tag 3 "div" []
               [update_anchor "dfn-x" (new_anchor 5)]]]
  /\ deref 1 [Examples.widget;
              Tag 2 "div" (Examples.panel_attrs "dfn-panel-for-dfn-x")
                [Tag 3 "div" []
                   [update_anchor "dfn-x" (new_anchor 5)]]]
     = Some Examples.widget.
Proof.
  assert (Ht : transform "Overview.html" Examples.side_by_side
    = Ok [Examples.widget;
          Tag 2 "div" (Examples.panel_attrs "dfn-panel-for-dfn-x")
            [Tag 3 "div" []
               [update_anchor "dfn-x" (new_anchor 5)]]]).
  { vm_compute. reflexivity. }
  split; [exact Ht|].
  refine (proj1 (C4_unmatched_panel_unchanged "Overview.html"
                   Examples.side_by_side _ Examples.widget _ _ Ht _ _)).
  - apply (bool_decide_unpack _). vm_compute. exact I.
  - apply flatb_flat. vm_compute. reflexivity.
  - apply list_elem_of_In. vm_compute. left. reflexivity.
  - exists "random-widget". split; reflexivity.
Defined.

(** C4 as stated fails: this panel's identifier does not match, and the
    transform changes its subtree, because a matching panel lies inside
    it and receives a permalink anchor. *)
Lemma C4_nested_unmatched_panel_changes :
  unmatched Examples.outer_panel
  /\ Examples.outer_panel ∈ find_all is_panel Examples.nested_panels
  /\ exists cs', transform "Overview.html" Examples.nested_panels = Ok cs'
       /\ deref 1 cs' <> Some Examples.outer_panel.
Proof.
  split; [|split].
  - exists "random-widget". split; reflexivity.
  - apply list_elem_of_In. vm_compute. left. reflexivity.
  - eexists. split; [vm_compute; reflexivity|].
    vm_compute. intros H. discriminate H.
Qed.

(** ** Panels that are rewritten *)

Lemma exported_status dead dm sfx b :
  exported dead (resolve dm (dfn_id_of sfx) sfx) = Ok b ->
  b = export_status dm sfx.
Proof.
  unfold exported, export_status.
  destruct (resolve dm (dfn_id_of sfx) sfx) as [[u a]|]; [|by intros [= <-]].
  destruct (bool_decide (u ∈ dead)); [discriminate|by intros [= <-]].
Qed.

(** After the transform of a document whose panels are not nested, each
    panel is what its own iteration made of it. *)
Lemma transform_panel (p_name : string) (cs cs' : list node) dm P :
  NoDup (uids cs) -> flat cs ->
  transform p_name cs = Ok cs' -> build_dfn_map cs = Ok dm ->
  P ∈ find_all is_panel cs ->
  exists pu pnm pa pcs dead F eff,
    P = Tag pu pnm pa pcs
    /\ process_panel p_name dm dead P F = Ok eff
    /\ NoDup (uids pcs) /\ fresh_for F pcs
    /\ deref pu cs' = Some (e_panel eff).
Proof.
  intros Hnd Hflat Ht Hdm HP.
  destruct (is_panel_elem_of _ _ HP) as (Hin & pu & pnm & pa & pcs & -> & Hp).
  rewrite transform_walk, Hdm in Ht by done.
  cbn [mbind result_bind] in Ht.
  destruct (walk_forest p_name dm cs _) as [[cs1 x1]|e] eqn:Hw; [|discriminate].
  cbn in Ht. injection Ht as <-.
  destruct (walk_deref p_name dm cs
              {| x_orphans := []; x_dead := []; x_fresh := first_fresh cs |}
              _ _ Hnd (fresh_for_first_fresh cs) Hflat Hw _ HP)
    as (x0 & P' & x2 & Hv & HF & Hd).
  destruct (visit_panel_inv _ _ _ _ _ _ Hv) as (_ & eff & Hpp & -> & _).
  exists pu, pnm, pa, pcs, (x_dead x0), (x_fresh x0), eff.
  split; [done|]. split; [done|].
  pose proof (NoDup_uids_elem_of _ _ Hnd Hin) as Hndp.
  rewrite uids_tag in Hndp. cbn in Hndp. rewrite app_nil_r in Hndp.
  apply NoDup_cons in Hndp as [_ Hndp].
  apply fresh_for_tag in HF as [_ HF]. done.
Qed.

(** C2 (as amended). In a document where no panel lies inside another
    panel, a matched panel that holds at most one exported marker holds,
    after the transform, exactly one if the definition it resolves to is
    exported, and none otherwise (also when it resolves to nothing). *)
Theorem C2_marker_follows_export_status (p_name : string)
    (cs cs' : list node) (dm : gmap string dfn_ref) (P : node)
    (sfx : string) :
  NoDup (uids cs) -> flat cs ->
  transform p_name cs = Ok cs' -> build_dfn_map cs = Ok dm ->
  P ∈ find_all is_panel cs -> matched P sfx ->
  length (markers_of P) <= 1 ->
  exists P', deref (uid_of P) cs' = Some P'
    /\ length (markers_of P') = if export_status dm sfx then 1 else 0.
Proof.
  intros Hnd Hflat Ht Hdm HP Hm Hone.
  destruct (transform_panel _ _ _ _ _ Hnd Hflat Ht Hdm HP)
    as (pu & pnm & pa & pcs & dead & F & eff & -> & Hpp & Hndp & HF & Hd).
  exists (e_panel eff). split; [exact Hd|].
  destruct (process_panel_matched _ _ _ _ _ _ _ _ _ _ Hm Hpp)
    as (_ & _ & _ & b & _ & Hb & _).
  rewrite <- (exported_status _ _ _ _ Hb).
  by eapply process_panel_marker_count.
Qed.

Lemma C2_marker_follows_export_status_witness :
  exists P', deref 2 [Examples.dfn_claims ["export"];
                      Tag 2 "div" (Examples.panel_attrs "dfn-panel-for-dfn-claims")
                        [Tag 3 "div" []
                           [update_anchor "dfn-claims" (new_anchor 4);
                            new_marker 5]]] = Some P'
    /\ length (markers_of P')
       = if export_status Examples.dfn_claims_index "claims" then 1 else 0.
Proof.
  refine (C2_marker_follows_export_status "Overview.html" Examples.scenario1 _
            Examples.dfn_claims_index Examples.scenario1_panel "claims"
            _ _ _ _ _ _ _).
  - apply (bool_decide_unpack _). vm_compute. exact I.
  - apply flatb_flat. vm_compute. reflexivity.
  - vm_compute. reflexivity.
  - vm_compute. reflexivity.
  - apply list_elem_of_In. vm_compute. left. reflexivity.
  - exists "dfn-panel-for-dfn-claims". split; reflexivity.
  - vm_compute. lia.
Defined.

(** C2 as stated fails: this panel's definition is not exported, and
    after the transform the panel still holds one exported marker. *)
Lemma C2_stale_marker_survives :
  matched Examples.two_markers_panel "claims"
  /\ exists dm cs' P',
       build_dfn_map Examples.two_markers = Ok dm
       /\ export_status dm "claims" = false
       /\ transform "Overview.html" Examples.two_markers = Ok cs'
       /\ deref 2 cs' = Some P'
       /\ length (markers_of P') = 1.
Proof.
  split.
  - exists "dfn-panel-for-dfn-claims". split; reflexivity.
  - eexists _, _, _. split; [vm_compute; reflexivity|].
    split; [vm_compute; reflexivity|].
    split; [vm_compute; reflexivity|].
    split; vm_compute; reflexivity.
Qed.

Lemma transform_dfn_map (p_name : string) (cs cs' : list node) :
  transform p_name cs = Ok cs' -> exists dm, build_dfn_map cs = Ok dm.
Proof.
  unfold transform. destruct (build_dfn_map cs) as [dm|e]; [|discriminate].
  intros _. by exists dm.
Qed.

Lemma filter_head_singleton (p : node -> bool) (l : list node) x :
  List.find p l = Some x -> length (List.filter p l) = 1 ->
  List.filter p l = [x].
Proof.
  rewrite list_find_head_filter.
  destruct (List.filter p l) as [|y [|z l']]; cbn; try discriminate.
  by intros [= ->].
Qed.

(** C3 (as amended). In a document where no panel lies inside another
    panel, a matched panel that holds at most one permalink anchor, and
    whose exported markers enclose no element, holds after the transform
    exactly one permalink anchor; its target is [#] followed by the
    computed definition identifier, its text is "Permalink", whether or
    not a definition carries that identifier. *)
Theorem C3_one_permalink_anchor (p_name : string) (cs cs' : list node)
    (P : node) (sfx : string) :
  NoDup (uids cs) -> flat cs ->
  transform p_name cs = Ok cs' ->
  P ∈ find_all is_panel cs -> matched P sfx ->
  length (anchors_of P) <= 1 ->
  Forall text_only (markers_of P) ->
  exists P' a,
    deref (uid_of P) cs' = Some P'
    /\ anchors_of P' = [a]
    /\ get "href" a = Some (AStr ("#" +:+ dfn_id_of sfx))
    /\ contents a = [NavigableString Text "Permalink"]
    /\ get "aria-label" a = Some (AStr (aria_label (dfn_id_of sfx))).
Proof.
  intros Hnd Hflat Ht HP Hm Hone Htxt.
  destruct (transform_dfn_map _ _ _ Ht) as [dm Hdm].
  destruct (transform_panel _ _ _ _ _ Hnd Hflat Ht Hdm HP)
    as (pu & pnm & pa & pcs & dead & F & eff & -> & Hpp & Hndp & HF & Hd).
  destruct (process_panel_summary _ _ _ _ _ _ _ _ _ _ Hndp HF Hm Hpp)
    as (cs3 & a0 & b & HP3 & _ & _ & _ & _ & _ & _ & Hsl & Hfind).
  destruct (Hfind Htxt) as [Hf Hc]. specialize (Hc Hone).
  assert (Ht0 : is_tag a0 = true) by (by destruct a0).
  exists (e_panel eff), (update_anchor (dfn_id_of sfx) a0).
  split; [exact Hd|]. rewrite HP3. unfold anchors_of. cbn [contents].
  split; [by apply filter_head_singleton|].
  split; [by apply update_anchor_href|].
  split; [by apply update_anchor_contents|by apply update_anchor_aria].
Qed.

Lemma C3_one_permalink_anchor_witness :
  exists P' a,
    deref 2 [Examples.dfn_claims ["export"];
             Tag 2 "div" (Examples.panel_attrs "dfn-panel-for-dfn-claims")
               [Tag 3 "div" []
                  [update_anchor "dfn-claims" (new_anchor 4);
                   new_marker 5]]] = Some P'
    /\ anchors_of P' = [a]
    /\ get "href" a = Some (AStr ("#" +:+ dfn_id_of "claims"))
    /\ contents a = [NavigableString Text "Permalink"]
    /\ get "aria-label" a = Some (AStr (aria_label (dfn_id_of "claims"))).
Proof.
  refine (C3_one_permalink_anchor "Overview.html" Examples.scenario1 _
            Examples.scenario1_panel "claims" _ _ _ _ _ _ _).
  - apply (bool_decide_unpack _). vm_compute. exact I.
  - apply flatb_flat. vm_compute. reflexivity.
  - vm_compute. reflexivity.
  - apply list_elem_of_In. vm_compute. left. reflexivity.
  - exists "dfn-panel-for-dfn-claims". split; reflexivity.
  - vm_compute. lia.
  - vm_compute. apply Forall_nil_2.
Defined.

(** C3 as stated fails: this matched panel holds two permalink anchors
    after the transform; only the first one was rewritten. *)
Lemma C3_second_anchor_remains :
  matched Examples.two_anchors_panel "claims"
  /\ exists cs' P',
       transform "Overview.html" Examples.two_anchors = Ok cs'
       /\ deref 2 cs' = Some P'
       /\ length (anchors_of P') = 2.
Proof.
  split.
  - exists "dfn-panel-for-dfn-claims". split; reflexivity.
  - eexists _, _. split; [vm_compute; reflexivity|].
    split; vm_compute; reflexivity.
Qed.

(** ** Where a new marker goes *)

Section MarkerPosition.

Lemma next_sibling_tag u v nm a (cs : list node) :
  next_sibling u (Tag v nm a cs) = next_sibling_top u cs.
Proof.
  unfold next_sibling, parent_of, next_sibling_top.
  cbn [self_and_descendants List.find contents mbind option_bind].
  unfold has_child at 1. cbn [contents].
  by destruct (existsb _ cs).
Qed.

Lemma existsb_uid_elem_of u (cs : list node) :
  existsb (fun c => bool_decide (tag_uid c = Some u)) cs = true -> u ∈ uids cs.
Proof.
  intros H. apply existsb_exists in H as (c & Hin & Hc).
  apply bool_decide_eq_true in Hc.
  apply list_elem_of_omap. exists c. split; [|done].
  apply list_elem_of_In in Hin. apply list_elem_of_split in Hin as (l1 & l2 & ->).
  rewrite descendants_of_app. apply elem_of_app. right.
  destruct c; [|discriminate]. rewrite descendants_of_tag. by left.
Qed.

Lemma has_child_none u (cs : list node) :
  u ∉ uids cs -> List.find (has_child u) (descendants_of cs) = None.
Proof.
  intros Hn. destruct (List.find _ _) as [p|] eqn:Hf; [|done].
  apply find_some in Hf as [Hin Hc]. exfalso. apply Hn.
  apply existsb_uid_elem_of in Hc.
  eapply uids_contents_subset; [|exact Hc]. by apply list_elem_of_In.
Qed.

Lemma next_sibling_top_string u k s (cs : list node) :
  next_sibling_top u (NavigableString k s :: cs) = next_sibling_top u cs.
Proof. reflexivity. Qed.

(** After [a.insert_after(m)], [m] is the next sibling of [a]. *)
Lemma next_sibling_top_insert u m (cs : list node) :
  NoDup (uids cs) -> u ∈ uids cs ->
  next_sibling_top u (subst_in u (fun n => [n; m]) cs) = Some m.
Proof.
  induction cs as [|k s rest IH|v nm a cc rest IHcc IH] using forest_ind;
    intros Hnd Hu.
  - by apply elem_of_nil in Hu.
  - change (subst_in u (fun n => [n; m]) (NavigableString k s :: rest))
      with (NavigableString k s :: subst_in u (fun n => [n; m]) rest).
    rewrite next_sibling_top_string. by apply IH.
  - rewrite uids_tag in Hnd, Hu.
    apply NoDup_cons in Hnd as [Hv Hnd].
    apply NoDup_app in Hnd as (Hndc & Hdisj & Hndr).
    destruct (decide (v = u)) as [->|Hne].
    + rewrite subst_in_tag_eq. unfold next_sibling_top. cbn.
      by rewrite bool_decide_eq_true_2.
    + rewrite subst_in_tag_ne by done.
      apply elem_of_cons in Hu as [->|Hu]; [done|].
      unfold next_sibling_top.
      cbn [existsb tag_uid next_sibling_in].
      rewrite bool_decide_eq_false_2 by congruence. cbn [orb].
      rewrite descendants_of_tag. cbn [List.find].
      unfold has_child at 1. cbn [contents].
      apply elem_of_app in Hu as [Hu|Hu].
      * (* [u] lies below the first tag *)
        specialize (IHcc Hndc Hu). unfold next_sibling_top in IHcc.
        rewrite (subst_in_notin u _ rest) by (by apply Hdisj).
        replace (existsb (fun c => bool_decide (tag_uid c = Some u)) rest)
          with false.
        2:{ symmetry. apply not_true_is_false. intros H.
            apply existsb_uid_elem_of in H. by apply (Hdisj u). }
        destruct (existsb _ (subst_in u _ cc)); [exact IHcc|].
        rewrite list_find_app.
        destruct (List.find (has_child u) (descendants_of (subst_in u _ cc)));
          [exact IHcc|discriminate].
      * (* [u] lies in the rest *)
        assert (Hucc : u ∉ uids cc).
        { intros Hin. by apply (Hdisj u). }
        specialize (IH Hndr Hu). unfold next_sibling_top in IH.
        rewrite (subst_in_notin u _ cc) by done.
        destruct (existsb _ (subst_in u _ rest)); [exact IH|].
        replace (existsb (fun c => bool_decide (tag_uid c = Some u)) cc)
          with false.
        2:{ symmetry. apply not_true_is_false. intros H.
            by apply existsb_uid_elem_of in H. }
        rewrite list_find_app, has_child_none by done. exact IH.
Qed.

(** C6 (as amended). When a new exported marker is created for a panel:
    if the permalink anchor has a following sibling (a tag or a
    non-empty string), the marker becomes the anchor's next sibling;
    otherwise it becomes the last child of the panel's first [div]
    descendant, its inner container. *)
Theorem C6_new_marker_position (a pu : nat) (pnm : string)
    (pa : list (string * attr_value)) (cs2 O : list node) (F1 : nat)
    (eff : effect) :
  NoDup (uids cs2) -> a ∈ uids cs2 ->
  find is_marker cs2 = None ->
  sync_marker true a (Tag pu pnm pa cs2) O F1 = Ok eff ->
  if from_option truthy false (next_sibling a (Tag pu pnm pa cs2))
  then next_sibling a (e_panel eff) = Some (new_marker F1)
  else exists d,
      dot_div (Tag pu pnm pa cs2) = Some d
      /\ dot_div (e_panel eff) = Some (append (new_marker F1) d)
      /\ last (contents (append (new_marker F1) d)) = Some (new_marker F1).
Proof.
  intros Hnd Ha Hnone Hs.
  destruct (sync_marker_spec _ _ _ _ _ _ _ _ _ Hs) as (cs3 & HP & _ & Hcase).
  destruct Hcase as
    [(_ & [m Hm2] & _)
    |[(_ & _ & Hns & -> & _)
    |[(_ & _ & Hns & _ & _ & d & Hdiv & ->)
    |[(Hb & _)
    |(Hb & _)]]]]; try congruence; try discriminate.
  - rewrite Hns, HP, next_sibling_tag. by apply next_sibling_top_insert.
  - rewrite Hns, HP. exists d. unfold dot_div. cbn [contents].
    split; [exact Hdiv|].
    pose proof (find_name_uid _ _ _ Hdiv) as Hud.
    destruct (find_split _ _ _ _ Hnd Hdiv Hud)
      as (pre & post & Hsp & Hpre & _ & _ & _ & Hsub).
    destruct (find_elem_of _ _ _ Hdiv) as [_ Hdn].
    destruct d as [ud nmd ad cd|]; [|discriminate].
    split.
    + unfold find. rewrite Hsub, list_find_app, list_find_map, Hpre
        by (intros y; apply on_head_edit, on_head_name_is).
      cbn [fmap option_fmap option_map append].
      rewrite descendants_of_tag. cbn [List.find app].
      replace (name_is "div" (Tag ud nmd ad (cd ++ [new_marker F1]))) with true.
      reflexivity.
    + cbn [append contents]. apply last_snoc.
Qed.

End MarkerPosition.

Lemma C6_new_marker_position_witness :
  if from_option truthy false
       (next_sibling 4 (Tag 2 "div"
                          (Examples.panel_attrs "dfn-panel-for-dfn-claims")
                          Examples.scenario1_anchored))
  then next_sibling 4 (e_panel Examples.scenario1_marked) = Some (new_marker 5)
  else exists d,
      dot_div (Tag 2 "div" (Examples.panel_attrs "dfn-panel-for-dfn-claims")
                 Examples.scenario1_anchored) = Some d
      /\ dot_div (e_panel Examples.scenario1_marked)
         = Some (append (new_marker 5) d)
      /\ last (contents (append (new_marker 5) d)) = Some (new_marker 5).
Proof.
  apply (C6_new_marker_position 4 2 "div"
           (Examples.panel_attrs "dfn-panel-for-dfn-claims")
           Examples.scenario1_anchored [] 5 Examples.scenario1_marked).
  - apply (bool_decide_unpack _). vm_compute. exact I.
  - apply (bool_decide_unpack _). vm_compute. exact I.
  - reflexivity.
  - reflexivity.
Defined.

(** C6 as stated fails: in scenario 1 the anchor has no following
    sibling, a marker is created, and it is not the panel's last child:
    that child is the inner [div], which received the marker. *)
Lemma C6_marker_is_not_the_panels_last_child :
  find is_marker Examples.scenario1_anchored = None
  /\ next_sibling 4 (Tag 2 "div"
                       (Examples.panel_attrs "dfn-panel-for-dfn-claims")
                       Examples.scenario1_anchored) = None
  /\ sync_marker true 4
       (Tag 2 "div" (Examples.panel_attrs "dfn-panel-for-dfn-claims")
          Examples.scenario1_anchored) [] 5
     = Ok Examples.scenario1_marked
  /\ last (contents (e_panel Examples.scenario1_marked))
     <> Some (new_marker 5).
Proof.
  split; [reflexivity|]. split; [reflexivity|]. split; [reflexivity|].
  vm_compute. intros H. discriminate H.
Qed.

(** ** Stale markers *)

Section StaleMarkers.

(** Among the children of a tag, an edit that replaces a tag by one of
    the same kind changes no count. *)
Lemma filter_top_subst_in (p : node -> bool) u g (cs : list node) :
  on_head p -> (forall n, p (g n) = p n) ->
  length (List.filter p (subst_in u (fun n => [g n]) cs))
  = length (List.filter p cs).
Proof.
  intros Hp Hg. induction cs as [|c cs IH]; [reflexivity|].
  change (c :: cs) with ([c] ++ cs).
  rewrite subst_in_app, !List.filter_app, !length_app, IH. f_equal.
  destruct c as [v nm a cc|k s]; [|reflexivity].
  destruct (decide (v = u)) as [->|Hne].
  - rewrite subst_in_tag_eq. cbn. rewrite Hg. by destruct (p _).
  - rewrite subst_in_tag_ne by done. cbn.
    rewrite (Hp v nm a (subst_in u _ cc) cc). by destruct (p _).
Qed.

(** Removing one tag removes at most one child. *)
Lemma filter_top_remove (p : node -> bool) u (cs : list node) :
  on_head p -> NoDup (uids cs) ->
  length (List.filter p cs)
  <= length (List.filter p (subst_in u (fun _ => []) cs)) + 1.
Proof.
  intros Hp. induction cs as [|c cs IH]; intros Hnd; [cbn; lia|].
  change (c :: cs) with ([c] ++ cs) in *.
  rewrite uids_app in Hnd. apply NoDup_app in Hnd as (Hnd1 & Hdisj & Hnd2).
  rewrite subst_in_app, !List.filter_app, !length_app.
  destruct c as [v nm a cc|k s]; [|specialize (IH Hnd2); cbn in *; lia].
  destruct (decide (v = u)) as [->|Hne].
  - rewrite subst_in_tag_eq, (subst_in_notin u _ cs).
    2:{ apply Hdisj. rewrite uids_tag. by left. }
    cbn. destruct (p _); cbn; lia.
  - rewrite subst_in_tag_ne by done. cbn.
    rewrite (Hp v nm a (subst_in u _ cc) cc). specialize (IH Hnd2).
    destruct (p _); cbn; lia.
Qed.

(** The iteration of a panel whose definition is not exported removes
    at most one of the markers among the panel's children. *)
Lemma process_panel_marker_children pn dm dead pu pnm pa (cs : list node)
    F eff sfx :
  NoDup (uids cs) -> fresh_for F cs ->
  matched (Tag pu pnm pa cs) sfx ->
  process_panel pn dm dead (Tag pu pnm pa cs) F = Ok eff ->
  exported dead (resolve dm (dfn_id_of sfx) sfx) = Ok false ->
  length (marker_children (Tag pu pnm pa cs))
  <= length (marker_children (e_panel eff)) + 1.
Proof.
  intros Hnd HF Hm Hp Hb.
  destruct (process_panel_matched _ _ _ _ _ _ _ _ _ _ Hm Hp)
    as (a & P1 & F1 & b & He & Hb' & Hs).
  rewrite Hb in Hb'. injection Hb' as <-.
  assert (Hoh : on_head is_marker) by apply on_head_is_named_class.
  destruct (ensure_anchor_spec _ _ _ _ _ _ _ _ Hnd HF He)
    as (cs1 & a0 & -> & Hf1 & Hu & Hnd1 & HF1 & Hle & Hcase).
  destruct (update_anchor_spec cs1 a a0 (dfn_id_of sfx) Hnd1 Hf1 Hu)
    as (Hd1 & Hf2 & Hd2 & Hnd2 & Hsub2).
  cbn [edit] in Hs.
  destruct (sync_marker_spec _ _ _ _ _ _ _ _ _ Hs) as (cs3 & -> & _ & Hcase3).
  unfold marker_children. cbn [contents].
  assert (H1 : length (List.filter is_marker cs1)
               = length (List.filter is_marker cs)).
  { destruct Hcase as [(_ & -> & _)|(_ & _ & _ & d & Hdiv & _ & ->)]; [done|].
    apply (filter_top_subst_in is_marker _ (insert0 (new_anchor F))); [done|].
    intros [v nm at0 cc|k s]; [apply Hoh|reflexivity]. }
  assert (H2 : length (List.filter is_marker
                         (subst_in a (fun n => [update_anchor (dfn_id_of sfx) n]) cs1))
               = length (List.filter is_marker cs1)).
  { apply (filter_top_subst_in is_marker _ (update_anchor (dfn_id_of sfx)));
      [done|]. intros n. apply update_anchor_is_marker. }
  destruct Hcase3 as
    [(Hx & _)|[(Hx & _)|[(Hx & _)
    |[(_ & _ & m & Hm2 & -> & _)
    |(_ & _ & -> & _)]]]]; try discriminate.
  - pose proof (filter_top_remove is_marker (uid_of m) _ Hoh Hnd2). lia.
  - lia.
Qed.

End StaleMarkers.

Section FirstMarker.

(** An edit elsewhere leaves the tags of a kind alone when none of them
    encloses an element. *)
Lemma filter_map_edit_text_only (p : node -> bool) u f (l : list node) :
  on_head p -> (forall n, n ∈ l -> p n = true -> text_only n) ->
  List.filter p (List.map (edit u f) l) = List.filter p l.
Proof.
  intros Hp. induction l as [|n l IH]; intros Hall; [reflexivity|].
  cbn [List.map List.filter]. rewrite (on_head_edit p u f n Hp).
  rewrite IH by (intros x Hx; apply Hall; by right).
  destruct (p n) eqn:Hn; [|reflexivity]. f_equal.
  apply edit_notin. rewrite (Hall n) by (done || by left).
  apply not_elem_of_nil.
Qed.

Lemma find_all_single (p : node -> bool) (t : node) :
  find_all p [t] = List.filter p (t :: descendants_of (contents t)).
Proof.
  unfold find_all. cbn [descendants_of flat_map].
  by rewrite app_nil_r, self_and_descendants_eq.
Qed.

Lemma find_all_subst_in_text_only (p : node -> bool) u (cs : list node) t :
  on_head p -> NoDup (uids cs) -> deref u cs = Some t ->
  Forall text_only (find_all p cs) ->
  exists L1 L2,
    find_all p cs = L1 ++ find_all p [t] ++ L2
    /\ (forall f, find_all p (subst_in u f cs) = L1 ++ find_all p (f t) ++ L2)
    /\ (find p cs = Some t -> L1 = []).
Proof.
  intros Hp Hnd Hd Hall.
  destruct (subst_in_split u cs t Hnd Hd)
    as (pre & post & Hsp & Hpre & _ & Hsub).
  exists (List.filter p pre), (List.filter p post).
  assert (Hcs : find_all p cs
                = List.filter p pre ++ find_all p [t] ++ List.filter p post).
  { rewrite find_all_single. unfold find_all at 1.
    rewrite Hsp, List.filter_app.
    change (t :: descendants_of (contents t) ++ post)
      with ((t :: descendants_of (contents t)) ++ post).
    by rewrite List.filter_app. }
  split; [exact Hcs|]. split.
  - intros f. unfold find_all at 1. rewrite Hsub, !List.filter_app.
    rewrite filter_map_edit_text_only; [reflexivity|done|].
    intros n Hn Hpn. rewrite Forall_forall in Hall. apply Hall.
    unfold find_all. rewrite Hsp. apply list_elem_of_In, filter_In.
    split; [|done]. apply list_elem_of_In, elem_of_app. by left.
  - intros Hf. unfold find in Hf. rewrite Hsp, list_find_app in Hf.
    destruct (List.find p pre) as [x|] eqn:Hx.
    + injection Hf as ->. exfalso. apply Hpre.
      apply find_some in Hx as [Hin _]. apply list_elem_of_omap.
      exists t. split; [by apply list_elem_of_In|by eapply deref_uid].
    + by apply list_find_none_filter.
Qed.

Lemma find_all_no_tags (p : node -> bool) (cs : list node) :
  (forall k s, p (NavigableString k s) = false) ->
  uids cs = [] -> find_all p cs = [].
Proof.
  intros Hs. unfold uids, find_all.
  induction (descendants_of cs) as [|n l IH]; [done|].
  destruct n as [u nm' a cc|k s]; cbn; [discriminate|].
  rewrite Hs. exact IH.
Qed.

(** The iteration of a matched panel whose definition is not exported
    removes the first marker below the panel and nothing else of that
    kind. *)
Lemma process_panel_markers_tail pn dm dead pu pnm pa (cs : list node)
    F eff sfx :
  NoDup (uids cs) -> fresh_for F cs ->
  matched (Tag pu pnm pa cs) sfx ->
  process_panel pn dm dead (Tag pu pnm pa cs) F = Ok eff ->
  exported dead (resolve dm (dfn_id_of sfx) sfx) = Ok false ->
  Forall text_only (find_all is_marker cs) ->
  (forall a0, find is_self_link cs = Some a0 ->
     find_all is_marker (contents a0) = []) ->
  markers_of (e_panel eff) = tail (find_all is_marker cs).
Proof.
  intros Hnd HF Hm Hp Hb Hall Hanchor.
  destruct (process_panel_matched _ _ _ _ _ _ _ _ _ _ Hm Hp)
    as (a & P1 & F1 & b & He & Hb' & Hs).
  rewrite Hb in Hb'. injection Hb' as <-.
  assert (Hoh : on_head is_marker) by apply on_head_is_named_class.
  destruct (ensure_anchor_spec _ _ _ _ _ _ _ _ Hnd HF He)
    as (cs1 & a0 & -> & Hf1 & Hu & Hnd1 & HF1 & Hle & Hcase).
  destruct (update_anchor_spec cs1 a a0 (dfn_id_of sfx) Hnd1 Hf1 Hu)
    as (Hd1 & Hf2 & Hd2 & Hnd2 & Hsub2).
  cbn [edit] in Hs.
  destruct (sync_marker_spec _ _ _ _ _ _ _ _ _ Hs) as (cs3 & -> & _ & Hcase3).
  unfold markers_of. cbn [contents].
  destruct (find_elem_of _ _ _ Hf1) as [_ Hsl].
  pose proof (is_named_class_tag _ _ _ Hsl) as Htag.
  (* the anchor step leaves the markers as they are *)
  assert (H1 : find_all is_marker cs1 = find_all is_marker cs
               /\ find_all is_marker (contents a0) = []).
  { destruct Hcase as [(Hf & -> & _)|(_ & -> & _ & d & Hdiv & Hdd & ->)].
    - split; [done|by apply Hanchor].
    - split; [|reflexivity].
      destruct (find_all_subst_in_text_only is_marker (uid_of d) cs d
                  Hoh Hnd Hdd Hall) as (L1 & L2 & Hcs & Hsub & _).
      rewrite Hsub, Hcs. f_equal. f_equal.
      destruct (find_elem_of _ _ _ Hdiv) as [_ Hdn].
      destruct d as [du dnm da dc|]; [|discriminate].
      assert (Hnm : is_marker (Tag du dnm da dc) = false).
      { unfold is_marker, is_named_class. cbn [name_is] in Hdn |- *.
        apply String.eqb_eq in Hdn as ->. reflexivity. }
      cbn [insert0]. rewrite !find_all_tag.
      rewrite (Hoh du dnm da (new_anchor F :: dc) dc), Hnm. cbn [app].
      by rewrite (find_all_cons is_marker (new_anchor F) dc). }
  destruct H1 as [H1 Ha0].
  assert (Hall1 : Forall text_only (find_all is_marker cs1)) by by rewrite H1.
  assert (H2 : find_all is_marker
                 (subst_in a (fun n => [update_anchor (dfn_id_of sfx) n]) cs1)
               = find_all is_marker cs1).
  { destruct (find_all_subst_in_text_only is_marker a cs1 a0
                Hoh Hnd1 Hd1 Hall1) as (L1 & L2 & Hcs & Hsub & _).
    rewrite Hsub, Hcs. f_equal. f_equal.
    rewrite (find_all_updated_anchor _ _ _ Htag eq_refl).
    rewrite update_anchor_is_marker, (self_link_not_marker _ Hsl).
    destruct a0 as [u0 nm0 at0 cc0|]; [|discriminate].
    rewrite find_all_tag, (self_link_not_marker _ Hsl). cbn [app].
    cbn [contents] in Ha0. by rewrite Ha0. }
  destruct Hcase3 as
    [(Hx & _)|[(Hx & _)|[(Hx & _)
    |[(_ & _ & m & Hm2 & -> & _)
    |(_ & Hnone & -> & _)]]]]; try discriminate.
  - pose proof (find_deref _ _ _ Hnd2 Hm2 (find_tag_uid _ _ _ _ Hm2)) as Hdm.
    assert (Hall2 : Forall text_only
              (find_all is_marker
                 (subst_in a (fun n => [update_anchor (dfn_id_of sfx) n]) cs1)))
      by by rewrite H2.
    destruct (find_all_subst_in_text_only is_marker (uid_of m) _ m
                Hoh Hnd2 Hdm Hall2) as (L1 & L2 & Hcs & Hsub & Hfirst).
    rewrite (Hfirst Hm2) in Hcs, Hsub.
    rewrite Hsub. rewrite <- H1, <- H2, Hcs. cbn [app].
    destruct (find_elem_of _ _ _ Hm2) as [_ Hpm].
    destruct m as [mu mnm ma mc|]; [|discriminate].
    rewrite find_all_tag, Hpm.
    assert (Hmc : find_all is_marker mc = []).
    { apply find_all_no_tags; [done|].
      rewrite Forall_forall in Hall2.
      apply (Hall2 (Tag mu mnm ma mc)).
      rewrite Hcs, find_all_tag, Hpm. by left. }
    rewrite Hmc. reflexivity.
  - apply find_none_count in Hnone. rewrite H2, H1 in Hnone |- *.
    destruct (find_all is_marker cs); [reflexivity|discriminate].
Qed.

End FirstMarker.


(** C10 (as amended). In a document where no panel lies inside another
    one, take a matched panel whose definition is not exported (or not
    found), whose markers enclose no element and whose first permalink
    anchor encloses no marker. The transform removes exactly the first
    marker below the panel in document order, which need not be a child
    of the panel, and leaves the other markers as they are: the markers
    after the transform are the markers before it without the first.
    So the panel ends with at most one marker exactly when it had at
    most two; and of two or more markers among its children at least
    one remains. *)
Theorem C10_first_stale_marker_removed (p_name : string) (cs cs' : list node)
    (dm : gmap string dfn_ref) (P : node) (sfx : string) :
  NoDup (uids cs) -> flat cs ->
  transform p_name cs = Ok cs' -> build_dfn_map cs = Ok dm ->
  P ∈ find_all is_panel cs -> matched P sfx ->
  export_status dm sfx = false ->
  Forall text_only (markers_of P) ->
  (forall a0, find is_self_link (contents P) = Some a0 -> markers_of a0 = []) ->
  exists P', deref (uid_of P) cs' = Some P'
    /\ markers_of P' = tail (markers_of P)
    /\ (length (markers_of P') <= 1 <-> length (markers_of P) <= 2)
    /\ (2 <= length (marker_children P) ->
        length (marker_children P) <= length (marker_children P') + 1
        /\ 1 <= length (marker_children P')).
Proof.
  intros Hnd Hflat Ht Hdm HP Hm Hex Hall Hanchor.
  destruct (transform_panel _ _ _ _ _ Hnd Hflat Ht Hdm HP)
    as (pu & pnm & pa & pcs & dead & F & eff & -> & Hpp & Hndp & HF & Hd).
  exists (e_panel eff). split; [exact Hd|].
  destruct (process_panel_matched _ _ _ _ _ _ _ _ _ _ Hm Hpp)
    as (_ & _ & _ & b & _ & Hb & _).
  pose proof (exported_status _ _ _ _ Hb) as Hbs. rewrite Hex in Hbs. subst b.
  pose proof (process_panel_markers_tail _ _ _ _ _ _ _ _ _ _
                Hndp HF Hm Hpp Hb Hall Hanchor) as Htail.
  split; [exact Htail|]. split.
  - rewrite Htail. unfold markers_of. cbn [contents].
    destruct (find_all is_marker pcs) as [|m l]; cbn [tail length]; lia.
  - intros Htwo.
    pose proof (process_panel_marker_children _ _ _ _ _ _ _ _ _ _
                  Hndp HF Hm Hpp Hb) as Hle.
    split; [exact Hle|lia].
Qed.

Lemma C10_first_stale_marker_removed_witness :
  exists P', deref (uid_of Examples.deep_marker_panel) Examples.deep_marker_done
             = Some P'
    /\ markers_of P' = tail (markers_of Examples.deep_marker_panel)
    /\ (length (markers_of P') <= 1
        <-> length (markers_of Examples.deep_marker_panel) <= 2)
    /\ (2 <= length (marker_children Examples.deep_marker_panel) ->
        length (marker_children Examples.deep_marker_panel)
        <= length (marker_children P') + 1
        /\ 1 <= length (marker_children P')).
Proof.
  refine (C10_first_stale_marker_removed "Overview.html" Examples.deep_marker
            Examples.deep_marker_done
            {[ "dfn-claims" := (1, [("id", AStr "dfn-claims"); ("class", AList [])]) ]}
            Examples.deep_marker_panel "claims" _ _ _ _ _ _ _ _ _).
  - apply (bool_decide_unpack _). vm_compute. exact I.
  - apply flatb_flat. vm_compute. reflexivity.
  - vm_compute. reflexivity.
  - vm_compute. reflexivity.
  - apply list_elem_of_In. vm_compute. left. reflexivity.
  - exists "dfn-panel-for-dfn-claims". split; reflexivity.
  - vm_compute. reflexivity.
  - apply Forall_forall. intros m Hm. apply list_elem_of_In in Hm.
    vm_compute in Hm. destruct Hm as [<-|[<-|[<-|[]]]]; reflexivity.
  - intros a0 Ha. vm_compute in Ha. injection Ha as <-. reflexivity.
Defined.

(** C10 as stated fails when panels are nested: the inner panel enters
    with two markers among its children and is not exported; the outer
    panel's iteration removes the first one, its own iteration the
    second, and none remains. *)
Lemma C10_nested_panel_loses_both_markers :
  matched Examples.inner_two_markers "p"
  /\ length (marker_children Examples.inner_two_markers) = 2
  /\ exists dm cs' P',
       build_dfn_map Examples.nested_two_markers = Ok dm
       /\ export_status dm "p" = false
       /\ transform "Overview.html" Examples.nested_two_markers = Ok cs'
       /\ deref 3 cs' = Some P'
       /\ length (marker_children P') = 0.
Proof.
  split; [exists "dfn-panel-for-dfn-p"; split; reflexivity|].
  split; [reflexivity|].
  eexists _, _, _. split; [vm_compute; reflexivity|].
  split; [vm_compute; reflexivity|].
  split; [vm_compute; reflexivity|].
  split; vm_compute; reflexivity.
Qed.

(** With exactly two stale markers the panel ends with one: here the
    transform does restore the at-most-one-marker property. *)
Lemma two_stale_markers_leave_one :
  matched Examples.two_markers_panel "claims"
  /\ length (marker_children Examples.two_markers_panel) = 2
  /\ exists dm cs' P',
       build_dfn_map Examples.two_markers = Ok dm
       /\ export_status dm "claims" = false
       /\ transform "Overview.html" Examples.two_markers = Ok cs'
       /\ deref 2 cs' = Some P'
       /\ length (markers_of P') = 1
       /\ length (marker_children P') = 1.
Proof.
  split; [exists "dfn-panel-for-dfn-claims"; split; reflexivity|].
  split; [reflexivity|].
  eexists _, _, _. split; [vm_compute; reflexivity|].
  split; [vm_compute; reflexivity|].
  split; [vm_compute; reflexivity|].
  split; [vm_compute; reflexivity|].
  split; vm_compute; reflexivity.
Qed.

(** The marker that goes is the first one below the panel, not the
    first one among its children: here it lies in the inner [div], and
    both marker children stay. *)
Lemma first_marker_need_not_be_a_child :
  matched Examples.deep_marker_panel "claims"
  /\ length (marker_children Examples.deep_marker_panel) = 2
  /\ length (markers_of Examples.deep_marker_panel) = 3
  /\ transform "Overview.html" Examples.deep_marker
     = Ok Examples.deep_marker_done
  /\ exists P', deref 2 Examples.deep_marker_done = Some P'
       /\ marker_children P' = marker_children Examples.deep_marker_panel
       /\ length (markers_of P') = 2.
Proof.
  split; [exists "dfn-panel-for-dfn-claims"; split; reflexivity|].
  split; [reflexivity|]. split; [reflexivity|].
  split; [vm_compute; reflexivity|].
  eexists. split; [vm_compute; reflexivity|].
  split; vm_compute; reflexivity.
Qed.

(** A marker inside the anchor goes with the anchor's old contents, and
    the marker after it is then the first one found: of two markers
    none is left. *)
Lemma marker_inside_anchor_goes_too :
  matched Examples.marker_in_anchor_panel "claims"
  /\ length (markers_of Examples.marker_in_anchor_panel) = 2
  /\ exists cs' P',
       transform "Overview.html" [Examples.marker_in_anchor_panel] = Ok cs'
       /\ deref 1 cs' = Some P'
       /\ markers_of P' = [].
Proof.
  split; [exists "dfn-panel-for-dfn-claims"; split; reflexivity|].
  split; [reflexivity|].
  eexists _, _. split; [vm_compute; reflexivity|].
  split; vm_compute; reflexivity.
Qed.

(** A marker enclosed in the first marker goes with it: of three
    markers one is left. *)
Lemma marker_inside_marker_goes_too :
  matched Examples.marker_in_marker_panel "claims"
  /\ length (markers_of Examples.marker_in_marker_panel) = 3
  /\ exists cs' P',
       transform "Overview.html" [Examples.marker_in_marker_panel] = Ok cs'
       /\ deref 1 cs' = Some P'
       /\ length (markers_of P') = 1.
Proof.
  split; [exists "dfn-panel-for-dfn-claims"; split; reflexivity|].
  split; [reflexivity|].
  eexists _, _. split; [vm_compute; reflexivity|].
  split; vm_compute; reflexivity.
Qed.

(** ** Running the transform twice *)

Section Idempotence.

Variable p_name : string.
Variable dm : gmap string dfn_ref.

Lemma for_panels_app Q (l1 l2 : list node) :
  for_panels Q (l1 ++ l2) <-> for_panels Q l1 /\ for_panels Q l2.
Proof.
  unfold for_panels. split.
  - intros H. split; intros P HP; apply H; rewrite find_all_app;
      apply elem_of_app; auto.
  - intros [H1 H2] P HP. rewrite find_all_app in HP.
    apply elem_of_app in HP as [HP|HP]; auto.
Qed.

Lemma for_panels_tag Q v nm a (cc : list node) :
  for_panels Q [Tag v nm a cc] ->
  for_panels Q cc /\ (is_panel (Tag v nm a cc) = true -> Q (Tag v nm a cc)).
Proof.
  unfold for_panels. intros H. split.
  - intros P HP. apply H. rewrite find_all_tag. apply elem_of_app. by right.
  - intros Hp. apply H. rewrite find_all_tag, Hp. by left.
Qed.

Lemma flat_tag_intro v nm a (cc : list node) :
  flat cc ->
  (is_panel (Tag v nm a cc) = true -> find_all is_panel cc = []) ->
  flat [Tag v nm a cc].
Proof.
  unfold flat. intros Hcc Hp P HP Hpp.
  rewrite descendants_of_tag in HP.
  change (descendants_of []) with (@nil node) in HP. rewrite app_nil_r in HP.
  apply elem_of_cons in HP as [->|HP]; [by apply Hp|by apply Hcc].
Qed.

Lemma flat_no_panels (cs : list node) : find_all is_panel cs = [] -> flat cs.
Proof.
  intros Hn P HP Hp. exfalso.
  assert (P ∈ find_all is_panel cs).
  { unfold find_all. apply list_elem_of_In, filter_In.
    split; [by apply list_elem_of_In|done]. }
  rewrite Hn in H. by apply elem_of_nil in H.
Qed.

Lemma is_panel_not_dfn n : is_panel n = true -> name_is "dfn" n = false.
Proof.
  unfold is_panel, is_named_class. destruct n as [u nm a cc|]; [|done]. cbn.
  destruct (String.eqb_spec nm "div") as [->|]; [reflexivity|done].
Qed.

Lemma ref_of_tag v nm a (c1 c2 : list node) :
  ref_of (Tag v nm a c1) = ref_of (Tag v nm a c2).
Proof. reflexivity. Qed.

Lemma walk_stable (cs : list node) :
  forall x cs' x',
    NoDup (uids cs) -> fresh_for (x_fresh x) cs -> flat cs ->
    no_dfn_in_panels cs -> tidy_markers cs ->
    walk_forest p_name dm cs x = Ok (cs', x') ->
    flat cs'
    /\ List.map ref_of (find_all (name_is "dfn") cs')
       = List.map ref_of (find_all (name_is "dfn") cs)
    /\ (forall y, x_dead y = [] ->
          exists y', walk_forest p_name dm cs' y = Ok (cs', y')
                     /\ x_dead y' = []).
Proof.
  induction cs as [|k s rest IH|v nm a cc rest IHcc IH] using forest_ind;
    intros x cs' x' Hnd HF Hflat Hdfn Htidy Hw.
  - injection Hw as <- <-. split; [done|]. split; [done|].
    intros y Hy. by exists y.
  - rewrite walk_forest_cons, walk_string in Hw. cbn in Hw.
    destruct (walk_forest p_name dm rest x) as [[rest' x1]|e] eqn:Hr;
      [|discriminate].
    cbn in Hw. injection Hw as <- <-.
    change (NavigableString k s :: rest) with ([NavigableString k s] ++ rest)
      in *.
    apply flat_app in Hflat as [_ Hflat].
    apply for_panels_app in Hdfn as [_ Hdfn].
    apply for_panels_app in Htidy as [_ Htidy].
    destruct (IH _ _ _ Hnd HF Hflat Hdfn Htidy Hr) as (Hfl & Hrefs & Hst).
    change (NavigableString k s :: rest') with ([NavigableString k s] ++ rest').
    split; [apply flat_app; split; [by apply flat_no_panels|done]|].
    split; [by rewrite !find_all_app, !List.map_app, Hrefs|].
    intros y Hy. destruct (Hst y Hy) as (y' & Hwy & Hdy).
    exists y'. split; [|done].
    cbn [app]. rewrite walk_forest_cons, walk_string. cbn. by rewrite Hwy.
  - rewrite walk_forest_cons in Hw.
    destruct (walk p_name dm (Tag v nm a cc) x) as [[c' x1]|e] eqn:Hc;
      [|discriminate].
    cbn in Hw.
    destruct (walk_forest p_name dm rest x1) as [[rest' x2]|e] eqn:Hr;
      [|discriminate].
    cbn in Hw. injection Hw as <- <-.
    change (Tag v nm a cc :: rest) with ([Tag v nm a cc] ++ rest) in *.
    pose proof Hnd as Hnd0. rewrite uids_app in Hnd0.
    apply NoDup_app in Hnd0 as (Hnd1 & Hdisj & Hnd2).
    pose proof HF as HF0. apply fresh_for_app in HF0 as [HF1 HF2].
    apply flat_app in Hflat as [Hflat1 Hflat2].
    apply flat_tag in Hflat1 as [Hflatc Hnone].
    apply for_panels_app in Hdfn as [Hdfn1 Hdfn2].
    apply for_panels_tag in Hdfn1 as [Hdfnc Hdfnp].
    apply for_panels_app in Htidy as [Htidy1 Htidy2].
    apply for_panels_tag in Htidy1 as [Htidyc Htidyp].
    pose proof Hnd1 as Hnd1'. rewrite uids_tag in Hnd1'. cbn in Hnd1'.
    rewrite app_nil_r in Hnd1'. apply NoDup_cons in Hnd1' as [Hvcc Hndc].
    pose proof HF1 as HF1'. apply fresh_for_tag in HF1' as [HvF HFc].
    assert (Hw1 : walk_forest p_name dm [Tag v nm a cc] x = Ok ([c'], x1)).
    { rewrite walk_forest_cons, Hc. reflexivity. }
    destruct (walk_extends _ _ _ _ _ _ Hnd1 HF1 Hw1) as (_ & _ & Hle & _ & _).
    destruct (IH _ _ _ Hnd2 (fresh_for_le _ _ _ Hle HF2) Hflat2 Hdfn2 Htidy2 Hr)
      as (Hfl & Hrefs & Hst).
    assert (Hhead : flat [c']
      /\ List.map ref_of (find_all (name_is "dfn") [c'])
         = List.map ref_of (find_all (name_is "dfn") [Tag v nm a cc])
      /\ (forall y, x_dead y = [] ->
            exists y', walk p_name dm c' y = Ok (c', y') /\ x_dead y' = [])).
    { rewrite walk_tag in Hc. destruct (is_panel (Tag v nm a cc)) eqn:Hp.
      - destruct (visit_panel_inv _ _ _ _ _ _ Hc) as (_ & eff & Hpp & -> & _).
        destruct (process_panel_bounds _ _ _ _ _ _ _ _ _ Hndc HFc Hpp)
          as (cs3 & HP3 & _ & _ & _ & _ & Hcount).
        assert (Hnp : find_all is_panel cs3 = []).
        { specialize (Hcount is_panel (stable_is_named_class _ _)
                        ltac:(done) ltac:(done)).
          rewrite (Hnone eq_refl) in Hcount.
          by destruct (find_all is_panel cs3); [|cbn in Hcount; lia]. }
        assert (Hnd3 : find_all (name_is "dfn") cs3 = []).
        { specialize (Hcount (name_is "dfn") (stable_name_is _)
                        ltac:(done) ltac:(done)).
          cbn [contents] in Hdfnp. rewrite (Hdfnp eq_refl) in Hcount.
          by destruct (find_all (name_is "dfn") cs3); [|cbn in Hcount; lia]. }
        rewrite HP3. split; [|split].
        + apply flat_tag_intro; [by apply flat_no_panels|done].
        + rewrite !find_all_tag, Hnd3. cbn [contents] in Hdfnp.
          rewrite (Hdfnp eq_refl).
          rewrite (on_head_name_is "dfn" v nm a cs3 cc),
            (is_panel_not_dfn _ Hp). reflexivity.
        + intros y Hy.
          destruct (Htidyp eq_refl) as [Hone Htxt].
          destruct (process_panel_stable _ _ _ _ _ _ _ _ _ Hndc HFc Hpp
                      Hone Htxt (x_fresh y)) as [O2 Hst2].
          rewrite HP3 in Hst2.
          eexists. rewrite walk_tag.
          replace (is_panel (Tag v nm a cs3)) with true
            by (rewrite <- Hp; apply (on_head_is_named_class "div" "dfn-panel")).
          unfold visit_panel. rewrite Hy.
          rewrite bool_decide_eq_false_2 by apply not_elem_of_nil.
          rewrite Hst2. cbn [mbind result_bind e_panel e_dead e_fresh e_orphans].
          split; [reflexivity|]. reflexivity.
      - destruct (walk_forest p_name dm cc x) as [[cc' x1']|e] eqn:Hcc;
          [|discriminate].
        cbn in Hc. injection Hc as <- <-.
        destruct (IHcc _ _ _ Hndc HFc Hflatc Hdfnc Htidyc Hcc)
          as (Hflc & Hrefsc & Hstc).
        assert (Hp' : is_panel (Tag v nm a cc') = false).
        { rewrite <- Hp. apply (on_head_is_named_class "div" "dfn-panel"). }
        split; [|split].
        + apply flat_tag_intro; [done|]. by rewrite Hp'.
        + rewrite !find_all_tag, !List.map_app, Hrefsc.
          rewrite (on_head_name_is "dfn" v nm a cc' cc).
          by destruct (name_is "dfn" (Tag v nm a cc)).
        + intros y Hy. destruct (Hstc y Hy) as (y' & Hwy & Hdy).
          exists y'. split; [|done].
          rewrite walk_tag, Hp', Hwy. reflexivity. }
    destruct Hhead as (Hfl1 & Hrefs1 & Hst1).
    change (c' :: rest') with ([c'] ++ rest').
    split; [by apply flat_app|].
    split; [by rewrite !find_all_app, !List.map_app, Hrefs, Hrefs1|].
    intros y Hy. destruct (Hst1 y Hy) as (y1 & Hwy1 & Hdy1).
    destruct (Hst y1 Hdy1) as (y2 & Hwy2 & Hdy2).
    exists y2. split; [|done].
    cbn [app]. rewrite walk_forest_cons, Hwy1. cbn. by rewrite Hwy2.
Qed.

End Idempotence.

Lemma dfn_map_add_ref acc (t t' : node) :
  ref_of t = ref_of t' -> dfn_map_add acc t = dfn_map_add acc t'.
Proof.
  unfold dfn_map_add, get. intros H. rewrite H.
  unfold ref_of in H. injection H as _ ->. reflexivity.
Qed.

Lemma foldl_dfn_map_add_refs (l : list node) :
  forall l' acc, List.map ref_of l = List.map ref_of l' ->
    foldl dfn_map_add acc l = foldl dfn_map_add acc l'.
Proof.
  induction l as [|t l IH]; intros [|t' l'] acc H; try discriminate;
    [reflexivity|].
  cbn [List.map] in H. apply (f_equal head) in H as Ht.
  apply (f_equal tail) in H as Hl. cbn in Ht, Hl.
  injection Ht as Ht. cbn [foldl].
  rewrite (dfn_map_add_ref acc t t'); [by apply IH|].
  unfold ref_of. congruence.
Qed.

(** C1 (as amended). For a document in which no panel lies inside
    another panel, panels enclose no definition element, and every panel
    holds at most one exported marker, which encloses no element: if the
    transform completes with the document [cs'], then the transform of
    [cs'] completes with [cs'] again. *)
Theorem C1_transform_idempotent (p_name : string) (cs cs' : list node) :
  NoDup (uids cs) -> flat cs ->
  no_dfn_in_panels cs -> tidy_markers cs ->
  transform p_name cs = Ok cs' ->
  transform p_name cs' = Ok cs'.
Proof.
  intros Hnd Hflat Hdfn Htidy Ht.
  rewrite transform_walk in Ht by done.
  destruct (build_dfn_map cs) as [dm|e] eqn:Hdm; [|discriminate].
  cbn [mbind result_bind] in Ht.
  destruct (walk_forest p_name dm cs _) as [[cs1 x1]|e] eqn:Hw; [|discriminate].
  cbn in Ht. injection Ht as <-.
  pose proof (fresh_for_first_fresh cs) as HF.
  destruct (walk_extends p_name dm cs
              {| x_orphans := []; x_dead := []; x_fresh := first_fresh cs |}
              _ _ Hnd HF Hw) as (Hnd1 & _).
  destruct (walk_stable p_name dm cs
              {| x_orphans := []; x_dead := []; x_fresh := first_fresh cs |}
              _ _ Hnd HF Hflat Hdfn Htidy Hw) as (Hflat1 & Hrefs & Hst).
  rewrite transform_walk by done.
  unfold build_dfn_map in *.
  rewrite (foldl_dfn_map_add_refs _ _ _ Hrefs), Hdm.
  cbn [mbind result_bind].
  destruct (Hst {| x_orphans := []; x_dead := []; x_fresh := first_fresh cs1 |}
              eq_refl) as (y' & -> & _).
  reflexivity.
Qed.

Lemma C1_transform_idempotent_witness :
  transform "Overview.html" Examples.scenario1_done = Ok Examples.scenario1_done.
Proof.
  apply (C1_transform_idempotent "Overview.html" Examples.scenario1).
  - apply (bool_decide_unpack _). vm_compute. exact I.
  - apply flatb_flat. vm_compute. reflexivity.
  - intros P HP. apply list_elem_of_In in HP. vm_compute in HP.
    destruct HP as [<-|[]]. reflexivity.
  - intros P HP. apply list_elem_of_In in HP. vm_compute in HP.
    destruct HP as [<-|[]]. split; [vm_compute; lia|apply Forall_nil_2].
  - vm_compute. reflexivity.
Defined.

(** C1 as stated fails: the panel of this document enters with two stale
    markers; the first run removes one of them, the second run the
    other. *)
Lemma C1_second_run_removes_another_marker :
  exists cs1 cs2,
    transform "Overview.html" Examples.two_markers = Ok cs1
    /\ transform "Overview.html" cs1 = Ok cs2
    /\ cs2 <> cs1.
Proof.
  eexists _, _. split; [vm_compute; reflexivity|].
  split; [vm_compute; reflexivity|].
  intros H. discriminate H.
Qed.

(** ** Why the amended statements need their hypotheses

    Each hypothesis of the amended statements excludes documents on
    which the statement fails; one such document for each. *)

(** A definition inside the anchor is cut off by the first run, so the
    second run no longer finds the panel exported and removes the marker
    the first one added. *)
Lemma second_run_differs_dfn_in_anchor :
  exists cs1 cs2,
    transform "Overview.html" Examples.dfn_in_anchor = Ok cs1
    /\ transform "Overview.html" cs1 = Ok cs2
    /\ cs2 <> cs1.
Proof.
  eexists _, _. split; [vm_compute; reflexivity|].
  split; [vm_compute; reflexivity|].
  intros H. discriminate H.
Qed.

(** A stale marker around the anchor takes the anchor with it: the
    panel is left without an anchor, and a second run adds a new one. *)
Lemma anchor_removed_with_its_marker :
  matched Examples.anchor_in_marker_panel "claims"
  /\ exists cs1 P1 cs2,
       transform "Overview.html" Examples.anchor_in_marker = Ok cs1
       /\ deref 1 cs1 = Some P1 /\ anchors_of P1 = []
       /\ transform "Overview.html" cs1 = Ok cs2
       /\ cs2 <> cs1.
Proof.
  split; [exists "dfn-panel-for-dfn-claims"; split; reflexivity|].
  eexists _, _, _. split; [vm_compute; reflexivity|].
  split; [vm_compute; reflexivity|].
  split; [vm_compute; reflexivity|].
  split; [vm_compute; reflexivity|].
  intros H. discriminate H.
Qed.

(** With nested panels the inner iteration works on what the outer one
    did: the outer panel's definition is exported, yet the panel ends
    without a marker, and its only anchor points to the inner panel's
    identifier. *)
Lemma nested_panels_interfere :
  matched Examples.exported_around_stale_panel "r"
  /\ exists dm cs' P' a,
       build_dfn_map Examples.exported_around_stale = Ok dm
       /\ export_status dm "r" = true
       /\ transform "Overview.html" Examples.exported_around_stale = Ok cs'
       /\ deref 2 cs' = Some P'
       /\ markers_of P' = []
       /\ anchors_of P' = [a]
       /\ get "href" a = Some (AStr "#dfn-p").
Proof.
  split; [exists "dfn-panel-for-dfn-r"; split; reflexivity|].
  eexists _, _, _, _. split; [vm_compute; reflexivity|].
  split; [vm_compute; reflexivity|].
  split; [vm_compute; reflexivity|].
  split; [vm_compute; reflexivity|].
  split; [vm_compute; reflexivity|].
  split; vm_compute; reflexivity.
Qed.

(** * Further properties

    Properties of parts of the script that the statements above leave
    aside: the pattern of line 36 and the identifier of line 42, the
    paths and the text files of lines 24 and 93 to 96, the command
    line, and what the loop does not do. *)

(** ** Strings and the identifier pattern *)

Section StringFacts.

Lemma append_cons (x : ascii) (a b : string) :
  String x a +:+ b = String x (a +:+ b).
Proof. reflexivity. Qed.

Lemma append_assoc (a b c : string) : (a +:+ b) +:+ c = a +:+ b +:+ c.
Proof.
  induction a as [|x a IH]; [reflexivity|].
  rewrite !append_cons. f_equal. exact IH.
Qed.

Lemma append_nil_r (a : string) : a +:+ "" = a.
Proof.
  induction a as [|x a IH]; [reflexivity|].
  rewrite append_cons. f_equal. exact IH.
Qed.

Lemma length_append (a b : string) :
  String.length (a +:+ b) = String.length a + String.length b.
Proof.
  induction a as [|x a IH]; [reflexivity|].
  rewrite append_cons. simpl. f_equal. exact IH.
Qed.

Lemma append_ne_self (a b : string) : b <> "" -> a +:+ b <> a.
Proof.
  intros Hb H. apply (f_equal String.length) in H.
  rewrite length_append in H. destruct b; [done|]. simpl in H. lia.
Qed.

Lemma startswith_drop (p s : string) :
  PyStr.startswith s p = true -> s = p +:+ PyStr.drop (String.length p) s.
Proof.
  unfold PyStr.startswith. revert s.
  induction p as [|x p IH]; intros s H; simpl in *.
  - by destruct s.
  - destruct s as [|y s]; [done|]. revert H.
    change (String.prefix (String x p) (String y s))
      with (if ascii_dec x y then String.prefix p s else false).
    destruct (ascii_dec x y) as [->|]; [|done].
    intros H. rewrite append_cons. f_equal. by apply IH.
Qed.

Lemma startswith_append (p s : string) : PyStr.startswith (p +:+ s) p = true.
Proof.
  unfold PyStr.startswith. induction p as [|x p IH].
  - by destruct s.
  - rewrite append_cons.
    change (String.prefix (String x p) (String x (p +:+ s)))
      with (if ascii_dec x x then String.prefix p (p +:+ s) else false).
    by destruct (ascii_dec x x).
Qed.

Lemma dot_star_id (s : string) :
  PyStr.mentions PyStr.newline s = false -> PyStr.dot_star s = s.
Proof.
  induction s as [|x s IH]; simpl; [done|].
  intros [Hx Hs]%orb_false_elim. rewrite Hx. f_equal. by apply IH.
Qed.

Lemma dot_star_no_newline (s : string) :
  PyStr.mentions PyStr.newline (PyStr.dot_star s) = false.
Proof.
  induction s as [|x s IH]; simpl; [done|].
  destruct (Ascii.eqb x PyStr.newline) eqn:Hx; simpl; [done|].
  by rewrite Hx.
Qed.

Lemma dot_star_split (s : string) :
  exists tail, s = PyStr.dot_star s +:+ tail
    /\ (tail = "" \/ exists t, tail = String PyStr.newline t).
Proof.
  induction s as [|x s (tail & IH & Ht)]; simpl.
  - exists "". by split; [|left].
  - destruct (Ascii.eqb_spec x PyStr.newline) as [->|Hx].
    + exists (String PyStr.newline s). split; [done|right; by exists s].
    + exists tail. split; [rewrite append_cons; by rewrite <- IH|done].
Qed.

Lemma truthy_ne (s : string) : PyStr.truthy s = true <-> s <> "".
Proof. destruct s; simpl; split; done. Qed.

End StringFacts.

(** X1. When the pattern of line 36 matches a panel identifier, the
    captured suffix is not empty and holds no newline, and the identifier
    is the prefix [dfn-panel-for-], then [dfn-] or nothing, then the
    suffix, then nothing or a rest that starts with a newline. *)
Theorem X1_panel_re_sound (pid sfx : string) :
  panel_re pid = Some sfx ->
  sfx <> "" /\ PyStr.mentions PyStr.newline sfx = false
  /\ exists infix tail,
       pid = "dfn-panel-for-" +:+ infix +:+ sfx +:+ tail
       /\ (infix = "" \/ infix = "dfn-")
       /\ (tail = "" \/ exists t, tail = String PyStr.newline t).
Proof.
  unfold panel_re.
  destruct (PyStr.startswith pid "dfn-panel-for-") eqn:Hp; [|done].
  apply startswith_drop in Hp. change (String.length "dfn-panel-for-") with 14 in Hp.
  set (rest := PyStr.drop 14 pid) in *.
  destruct (PyStr.startswith rest "dfn-") eqn:Hr.
  - apply startswith_drop in Hr. change (String.length "dfn-") with 4 in Hr.
    set (rest' := PyStr.drop 4 rest) in *.
    destruct (PyStr.truthy (PyStr.dot_star rest')) eqn:Ht.
    + intros [= <-]. split; [by apply truthy_ne|].
      split; [apply dot_star_no_newline|].
      destruct (dot_star_split rest') as (tail & Hs & Htail).
      exists "dfn-", tail. split; [|by split; [right|]].
      rewrite Hp at 1. f_equal. rewrite Hr at 1. f_equal. exact Hs.
    + destruct (PyStr.truthy (PyStr.dot_star rest)) eqn:Ht2; [|done].
      intros [= <-]. split; [by apply truthy_ne|].
      split; [apply dot_star_no_newline|].
      destruct (dot_star_split rest) as (tail & Hs & Htail).
      exists "", tail. split; [|by split; [left|]].
      rewrite Hp at 1. f_equal. exact Hs.
  - cbn [PyStr.truthy].
    destruct (PyStr.truthy (PyStr.dot_star rest)) eqn:Ht2; [|done].
    intros [= <-]. split; [by apply truthy_ne|].
    split; [apply dot_star_no_newline|].
    destruct (dot_star_split rest) as (tail & Hs & Htail).
    exists "", tail. split; [|by split; [left|]].
    rewrite Hp at 1. f_equal. exact Hs.
Qed.

Lemma X1_panel_re_sound_witness :
  panel_re "dfn-panel-for-dfn-claims" = Some "claims"
  /\ "claims" <> "" /\ PyStr.mentions PyStr.newline "claims" = false
  /\ exists infix tail,
       "dfn-panel-for-dfn-claims" = "dfn-panel-for-" +:+ infix +:+ "claims" +:+ tail
       /\ (infix = "" \/ infix = "dfn-")
       /\ (tail = "" \/ exists t, tail = String PyStr.newline t).
Proof.
  split; [reflexivity|].
  apply (X1_panel_re_sound "dfn-panel-for-dfn-claims" "claims"). reflexivity.
Defined.

(** X2. For a non-empty name [x] without newline that does not itself
    start with [dfn-], the panel identifiers [dfn-panel-for-dfn-x] and
    [dfn-panel-for-x] both match and both lead to the definition
    identifier [dfn-x]. *)
Theorem X2_panel_id_spellings (x : string) :
  x <> "" -> PyStr.mentions PyStr.newline x = false ->
  PyStr.startswith x "dfn-" = false ->
  dfn_id_of <$> panel_re ("dfn-panel-for-dfn-" +:+ x) = Some ("dfn-" +:+ x)
  /\ dfn_id_of <$> panel_re ("dfn-panel-for-" +:+ x) = Some ("dfn-" +:+ x).
Proof.
  intros Hx Hn Hd.
  assert (Hid : dfn_id_of x = "dfn-" +:+ x) by (unfold dfn_id_of; by rewrite Hd).
  assert (Ht : PyStr.truthy (PyStr.dot_star x) = true).
  { rewrite dot_star_id by done. by apply truthy_ne. }
  split.
  - unfold panel_re.
    change (PyStr.startswith ("dfn-panel-for-dfn-" +:+ x) "dfn-panel-for-")
      with (PyStr.startswith ("dfn-panel-for-" +:+ "dfn-" +:+ x) "dfn-panel-for-").
    rewrite startswith_append.
    change (PyStr.drop 14 ("dfn-panel-for-dfn-" +:+ x)) with ("dfn-" +:+ x).
    rewrite startswith_append.
    change (PyStr.drop 4 ("dfn-" +:+ x)) with x.
    rewrite Ht, dot_star_id by done. cbn. by rewrite Hid.
  - unfold panel_re. rewrite startswith_append.
    change (PyStr.drop 14 ("dfn-panel-for-" +:+ x)) with x.
    rewrite Hd. cbn [PyStr.truthy]. rewrite Ht, dot_star_id by done.
    cbn. by rewrite Hid.
Qed.

Lemma X2_panel_id_spellings_witness :
  dfn_id_of <$> panel_re ("dfn-panel-for-dfn-" +:+ "claims") = Some ("dfn-" +:+ "claims")
  /\ dfn_id_of <$> panel_re ("dfn-panel-for-" +:+ "claims") = Some ("dfn-" +:+ "claims").
Proof.
  apply (X2_panel_id_spellings "claims"); [discriminate|reflexivity|reflexivity].
Defined.

(** X3. The definition identifier of line 42 always starts with [dfn-],
    computing it again from itself changes nothing, and, being never
    empty, it makes line 55 take its first branch: the value of [link]
    is always the file name, [#] and the identifier. *)
Theorem X3_link_never_falls_back (p_name dfn_suffix : string) :
  PyStr.startswith (dfn_id_of dfn_suffix) "dfn-" = true
  /\ dfn_id_of (dfn_id_of dfn_suffix) = dfn_id_of dfn_suffix
  /\ link p_name (dfn_id_of dfn_suffix) dfn_suffix
     = p_name +:+ "#" +:+ dfn_id_of dfn_suffix.
Proof.
  assert (H : PyStr.startswith (dfn_id_of dfn_suffix) "dfn-" = true).
  { unfold dfn_id_of. destruct (PyStr.startswith dfn_suffix "dfn-") eqn:Hs; simpl.
    - exact Hs.
    - apply (startswith_append "dfn-"). }
  split; [exact H|]. split.
  - unfold dfn_id_of at 1. by rewrite H.
  - unfold link. apply startswith_drop in H. rewrite H. reflexivity.
Qed.



Section PathFacts.

Lemma rsplit_append (c : ascii) (s b a : string) :
  rsplit c s = Some (b, a) -> s = b +:+ a.
Proof.
  revert b a. induction s as [|x s IH]; intros b a; simpl; [done|].
  destruct (rsplit c s) as [[b' a']|].
  - intros [= <- <-]. rewrite append_cons. f_equal. by apply IH.
  - destruct (Ascii.eqb x c); [|done]. by intros [= <- <-].
Qed.

Lemma split_name_append (p : string) :
  fst (split_name p) +:+ snd (split_name p) = p.
Proof.
  unfold split_name. destruct (rsplit "/" p) as [[d [|sep n]]|] eqn:Hr; try done.
  apply rsplit_append in Hr. cbn [fst snd]. rewrite Hr.
  by rewrite append_assoc.
Qed.

Lemma split_suffix_append (n : string) :
  fst (split_suffix n) +:+ snd (split_suffix n) = n.
Proof.
  unfold split_suffix. destruct (rsplit "." n) as [[b a]|] eqn:Hr.
  - destruct (PyStr.truthy b && _); cbn [fst snd].
    + symmetry. by apply rsplit_append in Hr.
    + apply append_nil_r.
  - apply append_nil_r.
Qed.

Lemma with_suffix_bak (p : string) :
  name p <> "" -> with_suffix p (suffix p +:+ ".bak") = Ok (p +:+ ".bak").
Proof.
  intros Hn. unfold with_suffix, suffix. unfold name in *.
  pose proof (split_name_append p) as Hp.
  destruct (split_name p) as [d n]. cbn [fst snd] in *.
  apply truthy_ne in Hn. rewrite Hn. f_equal.
  rewrite <- Hp. rewrite append_assoc. f_equal.
  rewrite <- (split_suffix_append n) at 3. by rewrite append_assoc.
Qed.

Lemma with_suffix_inv (p s bak : string) :
  with_suffix p s = Ok bak -> name p <> "".
Proof.
  unfold with_suffix, name. destruct (split_name p) as [d n]. cbn [snd].
  destruct (PyStr.truthy n) eqn:Hn; [|done]. intros _. by apply truthy_ne.
Qed.

Lemma bak_ne (p : string) : p +:+ ".bak" <> p.
Proof. by apply append_ne_self. Qed.

End PathFacts.

(** X4. For a path with a non-empty name (the bare [.] apart, to which
    pathlib gives an empty name), the path is its parent part, then the
    stem and the suffix of its name; line 93 computes the path itself
    followed by [.bak], whether the name has a suffix, none, or several
    dots; and that backup path is never the input path. *)
Theorem X4_backup_path_appends_bak (p : string) :
  name p <> "" -> p <> "." ->
  p = fst (split_name p) +:+ fst (split_suffix (name p)) +:+ suffix p
  /\ with_suffix p (suffix p +:+ ".bak") = Ok (p +:+ ".bak")
  /\ p +:+ ".bak" <> p.
Proof.
  intros Hn _. split; [|split; [by apply with_suffix_bak|apply bak_ne]].
  unfold suffix. rewrite split_suffix_append. unfold name.
  symmetry. apply split_name_append.
Qed.

Lemma X4_backup_path_appends_bak_witness :
  "specs/v1.2/Overview.html"
  = fst (split_name "specs/v1.2/Overview.html")
    +:+ fst (split_suffix (name "specs/v1.2/Overview.html"))
    +:+ suffix "specs/v1.2/Overview.html"
  /\ with_suffix "specs/v1.2/Overview.html"
       (suffix "specs/v1.2/Overview.html" +:+ ".bak")
     = Ok ("specs/v1.2/Overview.html" +:+ ".bak")
  /\ "specs/v1.2/Overview.html" +:+ ".bak" <> "specs/v1.2/Overview.html".
Proof.
  apply (X4_backup_path_appends_bak "specs/v1.2/Overview.html"); discriminate.
Defined.

Section NewlineFacts.

Lemma universal_newlines_id (s : string) :
  PyStr.mentions cr s = false -> universal_newlines s = s.
Proof.
  induction s as [|x s IH]; [done|].
  cbn [PyStr.mentions universal_newlines].
  intros [Hx Hs]%orb_false_elim. rewrite Hx. f_equal. by apply IH.
Qed.

Lemma universal_newlines_no_cr_bounded (n : nat) :
  forall s, String.length s <= n -> PyStr.mentions cr (universal_newlines s) = false.
Proof.
  induction n as [|n IH]; intros [|x s] Hl; try done; simpl in Hl; [lia|].
  cbn [universal_newlines].
  destruct (Ascii.eqb x cr) eqn:Hx.
  - destruct s as [|y s]; [done|].
    destruct (Ascii.eqb y PyStr.newline); cbn [PyStr.mentions].
    + change (Ascii.eqb PyStr.newline cr) with false. cbn [orb].
      apply IH. simpl in Hl. lia.
    + change (Ascii.eqb PyStr.newline cr) with false. cbn [orb].
      apply IH. lia.
  - cbn [PyStr.mentions]. rewrite Hx. cbn [orb]. apply IH. lia.
Qed.

Lemma universal_newlines_no_cr (s : string) :
  PyStr.mentions cr (universal_newlines s) = false.
Proof. by apply (universal_newlines_no_cr_bounded (String.length s)). Qed.

Lemma write_newlines_lf (s : string) :
  write_newlines (String PyStr.newline "") s = s.
Proof.
  induction s as [|x s IH]; [done|]. cbn [write_newlines].
  destruct (Ascii.eqb_spec x PyStr.newline) as [->|Hx].
  - rewrite append_cons. by rewrite IH.
  - by rewrite IH.
Qed.

Lemma read_text_bytes (p : string) (w : world) (bytes html : string) :
  files w !! p = Some bytes -> read_text p w = Ok html ->
  html = universal_newlines bytes.
Proof.
  unfold read_text. intros ->. destruct (utf8_valid bytes); [|done].
  by intros [= <-].
Qed.

(** Universal newlines keep a text valid: a carriage return is a
    character of its own, never a byte inside another one. *)
Lemma utf8_valid_universal_newlines_bounded (n : nat) :
  forall s need lo hi,
    String.length s <= n -> need = 0 \/ 128 <= lo ->
    utf8_valid_from need lo hi s = true ->
    utf8_valid_from need lo hi (universal_newlines s) = true.
Proof.
  induction n as [|n IH]; intros [|x s] need lo hi Hl Hlo Hv; try done;
    simpl in Hl; [lia|].
  cbn [universal_newlines].
  destruct (Ascii.eqb_spec x cr) as [->|Hx].
  - destruct need as [|k].
    2:{ destruct Hlo as [?|Hlo]; [done|]. cbn [utf8_valid_from] in Hv.
        change (nat_of_ascii cr) with 13 in Hv.
        destruct (Nat.leb_spec lo 13); [lia|discriminate]. }
    change (utf8_valid_from 0 lo hi (String cr s))
      with (utf8_valid_from 0 0 0 s) in Hv.
    destruct s as [|y s]; [reflexivity|].
    destruct (Ascii.eqb_spec y PyStr.newline) as [->|Hy].
    + change (utf8_valid_from 0 0 0 (String PyStr.newline s))
        with (utf8_valid_from 0 0 0 s) in Hv.
      change (utf8_valid_from 0 lo hi
                (String PyStr.newline (universal_newlines s)))
        with (utf8_valid_from 0 0 0 (universal_newlines s)).
      apply IH; [simpl in Hl; lia|by left|done].
    + change (utf8_valid_from 0 lo hi
                (String PyStr.newline (universal_newlines (String y s))))
        with (utf8_valid_from 0 0 0 (universal_newlines (String y s))).
      apply IH; [lia|by left|done].
  - cbn [utf8_valid_from] in Hv |- *.
    destruct need as [|k].
    + repeat match goal with
             | |- context [if ?b then _ else _] => destruct b
             end; try discriminate;
        (apply IH; [lia|first [by left|right; lia]|done]).
    + apply andb_true_iff in Hv as [Hb Hv]. rewrite Hb. cbn [andb].
      apply IH; [lia|right; lia|done].
Qed.

Lemma utf8_valid_universal_newlines (s : string) :
  utf8_valid s = true -> utf8_valid (universal_newlines s) = true.
Proof.
  apply (utf8_valid_universal_newlines_bounded (String.length s));
    [lia|by left].
Qed.

Lemma read_text_valid (p : string) (w : world) (html : string) :
  read_text p w = Ok html -> utf8_valid html = true.
Proof.
  unfold read_text. destruct (files w !! p) as [bytes|]; [|done].
  destruct (utf8_valid bytes) eqn:Hv; [|done]. intros [= <-].
  by apply utf8_valid_universal_newlines.
Qed.

End NewlineFacts.

Section ProcessFacts.

Variable parse : string -> result (list node).
Variable serialize : list node -> string.
Variable linesep : string.

Local Abbreviation process_file := (Files.process_file parse serialize linesep).
Local Abbreviation process_all := (Files.process_all parse serialize linesep).
Local Abbreviation main := (Files.main parse serialize linesep).

Local Abbreviation backed_up := (Files.backed_up linesep).
Local Abbreviation emptied := (Files.emptied linesep).
Local Abbreviation completed := (Files.completed linesep).

Lemma write_text_refused (p data : string) (w : world) :
  p ∈ read_only w ->
  write_text linesep p data w = (w, Raise PermissionError).
Proof. intros H. unfold write_text. by rewrite bool_decide_eq_true_2. Qed.

Lemma write_text_done (p data : string) (w : world) :
  p ∉ read_only w -> utf8_valid data = true ->
  write_text linesep p data w
  = ({| files := <[p := write_newlines linesep data]> (files w);
        read_only := read_only w;
        trace := trace w ++ [EWrite p (write_newlines linesep data)] |},
     Ok ()).
Proof.
  intros H Hv. unfold write_text. by rewrite bool_decide_eq_false_2, Hv.
Qed.

Lemma write_text_unencodable (p data : string) (w : world) :
  p ∉ read_only w -> utf8_valid data = false ->
  write_text linesep p data w
  = ({| files := <[p := ""]> (files w);
        read_only := read_only w;
        trace := trace w ++ [EWrite p ""] |},
     Raise UnicodeEncodeError).
Proof.
  intros H Hv. unfold write_text. by rewrite bool_decide_eq_false_2, Hv.
Qed.

(** The ways [process_file] can end: before anything is written; with
    the backup written and the input path refusing the write; with the
    backup written and the input emptied, its new text not encodable;
    or normally. *)
Lemma process_file_inv (p : string) (w : world) :
  (exists e, process_file p w = (w, Raise e))
  \/ (exists html soup0 soup1,
        read_text p w = Ok html /\ parse html = Ok soup0
        /\ transform (name p) soup0 = Ok soup1
        /\ name p <> "" /\ ((p +:+ ".bak") ∉ read_only w)
        /\ (((p ∈ read_only w)
             /\ process_file p w = (backed_up p html w, Raise PermissionError))
            \/ ((p ∉ read_only w) /\ utf8_valid (serialize soup1) = false
                /\ process_file p w
                   = (emptied p html w, Raise UnicodeEncodeError))
            \/ ((p ∉ read_only w) /\ utf8_valid (serialize soup1) = true
                /\ process_file p w
                   = (completed p html (serialize soup1) w, Ok ())))).
Proof.
  unfold Files.process_file.
  destruct (read_text p w) as [html|e] eqn:Hread; [|left; by exists e].
  destruct (parse html) as [soup0|e] eqn:Hparse; [|left; by exists e].
  destruct (transform (name p) soup0) as [soup1|e] eqn:Htr; [|left; by exists e].
  destruct (with_suffix p (suffix p +:+ ".bak")) as [bak|e] eqn:Hb;
    [|left; by exists e].
  pose proof (with_suffix_inv _ _ _ Hb) as Hn.
  rewrite (with_suffix_bak p Hn) in Hb. injection Hb as <-.
  destruct (decide (p +:+ ".bak" ∈ read_only w)) as [Hro|Hro].
  { rewrite write_text_refused by done. left. by eexists. }
  rewrite write_text_done by (done || by eapply read_text_valid).
  right. exists html, soup0, soup1.
  split; [done|]. split; [done|]. split; [done|]. split; [done|].
  split; [done|].
  destruct (decide (p ∈ read_only w)) as [Hp|Hp].
  { rewrite write_text_refused by done. left. by split. }
  right. destruct (utf8_valid (serialize soup1)) eqn:Hv.
  - rewrite write_text_done by done. right. split; [done|]. split; [done|].
    unfold print, Files.completed. cbn [files read_only trace].
    by rewrite <- !app_assoc.
  - rewrite write_text_unencodable by done. left. split; [done|].
    split; [done|].
    unfold Files.emptied. cbn [files read_only trace].
    by rewrite <- !app_assoc.
Qed.


(** X6. [process_file] touches two paths only: every file other than
    the input and its [.bak] keeps its contents, whether the call
    succeeds or not, and no path changes its write protection. *)
Theorem X6_process_file_frame (p : string) (w : world) (q : string) :
  q <> p -> q <> p +:+ ".bak" ->
  files (fst (process_file p w)) !! q = files w !! q
  /\ read_only (fst (process_file p w)) = read_only w.
Proof.
  intros Hp Hb.
  destruct (process_file_inv p w)
    as [[e' ->]|(html & s0 & s1 & _ & _ & _ & _ & _
                 & [[_ ->]|[(_ & _ & ->)|(_ & _ & ->)]])];
    unfold Files.backed_up, Files.emptied, Files.completed;
    cbn [fst snd files read_only].
  - done.
  - split; [|done]. by rewrite lookup_insert_ne.
  - split; [|done]. by rewrite !lookup_insert_ne.
  - split; [|done]. by rewrite !lookup_insert_ne.
Qed.

(** X7. When [process_file] returns normally, the text was read and
    parsed and the loop completed; the backup holds the text read, the
    input path holds the serialised soup (both with [os.linesep] for
    line feeds), and exactly three things were done, in this order: the
    backup was written, the input was overwritten, the line naming both
    paths was printed. *)
Theorem X7_process_file_success (p : string) (w : world) :
  snd (process_file p w) = Ok () ->
  exists html soup0 soup1,
    read_text p w = Ok html /\ parse html = Ok soup0
    /\ transform (name p) soup0 = Ok soup1
    /\ files (fst (process_file p w)) !! (p +:+ ".bak")
       = Some (write_newlines linesep html)
    /\ files (fst (process_file p w)) !! p
       = Some (write_newlines linesep (serialize soup1))
    /\ trace (fst (process_file p w))
       = trace w ++ [EWrite (p +:+ ".bak") (write_newlines linesep html);
                     EWrite p (write_newlines linesep (serialize soup1));
                     EPrint ("Processed " +:+ p +:+ " -> backup " +:+ p +:+ ".bak")].
Proof.
  destruct (process_file_inv p w)
    as [[e' ->]|(html & s0 & s1 & Hr & Hp & Ht & _ & _
                 & [[_ ->]|[(_ & _ & ->)|(_ & _ & ->)]])];
    unfold Files.backed_up, Files.emptied, Files.completed;
    cbn [fst snd files trace]; intros [=].
  exists html, s0, s1.
  split; [done|]. split; [done|]. split; [done|].
  split; [|split; [|done]].
  - rewrite lookup_insert_ne by (apply not_eq_sym, bak_ne). apply lookup_insert_eq.
  - apply lookup_insert_eq.
Qed.

Lemma process_all_not_exit (fs : list string) (w : world) (c : nat) :
  snd (process_all fs w) <> Exit c.
Proof.
  revert w. induction fs as [|f fs IH]; intros w; simpl; [done|].
  destruct (Files.process_file parse serialize linesep (Path f) w)
    as [w1 [[]|e]].
  - apply IH.
  - done.
Qed.

(** X11. The program ends through [sys.exit] exactly when fewer than
    two arguments are given, and the code is then 2: processing files
    never exits with a code. *)
Theorem X11_main_exit_code (argv : list string) (w : world) (c : nat) :
  snd (main argv w) = Exit c <-> length argv < 2 /\ c = 2.
Proof.
  unfold Files.main. destruct (Nat.ltb_spec (length argv) 2) as [Hl|Hl].
  - cbn [snd]. split.
    + intros [= <-]. by split.
    + intros [_ ->]. done.
  - split.
    + intros H. by apply process_all_not_exit in H.
    + intros [H _]. lia.
Qed.

(** X12. When all the files given are processed, the run has printed
    one line per file, in argument order, each naming the path made of
    the argument ([Path(f)], as [str] shows it) and that path followed
    by [.bak]. *)
Theorem X12_process_all_prints (fs : list string) (w : world) :
  snd (process_all fs w) = Finished ->
  prints (trace (fst (process_all fs w)))
  = prints (trace w)
    ++ map (fun f => "Processed " +:+ Path f +:+ " -> backup "
                     +:+ Path f +:+ ".bak") fs.
Proof.
  revert w. induction fs as [|f fs IH]; intros w; cbn [Files.process_all map].
  - intros _. by rewrite app_nil_r.
  - destruct (process_file_inv (Path f) w)
      as [[e' ->]|(html & s0 & s1 & _ & _ & _ & _ & _
                   & [[_ ->]|[(_ & _ & ->)|(_ & _ & ->)]])];
      [done|done|done|].
    intros H. rewrite (IH _ H). unfold Files.completed. cbn [trace].
    unfold prints at 1.
    rewrite omap_app. cbn [omap]. by rewrite <- app_assoc.
Qed.

(** X13. If reading the first file argument raises (there is no such
    file, or it is not UTF-8), the run ends with that exception: the
    later files are not processed and nothing is written or printed. *)
Theorem X13_main_first_file_unreadable (prog f : string)
    (later : list string) (w : world) (e : exn) :
  read_text (Path f) w = Raise e ->
  main (prog :: f :: later) w = (w, Uncaught e).
Proof.
  intros Hf. unfold Files.main. cbn [length Nat.ltb Nat.leb tail].
  cbn [Files.process_all]. unfold Files.process_file.
  by rewrite Hf.
Qed.

End ProcessFacts.

(** X8. Where the line separator is a line feed, a successful run on a
    file that holds no carriage return leaves a backup with the bytes of
    that file. *)
Theorem X8_backup_faithful_without_cr (parse : string -> result (list node))
    (serialize : list node -> string) (p : string) (w : world) (bytes : string) :
  files w !! p = Some bytes ->
  PyStr.mentions cr bytes = false ->
  snd (Files.process_file parse serialize (String PyStr.newline "") p w) = Ok () ->
  files (fst (Files.process_file parse serialize (String PyStr.newline "") p w))
    !! (p +:+ ".bak") = Some bytes.
Proof.
  intros Hf Hcr.
  destruct (process_file_inv parse serialize (String PyStr.newline "") p w)
    as [[e' ->]|(html & s0 & s1 & Hr & _ & _ & _ & _
                 & [[_ ->]|[(_ & _ & ->)|(_ & _ & ->)]])];
    unfold backed_up, completed; cbn [fst snd files]; intros [=].
  rewrite (read_text_bytes _ _ _ _ Hf Hr).
  rewrite lookup_insert_ne by (apply not_eq_sym, bak_ne).
  rewrite lookup_insert_eq, write_newlines_lf.
  by rewrite universal_newlines_id.
Qed.

(** X9. Where the line separator is a line feed, the backup written by
    a successful run holds no carriage return, whatever the input file
    held. *)
Theorem X9_backup_has_no_carriage_return (parse : string -> result (list node))
    (serialize : list node -> string) (p : string) (w : world) :
  snd (Files.process_file parse serialize (String PyStr.newline "") p w) = Ok () ->
  exists b,
    files (fst (Files.process_file parse serialize (String PyStr.newline "") p w))
      !! (p +:+ ".bak") = Some b
    /\ PyStr.mentions cr b = false.
Proof.
  destruct (process_file_inv parse serialize (String PyStr.newline "") p w)
    as [[e' ->]|(html & s0 & s1 & Hr & _ & _ & _ & _
                 & [[_ ->]|[(_ & _ & ->)|(_ & _ & ->)]])];
    unfold backed_up, completed; cbn [fst snd files]; intros [=].
  exists html. split.
  - rewrite lookup_insert_ne by (apply not_eq_sym, bak_ne).
    by rewrite lookup_insert_eq, write_newlines_lf.
  - unfold read_text in Hr. destruct (files w !! p) as [bytes|]; [|done].
    destruct (utf8_valid bytes); [|done]. injection Hr as <-.
    apply universal_newlines_no_cr.
Qed.



Lemma X6_process_file_frame_witness :
  files (fst (Files.process_file (fun _ => Ok []) (fun _ => "")
                (String PyStr.newline "") "name.html" Examples.lf_world))
    !! "other.html"
  = files Examples.lf_world !! "other.html"
  /\ read_only (fst (Files.process_file (fun _ => Ok []) (fun _ => "")
                       (String PyStr.newline "") "name.html" Examples.lf_world))
     = read_only Examples.lf_world.
Proof.
  apply (X6_process_file_frame (fun _ => Ok []) (fun _ => "")
           (String PyStr.newline "") "name.html" Examples.lf_world "other.html");
    discriminate.
Defined.

Lemma X8_backup_faithful_without_cr_witness :
  files (fst (Files.process_file (fun _ => Ok []) (fun _ => "") (String PyStr.newline "")
                "name.html" Examples.lf_world)) !! ("name.html" +:+ ".bak")
  = Some Examples.lf_html.
Proof.
  apply (X8_backup_faithful_without_cr (fun _ => Ok []) (fun _ => "") "name.html"
           Examples.lf_world Examples.lf_html).
  - vm_compute. reflexivity.
  - vm_compute. reflexivity.
  - vm_compute. reflexivity.
Defined.

Lemma X7_process_file_success_witness :
  snd (Files.process_file (fun _ => Ok []) (fun _ => "") (String PyStr.newline "")
         "name.html" Examples.lf_world) = Ok ()
  /\ exists html soup0 soup1,
    read_text "name.html" Examples.lf_world = Ok html
    /\ (fun _ : string => Ok []) html = Ok soup0
    /\ transform (name "name.html") soup0 = Ok soup1
    /\ files (fst (Files.process_file (fun _ => Ok []) (fun _ => "")
                     (String PyStr.newline "") "name.html" Examples.lf_world))
         !! ("name.html" +:+ ".bak")
       = Some (write_newlines (String PyStr.newline "") html)
    /\ files (fst (Files.process_file (fun _ => Ok []) (fun _ => "")
                     (String PyStr.newline "") "name.html" Examples.lf_world))
         !! "name.html"
       = Some (write_newlines (String PyStr.newline "") ((fun _ => "") soup1))
    /\ trace (fst (Files.process_file (fun _ => Ok []) (fun _ => "")
                     (String PyStr.newline "") "name.html" Examples.lf_world))
       = trace Examples.lf_world
         ++ [EWrite ("name.html" +:+ ".bak")
               (write_newlines (String PyStr.newline "") html);
             EWrite "name.html"
               (write_newlines (String PyStr.newline "") ((fun _ => "") soup1));
             EPrint ("Processed " +:+ "name.html" +:+ " -> backup "
                     +:+ "name.html" +:+ ".bak")].
Proof.
  assert (H : snd (Files.process_file (fun _ => Ok []) (fun _ => "")
                     (String PyStr.newline "") "name.html" Examples.lf_world)
              = Ok ()).
  { vm_compute. reflexivity. }
  split; [exact H|].
  exact (X7_process_file_success (fun _ => Ok []) (fun _ => "")
           (String PyStr.newline "") "name.html" Examples.lf_world H).
Defined.

Lemma X9_backup_has_no_carriage_return_witness :
  exists b,
    files (fst (Files.process_file (fun _ => Ok []) (fun _ => "")
                  (String PyStr.newline "") "name.html" Examples.crlf_world))
      !! ("name.html" +:+ ".bak") = Some b
    /\ PyStr.mentions cr b = false.
Proof.
  apply (X9_backup_has_no_carriage_return (fun _ => Ok []) (fun _ => "")
           "name.html" Examples.crlf_world).
  vm_compute. reflexivity.
Defined.


Lemma X12_process_all_prints_witness :
  prints (trace (fst (Files.process_all (fun _ => Ok []) (fun _ => "")
                        (String PyStr.newline "") ["./name.html"; "name.html"]
                        Examples.lf_world)))
  = prints (trace Examples.lf_world)
    ++ map (fun f => "Processed " +:+ Path f +:+ " -> backup "
                     +:+ Path f +:+ ".bak")
         ["./name.html"; "name.html"].
Proof.
  apply (X12_process_all_prints (fun _ => Ok []) (fun _ => "")
           (String PyStr.newline "") ["./name.html"; "name.html"]
           Examples.lf_world).
  vm_compute. reflexivity.
Defined.

Lemma X13_main_first_file_unreadable_witness :
  Files.main (fun _ => Ok []) (fun _ => "") (String PyStr.newline "")
    ["rewrite_permalinks.py"; "./absent.html"; "name.html"] Examples.lf_world
  = (Examples.lf_world, Uncaught FileNotFoundError).
Proof.
  apply (X13_main_first_file_unreadable (fun _ => Ok []) (fun _ => "")
           (String PyStr.newline "") "rewrite_permalinks.py" "./absent.html"
           ["name.html"] Examples.lf_world FileNotFoundError).
  vm_compute. reflexivity.
Defined.

(** X14. Lines 56 to 58 set [href] and [aria-label] of the anchor and
    replace its contents by the text [Permalink]; every other attribute,
    the tag's name and the tag itself (its reference) stay, and doing
    the three assignments again changes nothing. *)
Theorem X14_update_anchor_frame (dfn_id : string) (u : nat) (nm : string)
    (a : list (string * attr_value)) (cc : list node) (k : string) :
  k <> "href" -> k <> "aria-label" ->
  get k (update_anchor dfn_id (Tag u nm a cc)) = dict_get k a
  /\ get "href" (update_anchor dfn_id (Tag u nm a cc))
     = Some (AStr ("#" +:+ dfn_id))
  /\ get "aria-label" (update_anchor dfn_id (Tag u nm a cc))
     = Some (AStr (aria_label dfn_id))
  /\ tag_uid (update_anchor dfn_id (Tag u nm a cc)) = Some u
  /\ name_is nm (update_anchor dfn_id (Tag u nm a cc)) = true
  /\ contents (update_anchor dfn_id (Tag u nm a cc))
     = [NavigableString Text "Permalink"]
  /\ update_anchor dfn_id (update_anchor dfn_id (Tag u nm a cc))
     = update_anchor dfn_id (Tag u nm a cc).
Proof.
  intros Hh Ha.
  pose proof (update_anchor_idem dfn_id (Tag u nm a cc)) as Hidem.
  rewrite update_anchor_tag in *. unfold get.
  cbn [attrs tag_uid contents name_is].
  split; [by rewrite !dict_get_set_ne by (by apply not_eq_sym)|].
  split; [by rewrite dict_get_set_ne, dict_get_set_eq|].
  split; [by rewrite dict_get_set_eq|].
  split; [done|]. split; [apply String.eqb_refl|]. split; [done|].
  exact Hidem.
Qed.

Lemma X14_update_anchor_frame_witness :
  get "class" (update_anchor "dfn-claims" (Tag 4 "a" Examples.self_link_attrs []))
  = dict_get "class" Examples.self_link_attrs
  /\ get "href" (update_anchor "dfn-claims" (Tag 4 "a" Examples.self_link_attrs []))
     = Some (AStr ("#" +:+ "dfn-claims"))
  /\ get "aria-label" (update_anchor "dfn-claims" (Tag 4 "a" Examples.self_link_attrs []))
     = Some (AStr (aria_label "dfn-claims"))
  /\ tag_uid (update_anchor "dfn-claims" (Tag 4 "a" Examples.self_link_attrs []))
     = Some 4
  /\ name_is "a" (update_anchor "dfn-claims" (Tag 4 "a" Examples.self_link_attrs []))
     = true
  /\ contents (update_anchor "dfn-claims" (Tag 4 "a" Examples.self_link_attrs []))
     = [NavigableString Text "Permalink"]
  /\ update_anchor "dfn-claims"
       (update_anchor "dfn-claims" (Tag 4 "a" Examples.self_link_attrs []))
     = update_anchor "dfn-claims" (Tag 4 "a" Examples.self_link_attrs []).
Proof.
  apply (X14_update_anchor_frame "dfn-claims" 4 "a" Examples.self_link_attrs [] "class");
    discriminate.
Defined.

(** ** The loop: what it leaves alone *)

Section OutsidePanels.

Lemma ensure_anchor_head pu pnm pa (cs : list node) F a P1 F1 :
  ensure_anchor (Tag pu pnm pa cs) F = Ok (a, P1, F1) ->
  exists cs1, P1 = Tag pu pnm pa cs1.
Proof.
  unfold ensure_anchor.
  destruct (find is_self_link _).
  - intros [= <- <- <-]. by eexists.
  - destruct (dot_div _); [|done]. intros [= <- <- <-]. by eexists.
Qed.

Lemma process_panel_head pn dm dead pu pnm pa (cs : list node) F eff :
  process_panel pn dm dead (Tag pu pnm pa cs) F = Ok eff ->
  exists cs3, e_panel eff = Tag pu pnm pa cs3.
Proof.
  intros Hp.
  destruct (process_panel_cases _ _ _ _ _ _ Hp) as [[sfx Hm]|[_ ->]].
  - destruct (process_panel_matched _ _ _ _ _ _ _ _ _ _ Hm Hp)
      as (a & P1 & F1 & b & Ha & _ & Hs).
    destruct (ensure_anchor_head _ _ _ _ _ _ _ _ Ha) as [cs1 ->].
    rewrite edit_tag in Hs.
    destruct (sync_marker_spec _ _ _ _ _ _ _ _ _ Hs) as (cs3 & H3 & _).
    by exists cs3.
  - by exists cs.
Qed.

Lemma walk_outside pn dm (cs : list node) :
  forall x cs' x',
    walk_forest pn dm cs x = Ok (cs', x') ->
    List.map outside cs' = List.map outside cs.
Proof.
  induction cs as [|k s rest IH|v nm a cc rest IHcc IH] using forest_ind;
    intros x cs' x' Hw.
  - by injection Hw as <- <-.
  - rewrite walk_forest_cons, walk_string in Hw. cbn in Hw.
    destruct (Walk.walk_forest pn dm rest x) as [[rest' x1]|e] eqn:Hr; [|discriminate].
    cbn in Hw. injection Hw as <- <-. cbn [List.map]. f_equal. by eapply IH.
  - rewrite walk_forest_cons in Hw.
    destruct (Walk.walk pn dm (Tag v nm a cc) x) as [[c' x1]|e] eqn:Hc; [|discriminate].
    cbn in Hw.
    destruct (Walk.walk_forest pn dm rest x1) as [[rest' x2]|e] eqn:Hr; [|discriminate].
    cbn in Hw. injection Hw as <- <-. cbn [List.map]. f_equal; [|by eapply IH].
    rewrite walk_tag in Hc.
    destruct (is_panel (Tag v nm a cc)) eqn:Hp.
    + destruct (visit_panel_inv _ _ _ _ _ _ Hc) as (_ & eff & Hpp & -> & _).
      destruct (process_panel_head _ _ _ _ _ _ _ _ _ Hpp) as [cs3 ->].
      cbn [outside]. rewrite Hp.
      assert (Hp' : is_panel (Tag v nm a cs3) = true).
      { rewrite <- Hp. apply (on_head_is_named_class "div" "dfn-panel"). }
      by rewrite Hp'.
    + destruct (Walk.walk_forest pn dm cc x) as [[cc' x1']|e] eqn:Hcc; [|discriminate].
      cbn in Hc. injection Hc as <- <-.
      cbn [outside]. rewrite Hp.
      assert (Hp' : is_panel (Tag v nm a cc') = false).
      { rewrite <- Hp. apply (on_head_is_named_class "div" "dfn-panel"). }
      rewrite Hp'. f_equal. by eapply IHcc.
Qed.

End OutsidePanels.

(** X16. The loop works inside the panels only: when no panel lies
    inside another one, the document after the loop and the document
    before it are the same once the contents of every panel are
    removed - text, tags, attributes and order outside the panels, and
    the panels' own names and attributes, are untouched. *)
Theorem X16_transform_outside_panels (p_name : string) (cs cs' : list node) :
  NoDup (uids cs) -> flat cs ->
  transform p_name cs = Ok cs' ->
  List.map outside cs' = List.map outside cs.
Proof.
  intros Hnd Hflat Ht. rewrite (transform_walk p_name cs Hnd Hflat) in Ht.
  destruct (build_dfn_map cs) as [dm|e]; [|discriminate]. cbn in Ht.
  destruct (walk_forest p_name dm cs _) as [[cs1 x1]|e] eqn:Hw; [|discriminate].
  cbn in Ht. injection Ht as <-. by eapply walk_outside.
Qed.

Lemma X16_transform_outside_panels_witness :
  List.map outside Examples.scenario1_done = List.map outside Examples.scenario1.
Proof.
  refine (X16_transform_outside_panels "Overview.html" Examples.scenario1
            Examples.scenario1_done _ _ _).
  - apply (bool_decide_unpack _). vm_compute. exact I.
  - apply flatb_flat. vm_compute. reflexivity.
  - vm_compute. reflexivity.
Defined.

(** X17. The loop creates [a] and [span] tags only: when no panel lies
    inside another one, the document has, after the loop, no more tags
    of any other name than it had before. *)
Theorem X17_transform_adds_only_anchors_and_markers (p_name : string)
    (cs cs' : list node) (nm : string) :
  NoDup (uids cs) -> flat cs ->
  transform p_name cs = Ok cs' ->
  nm <> "a" -> nm <> "span" ->
  length (find_all (name_is nm) cs') <= length (find_all (name_is nm) cs).
Proof.
  intros Hnd Hflat Ht Ha Hs. rewrite (transform_walk p_name cs Hnd Hflat) in Ht.
  destruct (build_dfn_map cs) as [dm|e]; [|discriminate]. cbn in Ht.
  destruct (walk_forest p_name dm cs _) as [[cs1 x1]|e] eqn:Hw; [|discriminate].
  cbn in Ht. injection Ht as <-.
  destruct (walk_extends p_name dm cs
              {| x_orphans := []; x_dead := []; x_fresh := first_fresh cs |}
              _ _ Hnd (fresh_for_first_fresh cs) Hw)
    as (_ & _ & _ & _ & H).
  apply H; [apply stable_name_is| |].
  - intros x. unfold new_anchor, name_is.
    by apply String.eqb_neq, not_eq_sym.
  - intros x. unfold new_marker, name_is.
    by apply String.eqb_neq, not_eq_sym.
Qed.

Lemma X17_transform_adds_only_anchors_and_markers_witness :
  length (find_all (name_is "div") Examples.scenario1_done)
  <= length (find_all (name_is "div") Examples.scenario1).
Proof.
  refine (X17_transform_adds_only_anchors_and_markers "Overview.html"
            Examples.scenario1 Examples.scenario1_done "div" _ _ _ _ _).
  - apply (bool_decide_unpack _). vm_compute. exact I.
  - apply flatb_flat. vm_compute. reflexivity.
  - vm_compute. reflexivity.
  - discriminate.
  - discriminate.
Defined.

Section Unmatched.

Lemma deref_self (cs : list node) t :
  NoDup (uids cs) -> t ∈ descendants_of cs -> is_tag t = true ->
  deref (uid_of t) cs = Some t.
Proof.
  intros Hnd Ht Htag. unfold deref. apply find_by_uid; [exact Hnd|exact Ht|].
  by destruct t.
Qed.

Lemma run_unmatched pn dm (us : list nat) (cs : list node) F :
  NoDup (uids cs) ->
  (forall u, u ∈ us -> exists P, deref u cs = Some P /\ unmatched P) ->
  run pn dm us {| soup := cs; orphans := []; dead := []; fresh := F |}
  = Ok {| soup := cs; orphans := []; dead := []; fresh := F |}.
Proof.
  intros Hnd. induction us as [|u us IH]; intros Hus; [reflexivity|].
  destruct (Hus u) as (P & HP & pid & Hpid & Hre); [by left|].
  cbn [run]. unfold step. cbn [dead soup orphans fresh].
  rewrite bool_decide_eq_false_2 by apply not_elem_of_nil.
  rewrite app_nil_r, HP.
  rewrite (process_panel_unmatched _ _ _ _ _ _ Hpid Hre). cbn.
  rewrite (subst_in_same u _ cs P Hnd HP eq_refl).
  apply IH. intros u' Hu'. apply Hus. by right.
Qed.

End Unmatched.

(** X15. On a document none of whose panels has a matching identifier
    (in particular one without panels) the loop changes nothing, also
    when panels lie inside one another. *)
Theorem X15_transform_unmatched_identity (p_name : string) (cs : list node)
    (dm : gmap string dfn_ref) :
  NoDup (uids cs) -> build_dfn_map cs = Ok dm ->
  (forall P, P ∈ find_all is_panel cs -> unmatched P) ->
  transform p_name cs = Ok cs.
Proof.
  intros Hnd Hdm Hun. unfold transform. rewrite Hdm. cbn.
  rewrite (run_unmatched p_name dm _ cs (first_fresh cs) Hnd); [reflexivity|].
  intros u Hu. apply list_elem_of_fmap in Hu as (P & -> & HP).
  exists P. split; [|by apply Hun].
  destruct (is_panel_elem_of _ _ HP) as (Hd & pu & pnm & pa & pcs & -> & _).
  by apply deref_self.
Qed.

Lemma X15_transform_unmatched_identity_witness :
  transform "Overview.html" Examples.nested_widgets = Ok Examples.nested_widgets.
Proof.
  refine (X15_transform_unmatched_identity "Overview.html"
            Examples.nested_widgets ∅ _ _ _).
  - apply (bool_decide_unpack _). vm_compute. exact I.
  - vm_compute. reflexivity.
  - intros P HP. apply list_elem_of_In in HP. vm_compute in HP.
    destruct HP as [<-|[<-|[]]].
    + exists "random-widget". split; reflexivity.
    + exists "dfn-panel-for-". split; reflexivity.
Defined.

(** ** The loop: when it completes *)

Section Completes.

Lemma find_all_named_no_tags nm (cs : list node) :
  uids cs = [] -> find_all (name_is nm) cs = [].
Proof.
  unfold uids, find_all. induction (descendants_of cs) as [|n l IH]; [done|].
  destruct n as [u nm' a cc|k s]; cbn; [discriminate|]. exact IH.
Qed.

Lemma count_div_after_anchor pu pnm pa (cs : list node) F a P1 F1 dfn_id cs2 :
  NoDup (uids cs) -> fresh_for F cs ->
  ensure_anchor (Tag pu pnm pa cs) F = Ok (a, P1, F1) ->
  edit a (fun n => [update_anchor dfn_id n]) P1 = Tag pu pnm pa cs2 ->
  (forall a0, find is_self_link cs = Some a0 -> text_only a0) ->
  length (find_all (name_is "div") cs2) = length (find_all (name_is "div") cs).
Proof.
  intros Hnd HF He HP2 Htext.
  destruct (ensure_anchor_spec _ _ _ _ _ _ _ _ Hnd HF He)
    as (cs1 & a0 & -> & Hf1 & Hu & Hnd1 & HF1 & Hle & Hcase).
  destruct (update_anchor_spec cs1 a a0 dfn_id Hnd1 Hf1 Hu)
    as (Hd1 & _).
  rewrite edit_tag in HP2. injection HP2 as <-.
  destruct (find_elem_of _ _ _ Hf1) as [_ Hsl].
  pose proof (is_named_class_tag _ _ _ Hsl) as Htag.
  pose proof (count_subst_in (name_is "div") a
                (fun n => [update_anchor dfn_id n]) cs1 a0
                (on_head_name_is "div") Hnd1 Hd1) as Hc.
  rewrite (find_all_updated_anchor _ dfn_id a0 Htag eq_refl) in Hc.
  destruct (stable_name_is "div") as (_ & Hst & _). rewrite Hst in Hc.
  rewrite (self_link_not_named "div" a0) in Hc by done.
  assert (Ha0 : text_only a0 -> find_all (name_is "div") [a0] = []).
  { intros Ht. destruct a0 as [u nm' at' cc|]; [|discriminate].
    rewrite find_all_tag.
    rewrite (self_link_not_named "div" (Tag u nm' at' cc)) by done.
    cbn [app]. by apply find_all_named_no_tags. }
  destruct Hcase as [(Hf & -> & ->)|(Hf & -> & -> & d & Hfd & Hdd & ->)].
  - rewrite Ha0 in Hc by (by apply Htext). cbn [length] in Hc. lia.
  - rewrite Ha0 in Hc by reflexivity. cbn [length] in Hc.
    destruct (find_elem_of _ _ _ Hfd) as [_ Hdiv].
    assert (Hdt : is_tag d = true) by (destruct d; [done|discriminate]).
    pose proof (count_subst_in (name_is "div") (uid_of d)
                  (fun d => [insert0 (new_anchor F) d]) cs d
                  (on_head_name_is "div") Hnd Hdd) as Hc'.
    cbv beta in Hc'.
    rewrite (count_insert0 _ _ _ (on_head_name_is "div") Hdt) in Hc'.
    rewrite find_all_new_anchor in Hc'. cbn [name_is new_anchor] in Hc'.
    change (String.eqb "a" "div") with false in Hc'. cbn [length] in Hc'.
    lia.
Qed.

Lemma resolve_lookup dm dfn_id dfn_suffix r :
  resolve dm dfn_id dfn_suffix = Some r -> exists k, dm !! k = Some r.
Proof.
  unfold resolve. destruct (dm !! dfn_id) as [t|] eqn:H.
  - intros [= <-]. by exists dfn_id.
  - intros H'. by exists dfn_suffix.
Qed.

Lemma process_panel_completes pn dm dead pu pnm pa (cs : list node) F :
  NoDup (uids cs) -> fresh_for F cs ->
  workable (Tag pu pnm pa cs) ->
  (forall k u a, dm !! k = Some (u, a) -> u ∉ dead) ->
  exists eff, process_panel pn dm dead (Tag pu pnm pa cs) F = Ok eff.
Proof.
  intros Hnd HF ([pid Hpid] & [d Hd] & Htext) Hdead.
  unfold process_panel. rewrite Hpid. cbn.
  destruct (panel_re pid) as [sfx|]; [|by eexists].
  destruct (ensure_anchor (Tag pu pnm pa cs) F) as [[[a P1] F1]|e] eqn:He.
  2:{ exfalso. unfold ensure_anchor in He.
      destruct (find is_self_link _); [discriminate|].
      by rewrite Hd in He. }
  cbn.
  destruct (after_anchor _ _ _ _ _ _ _ _ (dfn_id_of sfx) Hnd HF He)
    as (cs2 & a0 & HP2 & _).
  pose proof (count_div_after_anchor _ _ _ _ _ _ _ _ _ _ Hnd HF He HP2 Htext)
    as Hcount.
  assert (Hdiv : exists d2, find (name_is "div") cs2 = Some d2).
  { apply count_pos_find. rewrite Hcount.
    by apply (find_some_count _ _ d). }
  destruct Hdiv as [d2 Hd2].
  rewrite HP2.
  assert (Hex : exists b, exported dead (resolve dm (dfn_id_of sfx) sfx) = Ok b).
  { unfold exported.
    destruct (resolve dm (dfn_id_of sfx) sfx) as [[u at']|] eqn:Hr;
      [|by eexists].
    destruct (resolve_lookup _ _ _ _ Hr) as [k Hk].
    rewrite bool_decide_eq_false_2 by (by eapply Hdead). by eexists. }
  destruct Hex as [b ->]. cbn.
  unfold sync_marker.
  destruct b; destruct (find is_marker _); try by eexists.
  destruct (from_option truthy false _); [by eexists|].
  unfold dot_div. cbn [contents]. rewrite Hd2. by eexists.
Qed.

Lemma process_panel_dead pn dm dead pu pnm pa (cs : list node) F eff :
  NoDup (uids cs) -> fresh_for F cs ->
  process_panel pn dm dead (Tag pu pnm pa cs) F = Ok eff ->
  forall u, u ∈ e_dead eff -> u ∈ uids cs \/ F <= u.
Proof.
  intros Hnd HF Hp u Hu.
  destruct (process_panel_cases _ _ _ _ _ _ Hp) as [[sfx Hm]|[_ ->]];
    [|by apply elem_of_nil in Hu].
  destruct (process_panel_matched _ _ _ _ _ _ _ _ _ _ Hm Hp)
    as (a & P1 & F1 & b & Ha & _ & Hs).
  destruct (after_anchor _ _ _ _ _ _ _ _ (dfn_id_of sfx) Hnd HF Ha)
    as (cs2 & a0 & HP2 & Hnd2 & _ & _ & _ & _ & _ & _ & Hsub & _).
  rewrite HP2 in Hs.
  destruct (sync_marker_spec _ _ _ _ _ _ _ _ _ Hs) as (cs3 & _ & _ & Hcase).
  destruct Hcase as [(_ & _ & _ & _ & Hd)|[(_ & _ & _ & _ & _ & Hd)|
    [(_ & _ & _ & _ & Hd & _)|[(_ & _ & m & Hfm & _ & Hd)|(_ & _ & _ & _ & Hd)]]]];
    rewrite Hd in Hu; try by apply elem_of_nil in Hu.
  pose proof (find_deref _ _ _ Hnd2 Hfm (find_tag_uid _ _ _ _ Hfm)) as Hdm.
  destruct (deref_uids _ _ _ Hnd2 Hdm) as [_ Hsubm].
  destruct (Hsub u (Hsubm u Hu)) as [?|[? _]]; [by left|by right].
Qed.

Lemma elem_uids_head v nm a (cc : list node) : v ∈ uids [Tag v nm a cc].
Proof. rewrite uids_single. cbn. by left. Qed.

Lemma elem_uids_below u v nm a (cc : list node) :
  u ∈ uids cc -> u ∈ uids [Tag v nm a cc].
Proof. intros H. rewrite uids_single. cbn. by right. Qed.

Lemma elem_uids_l u (l1 l2 : list node) : u ∈ uids l1 -> u ∈ uids (l1 ++ l2).
Proof. intros H. rewrite uids_app. apply elem_of_app. by left. Qed.

Lemma elem_uids_r u (l1 l2 : list node) : u ∈ uids l2 -> u ∈ uids (l1 ++ l2).
Proof. intros H. rewrite uids_app. apply elem_of_app. by right. Qed.

Lemma walk_completes pn dm (K : nat -> Prop) (cs : list node) :
  (forall k u a, dm !! k = Some (u, a) -> K u) ->
  forall x,
    NoDup (uids cs) -> fresh_for (x_fresh x) cs ->
    (forall u, K u -> u < x_fresh x) ->
    (forall u, u ∈ x_dead x -> (u ∉ uids cs) /\ ~ K u) ->
    (forall P, P ∈ find_all is_panel cs ->
       workable P /\ forall u, K u -> u ∉ uids (contents P)) ->
    exists cs' x',
      walk_forest pn dm cs x = Ok (cs', x')
      /\ x_fresh x <= x_fresh x'
      /\ (forall u, u ∈ x_dead x' ->
            ~ K u /\ (u ∈ x_dead x \/ u ∈ uids cs \/ x_fresh x <= u)).
Proof.
  intros HK.
  induction cs as [|k s rest IH|v nm a cc rest IHcc IH] using forest_ind;
    intros x Hnd HF HKF Hdead Hpan.
  - exists [], x. split; [reflexivity|]. split; [lia|].
    intros u Hu. split; [by apply Hdead|by left].
  - assert (Hpan' : forall P, P ∈ find_all is_panel rest ->
              workable P /\ forall u, K u -> u ∉ uids (contents P)).
    { intros P HP. apply Hpan.
      rewrite (find_all_cons _ (NavigableString k s) rest). exact HP. }
    destruct (IH x Hnd HF HKF Hdead Hpan') as (rest' & x' & Hw & Hle & Hd').
    exists (NavigableString k s :: rest'), x'.
    rewrite walk_forest_cons, walk_string. cbn. rewrite Hw. cbn.
    split; [reflexivity|]. split; [done|]. exact Hd'.
  - change (Tag v nm a cc :: rest) with ([Tag v nm a cc] ++ rest) in *.
    pose proof Hnd as Hnd0. rewrite uids_app in Hnd0.
    apply NoDup_app in Hnd0 as (Hnd1 & Hdisj & Hnd2).
    pose proof HF as HF0. apply fresh_for_app in HF0 as [HF1 HF2].
    pose proof Hnd1 as Hndc. rewrite uids_tag in Hndc. cbn in Hndc.
    rewrite app_nil_r in Hndc. apply NoDup_cons in Hndc as [_ Hndc].
    pose proof HF1 as HFc. apply fresh_for_tag in HFc as [_ HFc].
    assert (Hpan1 : forall P, P ∈ find_all is_panel [Tag v nm a cc] ->
              workable P /\ forall u, K u -> u ∉ uids (contents P)).
    { intros P HP. apply Hpan. rewrite find_all_app. apply elem_of_app. by left. }
    assert (Hpan2 : forall P, P ∈ find_all is_panel rest ->
              workable P /\ forall u, K u -> u ∉ uids (contents P)).
    { intros P HP. apply Hpan. rewrite find_all_app. apply elem_of_app. by right. }
    assert (Hstep : exists c' x1,
              walk pn dm (Tag v nm a cc) x = Ok (c', x1)
              /\ x_fresh x <= x_fresh x1
              /\ (forall u, u ∈ x_dead x1 ->
                    ~ K u /\ (u ∈ x_dead x \/ u ∈ uids [Tag v nm a cc]
                              \/ x_fresh x <= u))).
    { rewrite walk_tag. destruct (is_panel (Tag v nm a cc)) eqn:Hp.
      - destruct (Hpan1 (Tag v nm a cc)) as [Hwork HKc].
        { rewrite find_all_tag, Hp. by left. }
        cbn [contents] in HKc.
        destruct (process_panel_completes pn dm (x_dead x) v nm a cc (x_fresh x)
                    Hndc HFc Hwork) as [eff Heff].
        { intros k u at' Hk Hu. apply Hdead in Hu as [_ Hu]. apply Hu.
          by eapply HK. }
        unfold visit_panel. cbn [uid_of tag_uid default].
        rewrite bool_decide_eq_false_2.
        2:{ intros Hv. apply Hdead in Hv as [Hv _]. apply Hv.
            apply (elem_uids_l v [Tag v nm a cc] rest), elem_uids_head. }
        rewrite Heff. cbn.
        eexists _, _. split; [reflexivity|]. cbn [x_fresh x_dead].
        destruct (process_panel_bounds _ _ _ _ _ _ _ _ _ Hndc HFc Heff)
          as (cs3 & _ & _ & _ & Hle & _).
        split; [done|].
        intros u Hu. apply elem_of_app in Hu as [Hu|Hu].
        + split; [by apply Hdead|by left].
        + destruct (process_panel_dead _ _ _ _ _ _ _ _ _ Hndc HFc Heff u Hu)
            as [Hin|Hge].
          * split; [intros HKu; by apply (HKc u)|].
            right. left. by apply (elem_uids_below u v nm a cc).
          * split; [intros HKu; apply HKF in HKu; lia|]. by right; right.
      - assert (Hdeadc : forall u, u ∈ x_dead x -> (u ∉ uids cc) /\ ~ K u).
        { intros u Hu. destruct (Hdead u Hu) as [Hn HKu]. split; [|done].
          intros Hin. apply Hn.
          by apply (elem_uids_l u [Tag v nm a cc] rest), elem_uids_below. }
        assert (Hpanc : forall P, P ∈ find_all is_panel cc ->
                  workable P /\ forall u, K u -> u ∉ uids (contents P)).
        { intros P HP. apply Hpan1. rewrite find_all_tag, Hp. exact HP. }
        destruct (IHcc x Hndc HFc HKF Hdeadc Hpanc)
          as (cc' & x1 & Hw & Hle & Hd').
        rewrite Hw. cbn. eexists _, _. split; [reflexivity|].
        split; [done|].
        intros u Hu. destruct (Hd' u Hu) as [HKu [H|[H|H]]].
        + split; [done|by left].
        + split; [done|]. right. left. by apply (elem_uids_below u v nm a cc).
        + split; [done|by right; right]. }
    destruct Hstep as (c' & x1 & Hw1 & Hle1 & Hd1).
    assert (HF2' : fresh_for (x_fresh x1) rest).
    { eapply fresh_for_le; [|exact HF2]. done. }
    assert (HKF' : forall u, K u -> u < x_fresh x1).
    { intros u HKu. specialize (HKF u HKu). lia. }
    assert (Hdead' : forall u, u ∈ x_dead x1 -> (u ∉ uids rest) /\ ~ K u).
    { intros u Hu. destruct (Hd1 u Hu) as [HKu [H|[H|H]]]; split; try done.
      - destruct (Hdead u H) as [Hn _]. intros Hin. apply Hn.
        by apply (elem_uids_r u [Tag v nm a cc] rest).
      - intros Hin. by apply (Hdisj u).
      - intros Hin. specialize (HF2 u Hin). lia. }
    destruct (IH x1 Hnd2 HF2' HKF' Hdead' Hpan2)
      as (rest' & x2 & Hw2 & Hle2 & Hd2).
    exists (c' :: rest'), x2.
    change ([Tag v nm a cc] ++ rest) with (Tag v nm a cc :: rest).
    rewrite walk_forest_cons, Hw1. cbn. rewrite Hw2. cbn.
    split; [reflexivity|]. split; [lia|].
    change (Tag v nm a cc :: rest) with ([Tag v nm a cc] ++ rest).
    intros u Hu. destruct (Hd2 u Hu) as [HKu [H|[H|H]]].
    + destruct (Hd1 u H) as [_ [H'|[H'|H']]].
      * split; [done|by left].
      * split; [done|]. right. left.
        by apply (elem_uids_l u [Tag v nm a cc] rest).
      * split; [done|by right; right].
    + split; [done|]. right. left.
      by apply (elem_uids_r u [Tag v nm a cc] rest).
    + split; [done|]. right. right. lia.
Qed.

Lemma dfn_map_refs (cs : list node) dm k u a :
  build_dfn_map cs = Ok dm -> dm !! k = Some (u, a) ->
  exists t, t ∈ find_all (name_is "dfn") cs /\ uid_of t = u.
Proof.
  unfold build_dfn_map. intros Hb Hk0.
  pose proof (eq_trans (eq_sym (foldl_dfn_map_add_lookup _ _ _ Hb k)) Hk0) as Hk.
  clear Hk0.
  destruct (PyStr.truthy k); [|by rewrite lookup_empty in Hk].
  destruct (last _) as [t|] eqn:Hl; [|by rewrite lookup_empty in Hk].
  exists t. split.
  - apply last_Some in Hl as [l' Hl].
    assert (Hin : t ∈ List.filter (has_id k) (find_all (name_is "dfn") cs)).
    { rewrite Hl. apply elem_of_app. right. by left. }
    apply list_elem_of_In, filter_In in Hin as [Hin _].
    by apply list_elem_of_In.
  - by injection Hk as <- _.
Qed.

End Completes.

(** X18. The loop completes without an exception on every document in
    which no panel lies inside another one, no definition lies inside a
    panel, every identifier the index needs is hashable, and every
    panel has a string (or no) identifier, a [div] below it, and no
    element inside its first permalink anchor. *)
Theorem X18_transform_completes (p_name : string) (cs : list node)
    (dm : gmap string dfn_ref) :
  NoDup (uids cs) -> flat cs ->
  build_dfn_map cs = Ok dm ->
  no_dfn_in_panels cs ->
  for_panels workable cs ->
  exists cs', transform p_name cs = Ok cs'.
Proof.
  intros Hnd Hflat Hdm Hno Hwork.
  rewrite (transform_walk p_name cs Hnd Hflat), Hdm. cbn.
  set (K := fun u => exists t, t ∈ find_all (name_is "dfn") cs /\ uid_of t = u).
  destruct (walk_completes p_name dm K cs) with
    (x := {| x_orphans := []; x_dead := []; x_fresh := first_fresh cs |})
    as (cs' & x' & Hw & _).
  - intros k u a Hk. by eapply dfn_map_refs.
  - exact Hnd.
  - apply fresh_for_first_fresh.
  - intros u (t & Ht & <-). apply (fresh_for_first_fresh cs).
    apply list_elem_of_In, filter_In in Ht as [Ht Hn].
    apply list_elem_of_omap. exists t. split; [by apply list_elem_of_In|].
    by destruct t.
  - intros u Hu. by apply elem_of_nil in Hu.
  - intros P HP. split; [by apply Hwork|].
    intros u (t & Ht & <-) Hin.
    apply list_elem_of_In, filter_In in Ht as [Ht Hn].
    apply list_elem_of_In in Ht.
    assert (Htag : is_tag t = true) by (destruct t; [done|discriminate]).
    apply list_elem_of_omap in Hin as (t' & Ht' & Hu').
    destruct (is_panel_elem_of _ _ HP) as (HPd & _).
    pose proof (descendants_of_contents_subset cs P HPd t' Ht') as Ht'cs.
    assert (Htag' : is_tag t' = true) by (destruct t'; [done|discriminate]).
    pose proof (deref_self cs t Hnd Ht Htag) as H1.
    pose proof (deref_self cs t' Hnd Ht'cs Htag') as H2.
    assert (Heq : uid_of t' = uid_of t).
    { unfold uid_of at 1. by rewrite Hu'. }
    rewrite Heq, H1 in H2. injection H2 as <-.
    assert (Hin : t ∈ find_all (name_is "dfn") (contents P)).
    { apply list_elem_of_In, filter_In. split; [by apply list_elem_of_In|done]. }
    rewrite (Hno P HP) in Hin. by apply elem_of_nil in Hin.
  - rewrite Hw. cbn. by eexists.
Qed.

Lemma X18_transform_completes_witness :
  exists cs', transform "Overview.html" Examples.scenario1 = Ok cs'.
Proof.
  refine (X18_transform_completes "Overview.html" Examples.scenario1
            Examples.dfn_claims_index _ _ _ _ _).
  - apply (bool_decide_unpack _). vm_compute. exact I.
  - apply flatb_flat. vm_compute. reflexivity.
  - vm_compute. reflexivity.
  - intros P HP. apply list_elem_of_In in HP. vm_compute in HP.
    destruct HP as [<-|[]]. reflexivity.
  - intros P HP. apply list_elem_of_In in HP. vm_compute in HP.
    destruct HP as [<-|[]].
    split; [by exists "dfn-panel-for-dfn-claims"|].
    split; [by eexists|]. intros a0 Ha. discriminate Ha.
Defined.
